(** * slider_verify: the remote-session automation engine

    A shallow embedding of [vm_automation.py], [llm_client.py] and the
    orchestrator of [main.py].

    - Python [str] values are modelled as [string]; the case conversions and
      [strip] are the ASCII fragment of Python's (the oracle prompts and all
      phrases the code looks for are ASCII).
    - The browser session, the vision/text model, the clock, the backup
      provider and the report writer are the outside world: a [World] record
      scripts their answers, the program state counts how many answers were
      consumed and records what was sent.
    - Python exceptions are the [Raise] results of a state-and-error monad;
      [try]/[except]/[finally] and [with] are combinators of that monad.
    - [logger] calls and [time.sleep] have no effect on any value the program
      computes and are left out. *)

From Stdlib Require Import String Ascii List Arith Bool Lia.
From Stdlib Require Import DecimalString.
Import ListNotations.
Local Open Scope list_scope.
Local Open Scope nat_scope.
Local Open Scope string_scope.

Set Implicit Arguments.

(* ================================================================== *)
(** ** Python string operations *)

Module PyStr.

Definition is_upper_ascii (c : ascii) : bool :=
  let n := nat_of_ascii c in Nat.leb 65 n && Nat.leb n 90.

Definition is_lower_ascii (c : ascii) : bool :=
  let n := nat_of_ascii c in Nat.leb 97 n && Nat.leb n 122.

Definition upper_char (c : ascii) : ascii :=
  if is_lower_ascii c then ascii_of_nat (nat_of_ascii c - 32) else c.

Definition lower_char (c : ascii) : ascii :=
  if is_upper_ascii c then ascii_of_nat (nat_of_ascii c + 32) else c.

Fixpoint map_str (f : ascii -> ascii) (s : string) : string :=
  match s with
  | EmptyString => EmptyString
  | String c t => String (f c) (map_str f t)
  end.

(** [s.upper()] and [s.lower()]. *)
Definition upper : string -> string := map_str upper_char.
Definition lower : string -> string := map_str lower_char.

(** [needle in hay]. *)
Fixpoint contains (needle hay : string) : bool :=
  if prefix needle hay then true
  else match hay with
       | EmptyString => false
       | String _ t => contains needle t
       end.

(** [s.startswith(p)] and [s.endswith(p)]. *)
Definition startswith (p s : string) : bool := prefix p s.

Fixpoint rev_str (s : string) : string :=
  match s with
  | EmptyString => EmptyString
  | String c t => rev_str t ++ String c EmptyString
  end.

Definition endswith (p s : string) : bool := prefix (rev_str p) (rev_str s).

(** [s.split(sep)] for a one-character separator: never the empty list. *)
Fixpoint split (sep : ascii) (s : string) : list string :=
  match s with
  | EmptyString => [EmptyString]
  | String c t =>
      if Ascii.eqb c sep then EmptyString :: split sep t
      else match split sep t with
           | [] => [String c EmptyString]
           | h :: r => String c h :: r
           end
  end.

(** [s.split(sep, 1)[1]]: the text after the first separator; [None] stands
    for the [IndexError] Python raises when there is no separator. *)
Fixpoint split1_tail (sep : ascii) (s : string) : option string :=
  match s with
  | EmptyString => None
  | String c t => if Ascii.eqb c sep then Some t else split1_tail sep t
  end.

(** [s.rsplit(sep, 1)[0]]: the text before the last separator, the whole
    string when there is none. *)
Fixpoint rsplit1_head (sep : ascii) (s : string) : string :=
  match s with
  | EmptyString => EmptyString
  | String c t =>
      match split1_tail sep (String c t) with
      | None => String c t
      | Some _ =>
          if Ascii.eqb c sep
          then match split1_tail sep t with
               | None => EmptyString
               | Some _ => String c (rsplit1_head sep t)
               end
          else String c (rsplit1_head sep t)
      end
  end.

(** The characters [str.strip()] removes (ASCII). *)
Definition is_space (c : ascii) : bool :=
  let n := nat_of_ascii c in
  (Nat.leb 9 n && Nat.leb n 13) || (Nat.leb 28 n && Nat.leb n 32).

Fixpoint lstrip (s : string) : string :=
  match s with
  | EmptyString => EmptyString
  | String c t => if is_space c then lstrip t else s
  end.

Definition rstrip (s : string) : string := rev_str (lstrip (rev_str s)).

Definition strip (s : string) : string := rstrip (lstrip s).

(** [s[:n]]. *)
Fixpoint take (n : nat) (s : string) : string :=
  match n, s with
  | S k, String c t => String c (take k t)
  | _, _ => EmptyString
  end.

(** [xs[-1]] of a list of strings ([split] never returns the empty list). *)
Definition last_item (xs : list string) : string := List.last xs EmptyString.

(** [xs[1]], [None] for the [IndexError]. *)
Definition item1 (xs : list string) : option string := List.nth_error xs 1.

(** [str(n)] for a non-negative integer. *)
Definition of_nat (n : nat) : string := NilEmpty.string_of_uint (Nat.to_uint n).

(** Truthiness of a string: [bool(s)]. *)
Definition nonempty (s : string) : bool :=
  match s with EmptyString => false | _ => true end.

Definition chars (s : string) : list ascii := list_ascii_of_string s.

End PyStr.
Import PyStr.

Definition newline : ascii := ascii_of_nat 10.
Definition colon : ascii := ":"%char.
Definition backslash : ascii := ascii_of_nat 92.
Definition dquote : ascii := ascii_of_nat 34.

(* ================================================================== *)
(** ** llm_client.py: the structured answers and their parsers *)

(** The dictionary [verify_ui_state] returns. *)
Record Verdict := mkVerdict {
  verified : bool;
  confidence : string;
  description : string;
  raw_response : string
}.

(** The dictionary [detect_login_fields] returns; [displayed_username] is
    [None] both for Python's [None] and for a missing key, which [.get]
    does not tell apart. *)
Record FieldDetection := mkFields {
  has_username : bool;
  has_password : bool;
  displayed_username : option string;
  fd_description : string;
  fd_raw_response : string
}.

(** One iteration of the [for line in lines] loop of [verify_ui_state];
    [None] is the [IndexError] of [line.split(':', 1)[1]]. *)
Definition verify_line (r : Verdict) (line : string) : option Verdict :=
  if contains "VERIFIED:" line then
    Some (mkVerdict (contains "YES" line) (confidence r) (description r) (raw_response r))
  else if contains "CONFIDENCE:" line then
    match split1_tail colon line with
    | None => None
    | Some t =>
        let conf := lower (strip t) in
        if String.eqb conf "high" || String.eqb conf "medium" || String.eqb conf "low"
        then Some (mkVerdict (verified r) conf (description r) (raw_response r))
        else Some r
    end
  else if contains "DESCRIPTION:" line then
    match split1_tail colon line with
    | None => None
    | Some t => Some (mkVerdict (verified r) (confidence r) (strip t) (raw_response r))
    end
  else Some r.

Fixpoint verify_lines (r : Verdict) (lines : list string) : option Verdict :=
  match lines with
  | [] => Some r
  | line :: rest =>
      match verify_line r line with
      | None => None
      | Some r' => verify_lines r' rest
      end
  end.

Definition verify_error (msg : string) : Verdict :=
  mkVerdict false "error" ("Error during verification: " ++ msg) "".

(** [LLMClient.verify_ui_state], as a function of what [analyze_screenshot]
    returned: the message content, [None] when the completion carries no
    content (then [response.upper()] raises and the handler answers). *)
Definition verify_ui_state (response : option string) : Verdict :=
  match response with
  | None => verify_error "'NoneType' object has no attribute 'upper'"
  | Some resp =>
      match verify_lines (mkVerdict false "low" resp resp) (split newline (upper resp)) with
      | Some r => r
      | None => verify_error "list index out of range"
      end
  end.

(** One iteration of the loop of [detect_login_fields]. *)
Definition detect_line (r : FieldDetection) (line : string) : FieldDetection :=
  let line_upper := upper line in
  let after := match split1_tail colon line with
               | Some t => strip t
               | None => EmptyString
               end in
  if contains "USERNAME_FIELD:" line_upper || contains "USERNAME FIELD:" line_upper then
    mkFields (contains "YES" line_upper) (has_password r) (displayed_username r)
             (fd_description r) (fd_raw_response r)
  else if contains "PASSWORD_FIELD:" line_upper || contains "PASSWORD FIELD:" line_upper then
    mkFields (has_username r) (contains "YES" line_upper) (displayed_username r)
             (fd_description r) (fd_raw_response r)
  else if contains "DISPLAYED_USERNAME:" line_upper
          || contains "DISPLAYED USERNAME:" line_upper then
    mkFields (has_username r) (has_password r)
             (if String.eqb (lower after) "none" then None else Some after)
             (fd_description r) (fd_raw_response r)
  else if contains "DESCRIPTION:" line_upper then
    mkFields (has_username r) (has_password r) (displayed_username r)
             after (fd_raw_response r)
  else r.

(** [LLMClient.detect_login_fields], as a function of the reply. *)
Definition detect_login_fields (response : option string) : FieldDetection :=
  match response with
  | None =>
      mkFields true true None
        "Error during detection: 'NoneType' object has no attribute 'split'" ""
  | Some resp =>
      let r := fold_left detect_line (split newline resp)
                 (mkFields false false None "" resp) in
      if nonempty (fd_description r) then r
      else mkFields (has_username r) (has_password r) (displayed_username r)
                    (take 200 resp) (fd_raw_response r)
  end.

(* ================================================================== *)
(** ** vm_automation.py: the decisions taken on an oracle answer *)

(** [any(p in description for p in phrases)]. *)
Definition any_in (phrases : list string) (description : string) : bool :=
  existsb (fun p => contains p description) phrases.

(** What the verification block after the login submit computes: either
    [login_verified = True] or a raised [VMAutomationError] with its
    message. *)
Inductive LoginDecision :=
| LoginVerified
| LoginRejected (error_msg : string).

(** The [if verification: ... else: ...] block of [login_windows] that
    follows the [04_login_verify] screenshot. *)
Definition login_decision (verification : option Verdict) : LoginDecision :=
  match verification with
  | Some v =>
      let confidence := confidence v in
      let description := upper (description v) in
      let verified := verified v in
      if verified then LoginVerified
      else if contains "SHUTDOWN EVENT TRACKER" description
              || contains "SHUTDOWN" description then LoginVerified
      else if contains "DESKTOP" description && contains "TASKBAR" description
      then LoginVerified
      else if contains "STILL ON LOGIN" description
              || contains "SHOWING LOGIN" description
              || contains "AT LOGIN SCREEN" description
      then LoginRejected ("Login FAILED - Still on login screen. AI saw: " ++ description)
      else if contains "INCORRECT PASSWORD" description
              || contains "PASSWORD INCORRECT" description
              || contains "WRONG PASSWORD" description
      then LoginRejected ("Login FAILED - Password incorrect. AI saw: " ++ description)
      else if contains "LOCKED" description && contains "SCREEN" description
      then LoginRejected ("Login FAILED - Screen is locked. AI saw: " ++ description)
      else if String.eqb confidence "low" || negb (nonempty description)
      then LoginVerified
      else LoginRejected
             ("Login FAILED - AI verification did not detect Windows desktop. AI saw: "
              ++ description)
  | None => LoginVerified
  end.

(** The lock-screen test on the run-dialog screenshot. *)
Definition screen_locked (description : string) : bool :=
  contains "CTRL+ALT+DELETE" description
  || contains "UNLOCK" description
  || contains "LOCK SCREEN" description.

Definition negation_phrases : list string :=
  ["NO RED"; "NO ERROR"; "NO ERRORS"; "WITHOUT ERROR"; "WITHOUT RED"].

Definition error_indicators : list string :=
  ["RED TEXT"; "RED ERROR"; "ERROR TEXT IN RED"; "ERROR MESSAGE IS DISPLAYED";
   "ERROR MESSAGE IS VISIBLE"; "DISPLAYS AN ERROR MESSAGE"; "SHOWS AN ERROR MESSAGE";
   "ACCESS IS DENIED"; "PERMISSION IS DENIED"; "THE TERMINAL SHOWS THE ERROR OUTPUT"].

(** The value of [command_has_error] after the classification block of
    [run_powershell_interactive] and [run_powershell_command]. *)
Definition command_has_error (verification : option Verdict) : bool :=
  match verification with
  | Some v =>
      let description := upper (description v) in
      let has_negation := any_in negation_phrases description in
      if negb has_negation then any_in error_indicators description else false
  | None => false
  end.

(** [u.split('\\')[-1] if '\\' in u else u]. *)
Definition strip_domain (u : string) : string :=
  if contains (String backslash "") u then last_item (split backslash u) else u.

(** The comparison that decides between the cached-user branch and the
    user-switch branch of [login_windows]. *)
Definition username_matches (displayed_user username : string) : bool :=
  String.eqb (lower (strip_domain displayed_user)) (lower (strip_domain username)).

(** The fall-back applied to the first detection in [login_windows]. *)
Definition fallback_fields (fd : FieldDetection) : FieldDetection :=
  if negb (nonempty (fd_description fd))
     || (negb (has_username fd) && negb (has_password fd))
  then mkFields false true None "Fallback: password only" ""
  else fd.

(** [field_detection] after the cached-user branch. *)
Definition cached_user_fields (displayed_user : string) : FieldDetection :=
  mkFields false true (Some displayed_user)
           ("Cached user matches: " ++ displayed_user) "".

(** The test that selects the password-only credential entry. *)
Definition password_only (fd : option FieldDetection) : bool :=
  match fd with
  | Some f => negb (has_username f) && has_password f
  | None => false
  end.

(** The shift table and the keystrokes of [_type_char_vnc]. *)
Definition shift_chars : list (ascii * string) :=
  [("!"%char, "1"); ("@"%char, "2"); ("#"%char, "3"); ("$"%char, "4");
   ("%"%char, "5"); ("^"%char, "6"); ("&"%char, "7"); ("*"%char, "8");
   ("("%char, "9"); (")"%char, "0"); ("_"%char, "-"); ("+"%char, "=");
   ("{"%char, "["); ("}"%char, "]"); ("|"%char, String backslash "");
   (":"%char, ";"); (dquote, "'"); ("<"%char, ","); (">"%char, ".");
   ("?"%char, "/"); ("~"%char, "`")].

Fixpoint shift_lookup (c : ascii) (tbl : list (ascii * string)) : option string :=
  match tbl with
  | [] => None
  | (k, v) :: rest => if Ascii.eqb c k then Some v else shift_lookup c rest
  end.

(* ================================================================== *)
(** ** The outside world, the program state and the monad *)

(** The exception classes the program raises or catches by name; every
    other exception is an [OtherException]. *)
Inductive exn :=
| VMAutomationError (msg : string)
| SlideAPIError (msg : string)
| ValueError (msg : string)
| OtherException (msg : string).

(** [str(e)]. *)
Definition exn_msg (e : exn) : string :=
  match e with
  | VMAutomationError m | SlideAPIError m | ValueError m | OtherException m => m
  end.

Inductive result (A : Type) :=
| Ok (a : A)
| Raise (e : exn).
Arguments Ok {A} a.
Arguments Raise {A} e.

(** An answer of an external service: a value, or the message of the
    exception the call raised. *)
Inductive reply (A : Type) :=
| Answer (a : A)
| Failure (msg : string).
Arguments Answer {A} a.
Arguments Failure {A} msg.

(** Calls made on the Playwright page. *)
Inductive PageCall :=
| Launch
| Close
| Goto (url : string)
| Screenshot (path : string)
| Press (key : string)
| TypeText (text : string)
| KeyDown (key : string)
| KeyUp (key : string)
| ClickCanvas
| ClickAt (x y : nat)
| CtrlAltDel.

(** Calls made on the backup provider and on the report writer. *)
Inductive ApiCall :=
| GetLatestSnapshot (agent_id : option string)
| GetAgentDetails (agent_id : string)
| CreateVM (snapshot_id : string) (device_id : option string) (network : string)
| WaitForVMReady (virt_id : option string) (timeout : nat)
| GetVMDetails (virt_id : option string)
| GetVNCUrl (virt_id : option string)
| DestroyVM (virt_id : string)
| GenerateReport (n_actions n_screenshots n_steps : nat).

Record Location := mkLocation {
  loc_type : string;
  loc_device_id : option string
}.

Record Snapshot := mkSnapshot {
  snapshot_id : string;
  agent_id : option string;
  locations : list Location
}.

Record World := mkWorld {
  (** the exception message of the n-th page call, if it raises *)
  page_fault : nat -> option string;
  (** the content of the n-th vision completion *)
  vision : nat -> option string;
  (** the n-th text completion *)
  chat : nat -> reply string;
  (** the n-th reading of the clock, formatted *)
  clock : nat -> string;
  latest_snapshot : reply (option Snapshot);
  agent_details : reply string;
  created_vm : reply (option string);
  vm_ready : reply bool;
  vm_details : reply string;
  vnc_url : reply string;
  destroyed : reply bool;
  report_paths : reply (string * string)
}.

(** An entry of [action_log]. *)
Record LogEntry := mkLog {
  log_timestamp : string;
  action : string;
  details : string
}.

(** An entry of [verification_results]. *)
Record VerificationRecord := mkVR {
  vr_screenshot : string;
  vr_expected : string;
  vr_verification : Verdict
}.

(** The mutable state: the three lists of the [VMAutomation] object, the
    [vm_id] of the orchestrator, and the bookkeeping of the world (what
    was sent, how many scripted answers were consumed). *)
Record State := mkState {
  screenshots : list string;
  action_log : list LogEntry;
  verification_results : list VerificationRecord;
  page_calls : list PageCall;
  page_count : nat;
  vision_count : nat;
  chat_count : nat;
  clock_count : nat;
  vm_id : option string;
  api_calls : list ApiCall
}.

Definition initial_state : State := mkState [] [] [] [] 0 0 0 0 None [].

Definition M (A : Type) : Type := State -> result A * State.

Definition ret {A} (a : A) : M A := fun s => (Ok a, s).

Definition bind {A B} (m : M A) (f : A -> M B) : M B :=
  fun s => match m s with
           | (Ok a, s') => f a s'
           | (Raise e, s') => (Raise e, s')
           end.

Definition raise {A} (e : exn) : M A := fun s => (Raise e, s).

(** [try: m  except Exception as e: h e]. *)
Definition try_except {A} (m : M A) (h : exn -> M A) : M A :=
  fun s => match m s with
           | (Ok a, s') => (Ok a, s')
           | (Raise e, s') => h e s'
           end.

(** [try: m  finally: c]. *)
Definition try_finally {A} (m : M A) (c : M unit) : M A :=
  fun s => match m s with
           | (r, s') => match c s' with
                        | (Ok _, s'') => (r, s'')
                        | (Raise e, s'') => (Raise e, s'')
                        end
           end.

Declare Scope monad_scope.
Delimit Scope monad_scope with monad.
Notation "x <- c1 ;; c2" := (bind c1 (fun x => c2))
  (at level 61, c1 at next level, right associativity) : monad_scope.
Notation "' pat <- c1 ;; c2" := (bind c1 (fun x => match x with pat => c2 end))
  (at level 61, pat pattern, c1 at next level, right associativity) : monad_scope.
Notation "c1 ;; c2" := (bind c1 (fun _ => c2))
  (at level 61, right associativity) : monad_scope.
Local Open Scope monad_scope.

(** [for x in xs: body x]. *)
Fixpoint for_each {A} (xs : list A) (body : A -> M unit) : M unit :=
  match xs with
  | [] => ret tt
  | x :: rest => body x ;; for_each rest body
  end.

(** What one pass through the body of a retry loop ends in: [continue]
    (or falling off the end) or [return a]. *)
Inductive ctl (A : Type) :=
| Continue
| Return (a : A).
Arguments Continue {A}.
Arguments Return {A} a.

(** [for attempt in range(first, first + n): body attempt] followed by
    [return otherwise].  Next to the returned value the loop reports the
    values [attempt] took, in order. *)
Fixpoint for_attempts {A} (n attempt : nat) (body : nat -> M (ctl A)) (otherwise : A)
  : M (A * list nat) :=
  match n with
  | 0 => ret (otherwise, [])
  | S n' =>
      c <- body attempt ;;
      match c with
      | Return a => ret (a, [attempt])
      | Continue =>
          '(a, tried) <- for_attempts n' (S attempt) body otherwise ;;
          ret (a, attempt :: tried)
      end
  end.

(** State updates. *)
Definition add_screenshot (p : string) : M unit := fun s =>
  (Ok tt, mkState (screenshots s ++ [p])%list (action_log s) (verification_results s)
            (page_calls s) (page_count s) (vision_count s) (chat_count s)
            (clock_count s) (vm_id s) (api_calls s)).

Definition add_log (e : LogEntry) : M unit := fun s =>
  (Ok tt, mkState (screenshots s) (action_log s ++ [e])%list (verification_results s)
            (page_calls s) (page_count s) (vision_count s) (chat_count s)
            (clock_count s) (vm_id s) (api_calls s)).

Definition add_verification (r : VerificationRecord) : M unit := fun s =>
  (Ok tt, mkState (screenshots s) (action_log s) (verification_results s ++ [r])%list
            (page_calls s) (page_count s) (vision_count s) (chat_count s)
            (clock_count s) (vm_id s) (api_calls s)).

Definition set_vm_id (v : option string) : M unit := fun s =>
  (Ok tt, mkState (screenshots s) (action_log s) (verification_results s)
            (page_calls s) (page_count s) (vision_count s) (chat_count s)
            (clock_count s) v (api_calls s)).

Definition get_vm_id : M (option string) := fun s => (Ok (vm_id s), s).

(** [VMAutomation.__init__]: a new object with three empty lists. *)
Definition new_vm_automation : M unit := fun s =>
  (Ok tt, mkState [] [] [] (page_calls s) (page_count s) (vision_count s)
            (chat_count s) (clock_count s) (vm_id s) (api_calls s)).

(** [get_screenshots] and [get_action_log] return copies. *)
Definition get_screenshots : M (list string) := fun s => (Ok (screenshots s), s).
Definition get_action_log : M (list LogEntry) := fun s => (Ok (action_log s), s).

Section Primitives.
Variable W : World.

(** One call on the page: it raises when the world says so, and is
    recorded otherwise. *)
Definition page (c : PageCall) : M unit := fun s =>
  match page_fault W (page_count s) with
  | Some msg =>
      (Raise (OtherException msg),
       mkState (screenshots s) (action_log s) (verification_results s)
         (page_calls s) (S (page_count s)) (vision_count s) (chat_count s)
         (clock_count s) (vm_id s) (api_calls s))
  | None =>
      (Ok tt,
       mkState (screenshots s) (action_log s) (verification_results s)
         (page_calls s ++ [c])%list (S (page_count s)) (vision_count s) (chat_count s)
         (clock_count s) (vm_id s) (api_calls s))
  end.

(** [analyze_screenshot]: it catches every exception itself. *)
Definition analyze_screenshot : M (option string) := fun s =>
  (Ok (vision W (vision_count s)),
   mkState (screenshots s) (action_log s) (verification_results s)
     (page_calls s) (page_count s) (S (vision_count s)) (chat_count s)
     (clock_count s) (vm_id s) (api_calls s)).

(** [LLMClient.chat]: logs and re-raises. *)
Definition llm_chat : M string := fun s =>
  let s' := mkState (screenshots s) (action_log s) (verification_results s)
     (page_calls s) (page_count s) (vision_count s) (S (chat_count s))
     (clock_count s) (vm_id s) (api_calls s) in
  match chat W (chat_count s) with
  | Answer a => (Ok a, s')
  | Failure msg => (Raise (OtherException msg), s')
  end.

(** [datetime.now()], formatted. *)
Definition now : M string := fun s =>
  (Ok (clock W (clock_count s)),
   mkState (screenshots s) (action_log s) (verification_results s)
     (page_calls s) (page_count s) (vision_count s) (chat_count s)
     (S (clock_count s)) (vm_id s) (api_calls s)).

End Primitives.

(** One call on the backup provider ([SlideAPIError] on failure) or on
    the report writer (any other exception on failure). *)
Definition external {A} (err : string -> exn) (c : ApiCall) (answer : reply A) : M A :=
  fun s =>
  let s' := mkState (screenshots s) (action_log s) (verification_results s)
     (page_calls s) (page_count s) (vision_count s) (chat_count s)
     (clock_count s) (vm_id s) (api_calls s ++ [c])%list in
  match answer with
  | Answer a => (Ok a, s')
  | Failure msg => (Raise (err msg), s')
  end.

Definition api {A} (c : ApiCall) (answer : reply A) : M A :=
  external SlideAPIError c answer.

(* ================================================================== *)
(** ** vm_automation.py: class VMAutomation *)

(** The constructor arguments that decide behaviour ([show_password] and
    the pause options only change what is logged and slept). *)
Record Config := mkConfig {
  screenshot_dir : string;
  llm_client : bool;
  max_retries : nat
}.

(** The default of the [max_retries] argument of [VMAutomation.__init__]. *)
Definition default_max_retries : nat := 2.

(** The expected-state texts handed to the oracle. *)
Definition login_screen_state : string :=
  "A Windows login screen showing username and password fields. "
  ++ "Note: This is being viewed through VNC/noVNC remote access, which is expected and correct. "
  ++ "Look for login credentials fields, not whether it's 'native' Windows.".

Definition login_verify_state : string :=
  "Windows desktop with taskbar visible at the bottom, showing the user successfully logged in. "
  ++ "IMPORTANT: The Shutdown Event Tracker dialog may be present after VSS backup - this is EXPECTED and NORMAL. "
  ++ "If you see the desktop with taskbar AND optionally a Shutdown Event Tracker dialog, consider this VERIFIED. "
  ++ "Viewing via VNC is expected. "
  ++ "FAIL if you see: login screen, password prompt, 'incorrect password', or locked screen.".

Definition services_state : string :=
  "Windows Services Manager window showing a list of Windows services with columns "
  ++ "like Name, Description, Status, and Startup Type. The window title should say 'Services'. It could be in the background, see if the windows services Icon is available in the taskbar. That would also be a passing grade.".

Definition server_manager_state : string :=
  "Windows Server Manager application window visible on the desktop, showing the Server Manager Dashboard "
  ++ "with sections like Local Server, All Servers, or the Server Manager interface. "
  ++ "It may be in the background or foreground.".

Definition run_dialog_state : string :=
  "Windows Run dialog box is open on the screen, showing a text input field "
  ++ "with 'Open:' label. The dialog should have OK and Cancel buttons.".

Definition prompt_ready_state : string :=
  "Command window showing PowerShell prompt (PS C:\...> or similar). "
  ++ "The PowerShell prompt should be visible in the terminal window. "
  ++ "Note: PowerShell is running inside cmd.exe, so there will be NO blue background.".

Definition output_state (command : string) : string :=
  "Terminal window showing PowerShell output after executing '" ++ command ++ "'. "
  ++ "The command should show its output/results. "
  ++ "Note: This is PowerShell running inside cmd.exe, so NO blue background expected. "
  ++ "IMPORTANT: ONLY mark as FAIL if you see RED TEXT indicating an error, or if the terminal shows "
  ++ "actual error messages (like 'cannot be found', 'access denied', etc.). "
  ++ "If you see normal command output (even if white/gray text), mark as VERIFIED.".

(** Truthiness of an optional string argument. *)
Definition truthy (o : option string) : bool :=
  match o with
  | Some s => nonempty s
  | None => false
  end.

Section VMAutomation.
Variable W : World.
Variable cfg : Config.

Definition _log_action (action details : string) : M unit :=
  timestamp <- now W ;;
  add_log (mkLog timestamp action details).

(** [_click_vnc_canvas]: the probing of the canvas selectors and the
    click are one page call here; every exception is swallowed. *)
Definition _click_vnc_canvas : M unit :=
  try_except (page W ClickCanvas) (fun _ => ret tt).

(** [_click_vnc_at_coordinates]: the click in reference-frame
    coordinates; on an exception it falls back to [_click_vnc_canvas]. *)
Definition _click_vnc_at_coordinates (x y : nat) : M unit :=
  try_except (page W (ClickAt x y)) (fun _ => _click_vnc_canvas).

Definition _send_ctrl_alt_del : M unit :=
  try_except (page W CtrlAltDel) (fun _ => ret tt).

Definition _type_char_vnc (char : ascii) : M unit :=
  try_except
    (if is_upper_ascii char then
       page W (KeyDown "Shift") ;;
       page W (TypeText (String (lower_char char) "")) ;;
       page W (KeyUp "Shift")
     else match shift_lookup char shift_chars with
          | Some base_key =>
              page W (KeyDown "Shift") ;;
              page W (TypeText base_key) ;;
              page W (KeyUp "Shift")
          | None => page W (TypeText (String char ""))
          end)
    (fun _ => ret tt).

(** [for char in text: try: self._type_char_vnc(char) except ...]. *)
Definition type_chars_vnc (text : string) : M unit :=
  for_each (chars text) (fun char => try_except (_type_char_vnc char) (fun _ => ret tt)).

(** [LLMClient.verify_ui_state] and [LLMClient.detect_login_fields] on a
    screenshot. *)
Definition llm_verify_ui_state : M Verdict :=
  response <- analyze_screenshot W ;;
  ret (verify_ui_state response).

Definition llm_detect_login_fields : M FieldDetection :=
  response <- analyze_screenshot W ;;
  ret (detect_login_fields response).

Definition _capture_screenshot (name : string) (verify_state : option string)
  : M (string * option Verdict) :=
  timestamp <- now W ;;
  let filepath := screenshot_dir cfg ++ "/" ++ timestamp ++ "_" ++ name ++ ".png" in
  try_except
    (page W (Screenshot filepath) ;;
     add_screenshot filepath ;;
     verification <-
       (if truthy verify_state && llm_client cfg then
          try_except
            (v <- llm_verify_ui_state ;;
             add_verification
               (mkVR filepath (match verify_state with Some e => e | None => "" end) v) ;;
             ret (Some v))
            (fun _ => ret None)
        else ret None) ;;
     ret (filepath, verification))
    (fun _ => ret ("", None)).

Definition connect_to_vm (novnc_url : string) : M bool :=
  try_except
    (page W (Goto novnc_url) ;;
     _capture_screenshot "01_novnc_connected" None ;;
     ret true)
    (fun e => raise (VMAutomationError ("Failed to connect to VM: " ++ exn_msg e))).

Definition wait_for_windows_desktop : M bool :=
  _capture_screenshot "02_windows_desktop" None ;;
  ret true.

(** The [while not login_screen_ready and attempts < max_attempts] loop of
    [login_windows]; [remaining] is [max_attempts - attempts].  It returns
    [login_screen_ready] and the last [screenshot_path]. *)
Fixpoint poll_login_screen (remaining attempts : nat) : M (bool * string) :=
  match remaining with
  | 0 => ret (false, "")
  | S remaining' =>
      let attempts := S attempts in
      (if Nat.eqb attempts 1 || Nat.eqb (attempts mod 3) 0 then
         _log_action "Send Ctrl+Alt+Del" "Bringing up login screen" ;;
         _send_ctrl_alt_del
       else ret tt) ;;
      '(screenshot_path, verification) <-
         _capture_screenshot ("03_login_screen_check_" ++ of_nat attempts)
           (Some login_screen_state) ;;
      match verification with
      | Some v =>
          if verified v then ret (true, screenshot_path)
          else poll_login_screen remaining' attempts
      | None => ret (true, screenshot_path)
      end
  end.

Definition other_user_locations : list (nat * nat) :=
  [(150, 1000); (200, 950); (150, 950); (200, 1020); (100, 1000)].

(** The user-switch branch of [login_windows]. *)
Definition switch_user : M FieldDetection :=
  page W (Press "Escape") ;;
  _capture_screenshot "03b_before_other_user_click" None ;;
  for_each other_user_locations (fun '(x, y) => _click_vnc_at_coordinates x y) ;;
  '(screenshot_path_switch, _) <- _capture_screenshot "03c_after_other_user_click" None ;;
  if llm_client cfg then llm_detect_login_fields
  else ret (mkFields true true None "After switch: both fields" "").

(** The block of [login_windows] that compares the displayed username
    with the expected one. *)
Definition check_displayed_username (field_detection : FieldDetection) (username : string)
  : M FieldDetection :=
  match displayed_username field_detection with
  | Some displayed_user =>
      if nonempty displayed_user then
        if username_matches displayed_user username
        then ret (cached_user_fields displayed_user)
        else switch_user
      else ret field_detection
  | None => ret field_detection
  end.

Definition enter_password_only (password : string) : M unit :=
  _log_action "Enter password" "Typing password (username cached)" ;;
  _click_vnc_canvas ;;
  _click_vnc_canvas ;;
  _click_vnc_at_coordinates 960 560 ;;
  page W (Press "Control+A") ;;
  page W (Press "Backspace") ;;
  type_chars_vnc password.

Definition enter_username_and_password (username password : string) : M unit :=
  _log_action "Enter username" ("Typing username: " ++ username) ;;
  for_each (chars username) (fun char => page W (TypeText (String char ""))) ;;
  page W (Press "Tab") ;;
  page W (Press "Control+A") ;;
  page W (Press "Delete") ;;
  _log_action "Enter password" "Typing password" ;;
  type_chars_vnc password.

Definition disable_screen_lock : M unit :=
  try_except
    (page W (Press "Meta+R") ;;
     page W (TypeText "powershell") ;;
     page W (Press "Enter") ;;
     page W (TypeText "powercfg /change monitor-timeout-ac 0") ;;
     page W (Press "Enter") ;;
     page W (TypeText "powercfg /change standby-timeout-ac 0") ;;
     page W (Press "Enter") ;;
     page W (TypeText "exit") ;;
     page W (Press "Enter"))
    (fun _ => ret tt).

Definition login_windows (username password : string) (max_wait_for_login_screen : nat)
  : M bool :=
  try_except
    ('(login_screen_ready, screenshot_path) <-
        poll_login_screen (max_wait_for_login_screen / 10) 0 ;;
     if negb login_screen_ready then
       raise (VMAutomationError
                "Login screen did not appear - cannot proceed with verification")
     else
       field_detection <-
         (if llm_client cfg then
            fd <- llm_detect_login_fields ;;
            ret (fallback_fields fd)
          else ret (mkFields false true None "No LLM: password only" "")) ;;
       field_detection <- check_displayed_username field_detection username ;;
       _click_vnc_canvas ;;
       (if password_only (Some field_detection)
        then enter_password_only password
        else enter_username_and_password username password) ;;
       page W (Press "Enter") ;;
       '(screenshot_path, verification) <-
          _capture_screenshot "04_login_verify" (Some login_verify_state) ;;
       match login_decision verification with
       | LoginRejected error_msg => raise (VMAutomationError error_msg)
       | LoginVerified =>
           disable_screen_lock ;;
           _capture_screenshot "04_logged_in" None ;;
           ret true
       end)
    (fun e =>
       match e with
       | VMAutomationError _ => raise e
       | _ =>
           _capture_screenshot "04_login_failed" None ;;
           raise (VMAutomationError ("Login failed: " ++ exn_msg e))
       end).

(** [continue] while attempts are left, [return False] on the last one. *)
Definition retry_or_fail (attempt : nat) : ctl bool :=
  if Nat.ltb attempt (max_retries cfg) then Continue else Return false.

(** The body of the [for attempt] loop of [open_services_manager]. *)
Definition services_attempt (attempt : nat) : M (ctl bool) :=
  try_except
    (_click_vnc_canvas ;;
     page W (Press "Alt+F4") ;;
     _capture_screenshot ("05_closed_server_manager_attempt" ++ of_nat attempt) None ;;
     _log_action "Open Run dialog" "Pressing Win+R" ;;
     _click_vnc_canvas ;;
     page W (Press "Meta+R") ;;
     _capture_screenshot ("05_run_dialog_attempt" ++ of_nat attempt) None ;;
     _log_action "Launch services.msc" "Typing services.msc" ;;
     page W (TypeText "services.msc") ;;
     page W (Press "Enter") ;;
     '(screenshot_path, verification) <-
        _capture_screenshot ("06_services_manager_attempt" ++ of_nat attempt)
          (Some services_state) ;;
     match verification with
     | Some v =>
         if verified v then ret (Return true)
         else if Nat.ltb attempt (max_retries cfg) then
                page W (Press "Alt+F4") ;; ret Continue
              else ret (Return false)
     | None => ret (Return true)
     end)
    (fun _ =>
       _capture_screenshot ("06_services_failed_attempt" ++ of_nat attempt) None ;;
       ret (retry_or_fail attempt)).

Definition open_services_manager_attempts : M (bool * list nat) :=
  for_attempts (max_retries cfg) 1 services_attempt false.

Definition open_services_manager : M bool :=
  r <- open_services_manager_attempts ;; ret (fst r).

(** The dictionary [check_service_status] returns; [service_screenshot]
    is the pair [_capture_screenshot] returned. *)
Record ServiceCheck := mkServiceCheck {
  service_name : string;
  service_checked : bool;
  service_screenshot : string * option Verdict;
  service_timestamp : string
}.

Definition check_service_status (service_name : string) : M ServiceCheck :=
  _log_action ("Check service: " ++ service_name)
              ("Searching for service " ++ service_name) ;;
  screenshot_path <-
    _capture_screenshot
      ("07_service_" ++ map_str (fun c => if Ascii.eqb c " "%char then "_"%char else c)
                                service_name) None ;;
  timestamp <- now W ;;
  ret (mkServiceCheck service_name true screenshot_path timestamp).

(** The body of the [for attempt] loop of [open_server_manager]. *)
Definition server_manager_attempt (attempt : nat) : M (ctl bool) :=
  try_except
    (_log_action "Verify Server Manager" "Checking if Server Manager is visible on desktop" ;;
     _click_vnc_canvas ;;
     '(screenshot_path, verification) <-
        _capture_screenshot ("08_server_manager_visible_attempt" ++ of_nat attempt)
          (Some server_manager_state) ;;
     match verification with
     | Some v =>
         if verified v then ret (Return true)
         else ret (retry_or_fail attempt)
     | None => ret (Return true)
     end)
    (fun _ =>
       _capture_screenshot ("08_server_manager_check_failed_attempt" ++ of_nat attempt) None ;;
       ret (retry_or_fail attempt)).

Definition open_server_manager_attempts : M (bool * list nat) :=
  for_attempts (max_retries cfg) 1 server_manager_attempt false.

Definition open_server_manager : M bool :=
  r <- open_server_manager_attempts ;; ret (fst r).

(** The check of the run-dialog screenshot: [Some c] when the attempt
    ends there, [None] when it goes on. *)
Definition run_dialog_check (verification : option Verdict) (attempt : nat)
  : option (ctl bool) :=
  match verification with
  | Some v =>
      let description := upper (description v) in
      if screen_locked description then Some (Return false)
      else if negb (verified v) then Some (retry_or_fail attempt)
      else None
  | None => None
  end.

(** The body of the [for attempt] loop shared, word for word, by
    [run_powershell_command] and [run_powershell_interactive]; the two
    differ in the names of the output and failure screenshots. *)
Definition powershell_attempt (output_name failed_name command : string) (attempt : nat)
  : M (ctl bool) :=
  try_except
    (_log_action "Open Run dialog" "Pressing Win+R" ;;
     _click_vnc_canvas ;;
     page W (Press "Meta+R") ;;
     '(screenshot_path, verification) <-
        _capture_screenshot ("09_run_dialog_opened_attempt" ++ of_nat attempt)
          (Some run_dialog_state) ;;
     match run_dialog_check verification attempt with
     | Some c => ret c
     | None =>
         page W (TypeText "cmd.exe") ;;
         _capture_screenshot ("09_run_dialog_typed_cmd_attempt" ++ of_nat attempt) None ;;
         page W (Press "Enter") ;;
         _capture_screenshot ("09_cmd_window_opened_attempt" ++ of_nat attempt) None ;;
         _log_action "Launch PowerShell from cmd" "Typing powershell.exe in cmd" ;;
         page W (TypeText "powershell.exe") ;;
         page W (Press "Enter") ;;
         _capture_screenshot ("09_powershell_prompt_ready_attempt" ++ of_nat attempt)
           (Some prompt_ready_state) ;;
         _log_action ("Execute command: " ++ command) "Typing command in PowerShell" ;;
         type_chars_vnc command ;;
         page W (Press "Enter") ;;
         '(screenshot_path, verification) <-
            _capture_screenshot (output_name ++ of_nat attempt)
              (Some (output_state command)) ;;
         if command_has_error verification then
           if Nat.ltb attempt (max_retries cfg) then
             page W (Press "Alt+F4") ;; ret Continue
           else
             page W (Press "Alt+F4") ;; ret (Return false)
         else
           page W (Press "Alt+F4") ;; ret (Return true)
     end)
    (fun _ =>
       _capture_screenshot (failed_name ++ of_nat attempt) None ;;
       ret (retry_or_fail attempt)).

Definition run_powershell_command_attempts (command : string) : M (bool * list nat) :=
  for_attempts (max_retries cfg) 1
    (powershell_attempt "10_powershell_command_executed_attempt"
                        "10_command_failed_attempt" command) false.

Definition run_powershell_command (command : string) : M bool :=
  r <- run_powershell_command_attempts command ;; ret (fst r).

Definition run_powershell_interactive_attempts (command : string) : M (bool * list nat) :=
  for_attempts (max_retries cfg) 1
    (powershell_attempt "10_powershell_interactive_output_attempt"
                        "10_interactive_powershell_failed_attempt" command) false.

Definition run_powershell_interactive (command : string) : M bool :=
  r <- run_powershell_interactive_attempts command ;; ret (fst r).

(** An entry of the step list ([steps_completed], the result of
    [perform_custom_steps]). *)
Record StepResult := mkStep {
  step_number : nat;
  step_description : string;
  step_success : bool;
  step_timestamp : string;
  step_error : option string;
  step_screenshot : option string
}.

(** [f"{i:02d}"]. *)
Definition two_digits (i : nat) : string :=
  if Nat.ltb i 10 then "0" ++ of_nat i else of_nat i.

(** The clean-up of the generated command in [perform_custom_steps]. *)
Definition unfence (powershell_cmd : string) : M string :=
  c1 <- (if startswith "```" powershell_cmd then
           match item1 (split newline powershell_cmd) with
           | Some l => ret l
           | None => raise (OtherException "list index out of range")
           end
         else ret powershell_cmd) ;;
  ret (if endswith "```" c1 then rsplit1_head newline c1 else c1).

(** The body of the loop of [perform_custom_steps]; the prompt sent to the
    text model is a function of [step] and is not recorded. *)
Definition custom_step (results : list StepResult) (i : nat) (step : string)
  : M (list StepResult) :=
  _log_action ("Custom Step " ++ of_nat i) step ;;
  try_except
    (powershell_cmd <-
       (if llm_client cfg then
          reply <- llm_chat W ;;
          c <- unfence (strip reply) ;;
          ret (Some c)
        else ret None) ;;
     if truthy powershell_cmd then
       let cmd := match powershell_cmd with Some c => c | None => "" end in
       success <- run_powershell_interactive cmd ;;
       timestamp <- now W ;;
       ret (results ++ [mkStep (length results + 1)
                          ("Custom: " ++ step ++ " (executed: " ++ cmd ++ ")")
                          success timestamp None None])%list
     else
       _click_vnc_canvas ;;
       '(screenshot_path, verification) <-
          _capture_screenshot ("custom_step_" ++ two_digits i)
            (Some ("Desktop showing the result of: " ++ step)) ;;
       timestamp <- now W ;;
       ret (results ++ [mkStep (length results + 1)
                          ("Custom: " ++ step ++ " (no automation - screenshot only)")
                          true timestamp None (Some screenshot_path)])%list)
    (fun e =>
       timestamp <- now W ;;
       ret (results ++ [mkStep (length results + 1) ("Custom: " ++ step) false
                          timestamp (Some (exn_msg e)) None])%list).

Fixpoint custom_steps_from (results : list StepResult) (i : nat) (steps : list string)
  : M (list StepResult) :=
  match steps with
  | [] => ret results
  | step :: rest =>
      results' <- custom_step results i step ;;
      custom_steps_from results' (S i) rest
  end.

Definition perform_custom_steps (steps : list string) : M (list StepResult) :=
  custom_steps_from [] 1 steps.

(** [start] and [close], each one page call. *)
Definition start : M unit := page W Launch.
Definition close : M unit := page W Close.

End VMAutomation.

(* ================================================================== *)
(** ** main.py: class VerificationOrchestrator *)

(** The settings the orchestrator reads. *)
Record Settings := mkSettings {
  windows_username : string;
  windows_password : string;
  vm_boot_timeout : nat;
  vm_login_screen_timeout : nat;
  settings_screenshot_dir : string
}.

(** The dictionary [_perform_verification] returns; [None] is a missing
    key. *)
Record VerificationResults := mkResults {
  steps_completed : list StepResult;
  res_screenshots : list string;
  res_action_log : list LogEntry;
  res_login_failed : option bool;
  res_error : option string
}.

(** The dictionary [run_verification] returns; [None] is a missing key. *)
Record RunResult := mkRun {
  success : bool;
  login_failed : option bool;
  run_snapshot_id : option string;
  run_vm_id : option string;
  reports : option (string * string);
  results : option VerificationResults;
  error : option string
}.

(** The screenshot selection loops of [_perform_verification]: everything
    from the first path that satisfies [p]. *)
Fixpoint from_first (p : string -> bool) (all_screenshots : list string) : list string :=
  match all_screenshots with
  | [] => []
  | screenshot :: rest =>
      if p screenshot then screenshot :: rest else from_first p rest
  end.

Definition login_related (screenshot : string) : bool :=
  contains "03_login" screenshot || contains "04_login" screenshot
  || contains "04_logged" screenshot.

Definition logged_in_related (screenshot : string) : bool :=
  contains "04_logged_in" screenshot || contains "04_login" screenshot.

Section Orchestrator.
Variable W : World.
Variable settings : Settings.

(** The [VMAutomation] the orchestrator builds: the model client is always
    passed, [max_retries] keeps its default. *)
Definition vm_config : Config :=
  mkConfig (settings_screenshot_dir settings) true default_max_retries.

(** [with VMAutomation(...) as vm_auto: body]. *)
Definition with_vm_automation {A} (body : M A) : M A :=
  new_vm_automation ;;
  start W ;;
  try_finally body (close W).

(** The loop over [ps_commands]. *)
Fixpoint run_ps_commands (steps : list StepResult) (i : nat) (ps_commands : list string)
  : M (list StepResult) :=
  match ps_commands with
  | [] => ret steps
  | ps_cmd :: rest =>
      ps_success <- run_powershell_interactive W vm_config ps_cmd ;;
      timestamp <- now W ;;
      run_ps_commands
        (steps ++ [mkStep (length steps + 1)
                     ("Execute PowerShell command " ++ of_nat i ++ ": " ++ ps_cmd)
                     ps_success timestamp None None])%list
        (S i) rest
  end.

(** The body of the [with] block of [_perform_verification]; the optional
    lists are lists here, [None] and the empty list being treated alike by
    the code. *)
Definition verification_steps (novnc_url : string)
    (custom_steps ps_commands : list string) : M VerificationResults :=
    (connect_to_vm W vm_config novnc_url ;;
     t1 <- now W ;;
     let steps := [mkStep 1 "Connected to VM via noVNC" true t1 None None] in
     wait_for_windows_desktop W vm_config ;;
     t2 <- now W ;;
     let steps := (steps ++ [mkStep 2 "Windows desktop loaded" true t2 None None])%list in
     login_error <-
       try_except
         (login_windows W vm_config (windows_username settings)
            (windows_password settings) (vm_login_screen_timeout settings) ;;
          ret None)
         (fun e => match e with
                   | VMAutomationError _ => ret (Some e)
                   | _ => raise e
                   end) ;;
     t3 <- now W ;;
     match login_error with
     | Some e =>
         let steps :=
           (steps ++ [mkStep 3 ("Login as " ++ windows_username settings ++ " FAILED")
                        false t3 None None])%list in
         all_screenshots <- get_screenshots ;;
         let screenshots := from_first login_related all_screenshots in
         action_log <- get_action_log ;;
         ret (mkResults steps
                (match screenshots with [] => all_screenshots | _ => screenshots end)
                action_log (Some true) (Some (exn_msg e)))
     | None =>
         let steps :=
           (steps ++ [mkStep 3 ("Login as " ++ windows_username settings
                                ++ " (verified by AI)")
                        true t3 None None])%list in
         steps <- run_ps_commands steps 1 ps_commands ;;
         steps <-
           (match custom_steps with
            | [] => ret steps
            | _ =>
                custom_results <- perform_custom_steps W vm_config custom_steps ;;
                ret (steps ++ custom_results)%list
            end) ;;
         all_screenshots <- get_screenshots ;;
         let screenshots := from_first logged_in_related all_screenshots in
         action_log <- get_action_log ;;
         ret (mkResults steps screenshots action_log None None)
     end).

Definition _perform_verification (novnc_url : string)
    (custom_steps ps_commands : list string) : M VerificationResults :=
  with_vm_automation (verification_steps novnc_url custom_steps ps_commands).

Definition _get_latest_snapshot (agent : option string) : M Snapshot :=
  snapshot <- api (GetLatestSnapshot agent) (latest_snapshot W) ;;
  match snapshot with
  | Some sn => ret sn
  | None => raise (ValueError "No snapshots available")
  end.

Definition _get_device_id_from_snapshot (snapshot_info : Snapshot) : M (option string) :=
  match locations snapshot_info with
  | [] => raise (ValueError "Snapshot has no locations/devices")
  | first :: _ =>
      match find (fun loc => String.eqb (loc_type loc) "cloud") (locations snapshot_info) with
      | Some loc => ret (loc_device_id loc)
      | None => ret (loc_device_id first)
      end
  end.

Definition _create_and_start_vm (snapshot_info : Snapshot) : M string :=
  device_id <- _get_device_id_from_snapshot snapshot_info ;;
  name_timestamp <- now W ;;
  virt_id <- api (CreateVM (snapshot_id snapshot_info) device_id "network-none")
                 (created_vm W) ;;
  set_vm_id virt_id ;;
  ready <- api (WaitForVMReady virt_id (vm_boot_timeout settings)) (vm_ready W) ;;
  if negb ready then
    raise (VMAutomationError "VM failed to become ready within timeout period")
  else api (GetVMDetails virt_id) (vm_details W).

Definition _get_novnc_url : M string :=
  vm <- get_vm_id ;;
  novnc_url <- api (GetVNCUrl vm) (vnc_url W) ;;
  if negb (nonempty novnc_url) then raise (VMAutomationError "Failed to get noVNC URL")
  else ret novnc_url.

Definition _generate_report (verification_results : VerificationResults)
  : M (string * string) :=
  llm_summary <- try_except (llm_chat W) (fun _ => ret "Test summary not available") ;;
  external OtherException
    (GenerateReport (length (res_action_log verification_results))
                    (length (res_screenshots verification_results))
                    (length (steps_completed verification_results)))
    (report_paths W).

Definition _cleanup_vm : M unit :=
  vm <- get_vm_id ;;
  match vm with
  | Some id =>
      if nonempty id then
        try_except (api (DestroyVM id) (destroyed W) ;; ret tt) (fun _ => ret tt)
      else ret tt
  | None => ret tt
  end.

Definition run_verification (agent : option string)
    (custom_steps ps_commands : list string) : M RunResult :=
  start_time <- now W ;;
  try_finally
    (try_except
       (snapshot_info <- _get_latest_snapshot agent ;;
        agent_info <-
          (if truthy (agent_id snapshot_info) then
             try_except
               (a <- api (GetAgentDetails
                            (match agent_id snapshot_info with Some a => a | None => "" end))
                         (agent_details W) ;;
                ret (Some a))
               (fun _ => ret None)
           else ret None) ;;
        vm_info <- _create_and_start_vm snapshot_info ;;
        novnc_url <- _get_novnc_url ;;
        verification_results <- _perform_verification novnc_url custom_steps ps_commands ;;
        end_time <- now W ;;
        report <- _generate_report verification_results ;;
        vm <- get_vm_id ;;
        match res_login_failed verification_results with
        | Some true =>
            ret (mkRun false (Some true) (Some (snapshot_id snapshot_info)) vm
                   (Some report) (Some verification_results)
                   (Some (match res_error verification_results with
                          | Some m => m
                          | None => "Login failed"
                          end)))
        | _ =>
            ret (mkRun true None (Some (snapshot_id snapshot_info)) vm
                   (Some report) (Some verification_results) None)
        end)
       (fun e => ret (mkRun false None None None None None (Some (exn_msg e)))))
    _cleanup_vm.

End Orchestrator.

(* ================================================================== *)
(** ** main.py: the run over all agents *)

Section AllAgentsRun.
(** The outside world during the k-th run of the loop: every run makes
    its own calls on the provider, the page and the models. *)
Variable during : nat -> World.
Variable settings : Settings.

(** The loop of [run_verification_for_all_agents] over the items of the
    dictionary; [k] counts the runs.  The snapshot of an item is stored
    and then replaced by the one [run_verification] looks up itself; each
    result is paired with the [agent_id] the loop adds to it. *)
Fixpoint verify_agents (results : list (string * RunResult)) (k : nat)
    (snapshots_by_agent : list (string * Snapshot)) (custom_steps : list string)
  : M (list (string * RunResult)) :=
  match snapshots_by_agent with
  | [] => ret results
  | (agent_id, snapshot) :: rest =>
      result <- run_verification (during k) settings (Some agent_id) custom_steps [] ;;
      verify_agents (results ++ [(agent_id, result)])%list (S k) rest custom_steps
  end.

(** [run_verification_for_all_agents], as a function of what the call of
    [get_latest_snapshots_by_agent] on its first line did: the dictionary
    it returned, given as the list of its items, or the exception it
    raised, which nothing catches. *)
Definition run_verification_for_all_agents
    (fetched : result (list (string * Snapshot))) (custom_steps : list string)
  : M (list (string * RunResult)) :=
  match fetched with
  | Raise e => raise e
  | Ok [] => ret []
  | Ok snapshots_by_agent => verify_agents [] 0 snapshots_by_agent custom_steps
  end.

End AllAgentsRun.

(* ================================================================== *)
(** ** llm_client.py: the step and decision parsers *)

(** [s.split(sep, 1)[1]] for a separator of any length: the text after
    the first occurrence of [sep]; [None] is the [IndexError]. *)
Fixpoint after_first (sep s : string) : option string :=
  if prefix sep s then Some (substring (String.length sep) (String.length s) s)
  else match s with
       | EmptyString => None
       | String _ t => after_first sep t
       end.

(** [s.lstrip(chars)]. *)
Fixpoint lstrip_chars (set : list ascii) (s : string) : string :=
  match s with
  | EmptyString => EmptyString
  | String c t => if existsb (Ascii.eqb c) set then lstrip_chars set t else s
  end.

(** [c.isdigit()] (ASCII). *)
Definition is_digit (c : ascii) : bool :=
  let n := nat_of_ascii c in Nat.leb 48 n && Nat.leb n 57.

(** The characters [_parse_steps] strips from the left of a list item. *)
Definition numbering : list ascii :=
  chars "0123456789.-*) " ++ [ascii_of_nat 9].

(** One pass of the loop of [_parse_steps]. *)
Definition parse_step (steps : list string) (line : string) : list string :=
  let line := strip line in
  if nonempty line
     && (match line with String c _ => is_digit c | EmptyString => false end
         || startswith "-" line || startswith "*" line)
  then
    let step := lstrip_chars numbering line in
    if nonempty step then (steps ++ [step])%list else steps
  else steps.

Definition _parse_steps (response : string) : list string :=
  fold_left parse_step (split newline (strip response)) [].

(** The dictionary [_parse_decision] returns. *)
Record Decision := mkDecision {
  decision_success : bool;
  decision_reason : string;
  decision_action : string
}.

(** One pass of the loop of [_parse_decision]; [None] is an
    [IndexError]. *)
Definition decision_line (d : Decision) (line : string) : option Decision :=
  if contains "SUCCESS:" line then
    Some (mkDecision (contains "YES" line) (decision_reason d) (decision_action d))
  else if contains "REASON:" line then
    match after_first "REASON:" line with
    | None => None
    | Some t => Some (mkDecision (decision_success d) (strip t) (decision_action d))
    end
  else if contains "NEXT_ACTION:" line || contains "NEXT ACTION:" line then
    match split1_tail colon line with
    | None => None
    | Some t =>
        let action := lower (strip t) in
        if String.eqb action "continue" || String.eqb action "retry"
           || String.eqb action "abort"
        then Some (mkDecision (decision_success d) (decision_reason d) action)
        else Some d
    end
  else Some d.

Fixpoint decision_lines (d : Decision) (lines : list string) : option Decision :=
  match lines with
  | [] => Some d
  | line :: rest =>
      match decision_line d line with
      | None => None
      | Some d' => decision_lines d' rest
      end
  end.

Definition _parse_decision (response : string) : option Decision :=
  decision_lines (mkDecision false "" "continue") (split newline (upper response)).

(* ================================================================== *)
(** ** slide_client.py: the address of the remote display *)

(** An entry of the [vnc] list of the machine details, and the two keys
    [get_vnc_url] reads; a missing [vnc] key is the empty list, a missing
    [vnc_password] the empty string. *)
Record VncEntry := mkVnc {
  vnc_type : string;
  websocket_uri : option string
}.

Record VMDetails := mkDetails {
  vnc : list VncEntry;
  vnc_password : string
}.

Definition viewer : string := "https://slide.recipes/mcpTools/vncViewer.php?".

Section SlideClientModel.
(** [urllib.parse.quote(_, safe='')]. *)
Variable quote : string -> string.

(** [SlideClient.get_vnc_url], as a function of what [get_vm_details]
    answered. *)
Definition get_vnc_url (virt_id : string) (vm_details : reply VMDetails) : result string :=
  match vm_details with
  | Failure msg => Raise (SlideAPIError msg)
  | Answer details =>
      match vnc details with
      | [] => Raise (SlideAPIError ("No VNC data available for VM " ++ virt_id))
      | _ =>
          let uri :=
            match find (fun e => String.eqb (vnc_type e) "cloud") (vnc details) with
            | Some vnc_entry => websocket_uri vnc_entry
            | None => None
            end in
          match uri with
          | Some ws =>
              if nonempty ws then
                Ok (viewer ++ "id=" ++ virt_id ++ "&" ++ "ws=" ++ quote ws ++ "&"
                    ++ "password=" ++ vnc_password details ++ "=")
              else Raise (SlideAPIError ("No websocket URI found for VM " ++ virt_id))
          | None => Raise (SlideAPIError ("No websocket URI found for VM " ++ virt_id))
          end
      end
  end.

(** What the orchestrator is answered when this client is the provider. *)
Definition client_answer (r : result string) : reply string :=
  match r with
  | Ok url => Answer url
  | Raise e => Failure (exn_msg e)
  end.

End SlideClientModel.

(* ================================================================== *)
(** * Properties *)

Unset Implicit Arguments.

(** ** Strings *)

Section StringFacts.

Lemma contains_unfold (p h : string) :
  contains p h =
  if prefix p h then true
  else match h with
       | EmptyString => false
       | String _ t => contains p t
       end.
Proof. destruct h; reflexivity. Qed.

Lemma prefix_app (p s : string) : prefix p (p ++ s) = true.
Proof.
  induction p as [|a p IH]; simpl.
  - destruct s; reflexivity.
  - destruct (ascii_dec a a) as [_|n]; [exact IH | now elim n].
Qed.

Lemma contains_here (p s : string) : contains p (p ++ s) = true.
Proof. rewrite contains_unfold, prefix_app. reflexivity. Qed.

Lemma contains_app (p a b : string) : contains p (a ++ p ++ b) = true.
Proof.
  induction a as [|c a IH].
  - cbn [append]. apply contains_here.
  - change (String c a ++ p ++ b) with (String c (a ++ p ++ b)).
    rewrite contains_unfold.
    destruct (prefix p (String c (a ++ p ++ b))); [reflexivity | exact IH].
Qed.

Lemma map_str_app (f : ascii -> ascii) (a b : string) :
  map_str f (a ++ b) = map_str f a ++ map_str f b.
Proof. induction a as [|c a IH]; simpl; [reflexivity | now rewrite IH]. Qed.

Lemma upper_app (a b : string) : upper (a ++ b) = upper a ++ upper b.
Proof. apply map_str_app. Qed.

Lemma prefix_split1 (c : ascii) (p line : string) :
  split1_tail c p <> None -> prefix p line = true -> split1_tail c line <> None.
Proof.
  revert line. induction p as [|a p IH]; intros line Hp Hpre.
  - now elim Hp.
  - destruct line as [|b line]; simpl in Hpre; [discriminate|].
    destruct (ascii_dec a b) as [->|]; [|discriminate].
    simpl in *. destruct (Ascii.eqb b c); [discriminate|].
    now apply IH.
Qed.

Lemma contains_split1 (c : ascii) (p line : string) :
  split1_tail c p <> None -> contains p line = true -> split1_tail c line <> None.
Proof.
  intros Hp. induction line as [|b line IH]; rewrite contains_unfold.
  - destruct (prefix p "") eqn:E; [|discriminate].
    intros _. eapply prefix_split1; eassumption.
  - destruct (prefix p (String b line)) eqn:E.
    + intros _. eapply prefix_split1; eassumption.
    + intros H. simpl. destruct (Ascii.eqb b c); [discriminate | now apply IH].
Qed.

End StringFacts.

(** ** The parsers of llm_client.py *)

(** No line of the reply carries the label (the parser looks at the
    upper-cased lines). *)
Definition omits (label reply : string) : bool :=
  forallb (fun line => negb (contains label line)) (split newline (upper reply)).

(** No line of the reply carries any label [detect_login_fields] knows. *)
Definition unlabelled (reply : string) : bool :=
  forallb
    (fun line =>
       negb (any_in ["USERNAME_FIELD:"; "USERNAME FIELD:"; "PASSWORD_FIELD:";
                     "PASSWORD FIELD:"; "DISPLAYED_USERNAME:"; "DISPLAYED USERNAME:";
                     "DESCRIPTION:"] (upper line)))
    (split newline reply).

Section ParserFacts.

Lemma verify_line_total (r : Verdict) (line : string) :
  exists r', verify_line r line = Some r'.
Proof.
  unfold verify_line.
  destruct (contains "VERIFIED:" line); [eauto|].
  destruct (contains "CONFIDENCE:" line) eqn:Ec.
  - destruct (split1_tail colon line) eqn:Es.
    + destruct (_ || _); eauto.
    + exfalso. revert Es. apply contains_split1 with (p := "CONFIDENCE:"); [discriminate | exact Ec].
  - destruct (contains "DESCRIPTION:" line) eqn:Ed; [|eauto].
    destruct (split1_tail colon line) eqn:Es; [eauto|].
    exfalso. revert Es. apply contains_split1 with (p := "DESCRIPTION:"); [discriminate | exact Ed].
Qed.

Lemma verify_lines_total (lines : list string) (r : Verdict) :
  exists r', verify_lines r lines = Some r'.
Proof.
  revert r. induction lines as [|l lines IH]; intros r; simpl; [eauto|].
  destruct (verify_line_total r l) as [r' ->]. apply IH.
Qed.

(** What a line leaves alone when it does not carry a label. *)
Lemma verify_line_keeps (r r' : Verdict) (line : string) :
  verify_line r line = Some r' ->
  raw_response r' = raw_response r
  /\ (contains "VERIFIED:" line = false -> verified r' = verified r)
  /\ (contains "CONFIDENCE:" line = false -> confidence r' = confidence r)
  /\ (contains "DESCRIPTION:" line = false -> description r' = description r).
Proof.
  unfold verify_line.
  destruct (contains "VERIFIED:" line).
  { intros [= <-]; simpl; repeat split; auto; discriminate. }
  destruct (contains "CONFIDENCE:" line).
  { destruct (split1_tail colon line); [|discriminate].
    destruct (_ || _); intros [= <-]; simpl; repeat split; auto; discriminate. }
  destruct (contains "DESCRIPTION:" line).
  { destruct (split1_tail colon line); [|discriminate].
    intros [= <-]; simpl; repeat split; auto; discriminate. }
  intros [= <-]; repeat split; auto.
Qed.

Lemma verify_lines_keeps (lines : list string) (r r' : Verdict) :
  verify_lines r lines = Some r' ->
  (forallb (fun l => negb (contains "VERIFIED:" l)) lines = true ->
   verified r' = verified r)
  /\ (forallb (fun l => negb (contains "CONFIDENCE:" l)) lines = true ->
      confidence r' = confidence r)
  /\ (forallb (fun l => negb (contains "DESCRIPTION:" l)) lines = true ->
      description r' = description r).
Proof.
  revert r. induction lines as [|l lines IH]; intros r; simpl.
  - intros [= <-]. auto.
  - destruct (verify_line r l) as [r1|] eqn:E; [|discriminate].
    intros H. destruct (IH _ H) as (Hv & Hc & Hd).
    destruct (verify_line_keeps _ _ _ E) as (_ & Kv & Kc & Kd).
    repeat split; intros F; apply andb_prop in F as [F1 F2];
      apply negb_true_iff in F1.
    + rewrite (Hv F2). auto.
    + rewrite (Hc F2). auto.
    + rewrite (Hd F2). auto.
Qed.

Lemma detect_line_unlabelled (r : FieldDetection) (line : string) :
  any_in ["USERNAME_FIELD:"; "USERNAME FIELD:"; "PASSWORD_FIELD:";
          "PASSWORD FIELD:"; "DISPLAYED_USERNAME:"; "DISPLAYED USERNAME:";
          "DESCRIPTION:"] (upper line) = false ->
  detect_line r line = r.
Proof.
  unfold any_in, detect_line. cbn [existsb].
  intros H. repeat (apply orb_false_iff in H as [? H]).
  repeat match goal with E : contains _ _ = false |- _ => rewrite E; clear E end.
  reflexivity.
Qed.

Lemma detect_lines_unlabelled (lines : list string) (r : FieldDetection) :
  forallb
    (fun line =>
       negb (any_in ["USERNAME_FIELD:"; "USERNAME FIELD:"; "PASSWORD_FIELD:";
                     "PASSWORD FIELD:"; "DISPLAYED_USERNAME:"; "DISPLAYED USERNAME:";
                     "DESCRIPTION:"] (upper line))) lines = true ->
  fold_left detect_line lines r = r.
Proof.
  revert r. induction lines as [|l lines IH]; intros r; simpl; [reflexivity|].
  intros H. apply andb_prop in H as [H1 H2]. apply negb_true_iff in H1.
  rewrite (detect_line_unlabelled r l H1). now apply IH.
Qed.

End ParserFacts.

(** ** Decisions on an oracle answer *)

(** The rule set of the login verdict in the order the specification
    gives it: a list of conditions with their outcome, the first
    condition that holds decides, and failure when none holds. *)
Definition benign_phrase (d : string) : bool :=
  contains "SHUTDOWN EVENT TRACKER" d || contains "SHUTDOWN" d
  || (contains "DESKTOP" d && contains "TASKBAR" d).

Definition failure_phrase (d : string) : bool :=
  contains "STILL ON LOGIN" d || contains "SHOWING LOGIN" d || contains "AT LOGIN SCREEN" d
  || contains "INCORRECT PASSWORD" d || contains "PASSWORD INCORRECT" d
  || contains "WRONG PASSWORD" d
  || (contains "LOCKED" d && contains "SCREEN" d).

Definition login_rules : list ((Verdict -> bool) * bool) :=
  [ (verified, true);
    ((fun v => benign_phrase (upper (description v))), true);
    ((fun v => failure_phrase (upper (description v))), false);
    ((fun v => String.eqb (confidence v) "low" || negb (nonempty (upper (description v)))),
     true) ].

Fixpoint first_rule (rules : list ((Verdict -> bool) * bool)) (v : Verdict) : bool :=
  match rules with
  | [] => false
  | (applies, outcome) :: rest => if applies v then outcome else first_rule rest v
  end.

Definition login_succeeds (d : LoginDecision) : bool :=
  match d with
  | LoginVerified => true
  | LoginRejected _ => false
  end.

(** The negation phrases as the specification lists them. *)
Definition listed_negations : list string :=
  ["no error"; "no errors"; "without error"; "no red"; "without red"].

Lemma str_app_assoc (a b c : string) : (a ++ b) ++ c = a ++ (b ++ c).
Proof. induction a as [|x a IH]; simpl; [reflexivity | now rewrite IH]. Qed.

Lemma negation_suppresses (v : Verdict) :
  any_in negation_phrases (upper (description v)) = true ->
  command_has_error (Some v) = false.
Proof. unfold command_has_error. intros ->. reflexivity. Qed.

Lemma listed_negation_found (phrase d : string) :
  In phrase listed_negations -> contains (upper phrase) d = true ->
  any_in negation_phrases d = true.
Proof.
  intros Hin Hc. unfold any_in. apply existsb_exists.
  exists (upper phrase). split; [|exact Hc].
  cbn in Hin.
  repeat (destruct Hin as [<-|Hin]; [cbn; auto 10|]).
  contradiction.
Qed.

Lemma fallback_without_fields (fd : FieldDetection) :
  has_username fd = false -> has_password fd = false ->
  fallback_fields fd = mkFields false true None "Fallback: password only" "".
Proof.
  intros Hu Hp. unfold fallback_fields. rewrite Hu, Hp.
  now rewrite orb_true_r.
Qed.

Lemma cached_user_branch (W : World) (cfg : Config) (fd : FieldDetection)
    (displayed username : string) (s : State) :
  displayed_username fd = Some displayed ->
  nonempty displayed = true ->
  username_matches displayed username = true ->
  check_displayed_username W cfg fd username s = (Ok (cached_user_fields displayed), s).
Proof.
  intros Hd Hn Hm. unfold check_displayed_username. rewrite Hd, Hn, Hm. reflexivity.
Qed.

(** C2.  After the submit, the login verdict on an oracle answer is the one
    the priority list gives: verified; else a benign phrase (the Shutdown
    Event Tracker dialog, or desktop with taskbar); else a failure phrase
    (still on the login screen, incorrect password, locked screen), which
    fails; else low confidence or an empty description, which succeeds;
    else failure. *)
Theorem login_decision_priority (v : Verdict) :
  login_succeeds (login_decision (Some v)) = first_rule login_rules v.
Proof.
  unfold login_decision, login_rules, first_rule, benign_phrase, failure_phrase.
  destruct (verified v); [reflexivity|].
  set (d := upper (description v)).
  destruct (contains "SHUTDOWN EVENT TRACKER" d); [reflexivity|].
  destruct (contains "SHUTDOWN" d); [reflexivity|].
  destruct (contains "DESKTOP" d), (contains "TASKBAR" d); try reflexivity;
    cbn [orb andb];
    (destruct (contains "STILL ON LOGIN" d); [reflexivity|];
     destruct (contains "SHOWING LOGIN" d); [reflexivity|];
     destruct (contains "AT LOGIN SCREEN" d); [reflexivity|];
     destruct (contains "INCORRECT PASSWORD" d); [reflexivity|];
     destruct (contains "PASSWORD INCORRECT" d); [reflexivity|];
     destruct (contains "WRONG PASSWORD" d); [reflexivity|];
     destruct (contains "LOCKED" d), (contains "SCREEN" d); try reflexivity;
       cbn [orb andb];
       destruct (String.eqb (confidence v) "low" || negb (nonempty d)); reflexivity).
Qed.

(** C6.  A negation phrase of the list, found in the description in any
    letter case, makes [command_has_error] false whatever else the
    description holds; so does the text "no errors detected". *)
Theorem negation_checked_first (v : Verdict) :
  (forall phrase, In phrase listed_negations ->
     contains (upper phrase) (upper (description v)) = true ->
     command_has_error (Some v) = false)
  /\ (forall pre post, description v = pre ++ "no errors detected" ++ post ->
        command_has_error (Some v) = false).
Proof.
  split.
  - intros phrase Hin Hc. apply negation_suppresses.
    eapply listed_negation_found; eassumption.
  - intros pre post E. apply negation_suppresses.
    apply (listed_negation_found "no errors"); [cbn; auto|].
    rewrite E, !upper_app.
    change (upper "no errors detected") with (upper "no errors" ++ upper " detected").
    rewrite str_app_assoc. apply contains_app.
Qed.

(** C8.  With the displayed username CORP\Administrator (written with one
    backslash or with two) and the target username administrator, the
    names match after the domain prefix is stripped, no user switch is
    attempted (the state is left as it was) and the detection is replaced
    by password-only entry. *)
Theorem cached_user_password_only (W : World) (cfg : Config) (fd : FieldDetection)
    (displayed : string) (s : State) :
  displayed = "CORP\Administrator" \/ displayed = "CORP\\Administrator" ->
  displayed_username fd = Some displayed ->
  username_matches displayed "administrator" = true
  /\ (exists fd',
        check_displayed_username W cfg fd "administrator" s = (Ok fd', s)
        /\ has_username fd' = false /\ has_password fd' = true
        /\ password_only (Some fd') = true).
Proof.
  intros Hd Hfd.
  assert (Hm : username_matches displayed "administrator" = true)
    by (destruct Hd as [-> | ->]; reflexivity).
  assert (Hn : nonempty displayed = true)
    by (destruct Hd as [-> | ->]; reflexivity).
  split; [exact Hm|].
  exists (cached_user_fields displayed).
  rewrite (cached_user_branch W cfg fd displayed "administrator" s Hfd Hn Hm).
  repeat split.
Qed.

Lemma cached_user_password_only_witness :
  let fd := detect_login_fields
              (Some ("USERNAME_FIELD: no" ++ String newline
                       ("PASSWORD_FIELD: no" ++ String newline
                          "DISPLAYED_USERNAME: CORP\Administrator"))) in
  displayed_username fd = Some "CORP\Administrator"
  /\ exists fd',
       check_displayed_username
         (mkWorld (fun _ => None) (fun _ => None) (fun _ => Failure "")
            (fun _ => "") (Failure "") (Failure "") (Failure "") (Failure "")
            (Failure "") (Failure "") (Failure "") (Failure ""))
         (mkConfig "screenshots" true 2) fd "administrator" initial_state
       = (Ok fd', initial_state)
       /\ has_username fd' = false /\ has_password fd' = true
       /\ password_only (Some fd') = true.
Proof.
  split; [reflexivity|].
  refine (proj2 (cached_user_password_only _ _ _ "CORP\Administrator" _ _ _));
    [left; reflexivity | reflexivity].
Defined.

(** C5, the claim as stated fails: a reply that omits the confidence and
    the description lines is reported verified, and a reply that
    [detect_login_fields] cannot parse comes back without a password
    field. *)
Lemma parser_defaults_counterexample :
  ~ (forall reply,
       omits "VERIFIED:" reply || omits "CONFIDENCE:" reply
       || omits "DESCRIPTION:" reply = true ->
       verified (verify_ui_state (Some reply)) = false)
  /\ ~ (forall reply,
          unlabelled reply = true ->
          has_password (detect_login_fields (Some reply)) = true).
Proof.
  split; intros H.
  - specialize (H "VERIFIED: yes" eq_refl). discriminate H.
  - specialize (H "" eq_refl). discriminate H.
Qed.

(** C5, amended.  [verify_ui_state] gives each omitted field its own
    default: not verified without a VERIFIED line, confidence low without
    a CONFIDENCE line, the raw reply as description without a DESCRIPTION
    line.  [detect_login_fields] answers a reply without any label with
    neither field and the first 200 characters of the reply as
    description; the fall-back of [login_windows] turns that answer into
    password-only entry. *)
Theorem parser_defaults (reply : string) :
  (omits "VERIFIED:" reply = true ->
   verified (verify_ui_state (Some reply)) = false)
  /\ (omits "CONFIDENCE:" reply = true ->
      confidence (verify_ui_state (Some reply)) = "low")
  /\ (omits "DESCRIPTION:" reply = true ->
      description (verify_ui_state (Some reply)) = reply)
  /\ (unlabelled reply = true ->
      detect_login_fields (Some reply)
      = mkFields false false None (take 200 reply) reply
      /\ has_username (fallback_fields (detect_login_fields (Some reply))) = false
      /\ has_password (fallback_fields (detect_login_fields (Some reply))) = true).
Proof.
  unfold verify_ui_state, omits.
  destruct (verify_lines_total (split newline (upper reply))
              (mkVerdict false "low" reply reply)) as [r Hr].
  rewrite Hr.
  destruct (verify_lines_keeps _ _ _ Hr) as (Hv & Hc & Hd).
  repeat split; auto;
    assert (E : detect_login_fields (Some reply)
                = mkFields false false None (take 200 reply) reply)
      by (unfold detect_login_fields; unfold unlabelled in H;
          rewrite (detect_lines_unlabelled _ _ H); reflexivity);
    rewrite E; [reflexivity | |]; rewrite fallback_without_fields by reflexivity; reflexivity.
Qed.

Lemma parser_defaults_witness :
  verified (verify_ui_state (Some "CONFIDENCE: high")) = false
  /\ confidence (verify_ui_state (Some "VERIFIED: yes")) = "low"
  /\ description (verify_ui_state (Some "VERIFIED: yes")) = "VERIFIED: yes"
  /\ detect_login_fields (Some "no idea")
     = mkFields false false None (take 200 "no idea") "no idea"
  /\ has_password (fallback_fields (detect_login_fields (Some "no idea"))) = true.
Proof.
  split; [exact (proj1 (parser_defaults "CONFIDENCE: high") eq_refl)|].
  split; [exact (proj1 (proj2 (parser_defaults "VERIFIED: yes")) eq_refl)|].
  split; [exact (proj1 (proj2 (proj2 (parser_defaults "VERIFIED: yes"))) eq_refl)|].
  pose proof (proj2 (proj2 (proj2 (parser_defaults "no idea"))) eq_refl) as H.
  split; [exact (proj1 H) | exact (proj2 (proj2 H))].
Defined.

Lemma negation_checked_first_witness :
  let v := mkVerdict false "high" "I looked for red text: no errors detected" "" in
  any_in error_indicators (upper (description v)) = true
  /\ command_has_error (Some v) = false
  /\ command_has_error (Some v) = false.
Proof.
  intros v. split; [reflexivity|]. split.
  - apply (proj1 (negation_checked_first v) "no error"); [cbn; auto | reflexivity].
  - apply (proj2 (negation_checked_first v) "I looked for red text: " ""). reflexivity.
Defined.

(** ** Runs without page faults *)

(** No call on the page raises. *)
Definition no_page_faults (W : World) : Prop := forall n, page_fault W n = None.

(** [runs m s a s']: from [s], [m] returns [a] and leaves [s']. *)
Definition runs {A} (m : M A) (s : State) (a : A) (s' : State) : Prop :=
  m s = (Ok a, s').

(** [failed m s e s']: from [s], [m] raises [e] and leaves [s']. *)
Definition failed {A} (m : M A) (s : State) (e : exn) (s' : State) : Prop :=
  m s = (Raise e, s').

(** The keystrokes [_type_char_vnc] sends for one character, and
    [type_chars_vnc] for a text. *)
Definition char_keys (char : ascii) : list PageCall :=
  if is_upper_ascii char then
    [KeyDown "Shift"; TypeText (String (lower_char char) ""); KeyUp "Shift"]
  else match shift_lookup char shift_chars with
       | Some base_key => [KeyDown "Shift"; TypeText base_key; KeyUp "Shift"]
       | None => [TypeText (String char "")]
       end.

Definition text_keys (text : string) : list PageCall :=
  flat_map char_keys (chars text).

(** The state after page calls that all went through. *)
Definition paged (calls : list PageCall) (s : State) : State :=
  mkState (screenshots s) (action_log s) (verification_results s)
    (page_calls s ++ calls)%list (length calls + page_count s) (vision_count s)
    (chat_count s) (clock_count s) (vm_id s) (api_calls s).

(** The path [_capture_screenshot] builds. *)
Definition shot_path (cfg : Config) (timestamp name : string) : string :=
  screenshot_dir cfg ++ "/" ++ timestamp ++ "_" ++ name ++ ".png".

(** The state after [_log_action]. *)
Definition logged (W : World) (action details : string) (s : State) : State :=
  mkState (screenshots s)
    (action_log s ++ [mkLog (clock W (clock_count s)) action details])%list
    (verification_results s) (page_calls s) (page_count s) (vision_count s)
    (chat_count s) (S (clock_count s)) (vm_id s) (api_calls s).

(** The state after a capture without and with a verification. *)
Definition captured (W : World) (cfg : Config) (name : string) (s : State) : State :=
  let p := shot_path cfg (clock W (clock_count s)) name in
  mkState (screenshots s ++ [p])%list (action_log s) (verification_results s)
    (page_calls s ++ [Screenshot p])%list (S (page_count s)) (vision_count s)
    (chat_count s) (S (clock_count s)) (vm_id s) (api_calls s).

Definition captured_verified (W : World) (cfg : Config) (name expected : string)
    (s : State) : State :=
  let p := shot_path cfg (clock W (clock_count s)) name in
  mkState (screenshots s ++ [p])%list (action_log s)
    (verification_results s
     ++ [mkVR p expected (verify_ui_state (vision W (vision_count s)))])%list
    (page_calls s ++ [Screenshot p])%list (S (page_count s)) (S (vision_count s))
    (chat_count s) (S (clock_count s)) (vm_id s) (api_calls s).

Section Runs.
Variable W : World.
Variable cfg : Config.
Hypothesis Hnf : no_page_faults W.

Lemma runs_ret {A} (a : A) (s : State) : runs (ret a) s a s.
Proof. reflexivity. Qed.

Lemma runs_bind {A B} (m : M A) (f : A -> M B) s a s1 b s2 :
  runs m s a s1 -> runs (f a) s1 b s2 -> runs (bind m f) s b s2.
Proof. unfold runs, bind. intros -> H. exact H. Qed.

Lemma failed_bind {A B} (m : M A) (f : A -> M B) s e s1 :
  failed m s e s1 -> failed (bind m f) s e s1.
Proof. unfold failed, bind. intros ->. reflexivity. Qed.

Lemma failed_after {A B} (m : M A) (f : A -> M B) s a s1 e s2 :
  runs m s a s1 -> failed (f a) s1 e s2 -> failed (bind m f) s e s2.
Proof. unfold runs, failed, bind. intros -> H. exact H. Qed.

Lemma runs_try {A} (m : M A) (h : exn -> M A) s a s1 :
  runs m s a s1 -> runs (try_except m h) s a s1.
Proof. unfold runs, try_except. intros ->. reflexivity. Qed.

Lemma runs_handler {A} (m : M A) (h : exn -> M A) s e s1 a s2 :
  failed m s e s1 -> runs (h e) s1 a s2 -> runs (try_except m h) s a s2.
Proof. unfold runs, failed, try_except. intros -> H. exact H. Qed.

Lemma failed_handler {A} (m : M A) (h : exn -> M A) s e s1 e' s2 :
  failed m s e s1 -> failed (h e) s1 e' s2 -> failed (try_except m h) s e' s2.
Proof. unfold failed, try_except. intros -> H. exact H. Qed.

Lemma runs_finally {A} (m : M A) (c : M unit) s a s1 s2 :
  runs m s a s1 -> runs c s1 tt s2 -> runs (try_finally m c) s a s2.
Proof. unfold runs, try_finally. intros -> ->. reflexivity. Qed.

Lemma failed_finally {A} (m : M A) (c : M unit) s e s1 s2 :
  failed m s e s1 -> runs c s1 tt s2 -> failed (try_finally m c) s e s2.
Proof. unfold runs, failed, try_finally. intros -> ->. reflexivity. Qed.

Lemma runs_page (c : PageCall) (s : State) : runs (page W c) s tt (paged [c] s).
Proof. unfold runs, page. rewrite Hnf. reflexivity. Qed.

Lemma paged_paged (a b : list PageCall) (s : State) :
  paged b (paged a s) = paged (a ++ b) s.
Proof.
  unfold paged. cbn. f_equal.
  - now rewrite app_assoc.
  - rewrite length_app. lia.
Qed.

Lemma paged_nil (s : State) : paged [] s = s.
Proof. destruct s. unfold paged. cbn. now rewrite app_nil_r. Qed.

Lemma runs_pages3 (a b c : PageCall) (s : State) :
  runs (page W a ;; page W b ;; page W c)%monad s tt (paged [a; b; c] s).
Proof.
  eapply runs_bind; [apply runs_page|].
  eapply runs_bind; [apply runs_page|].
  rewrite paged_paged.
  replace (paged [a; b; c] s) with (paged [c] (paged [a; b] s))
    by (now rewrite paged_paged).
  apply runs_page.
Qed.

Lemma runs_type_char (char : ascii) (s : State) :
  runs (_type_char_vnc W char) s tt (paged (char_keys char) s).
Proof.
  unfold _type_char_vnc, char_keys. apply runs_try.
  destruct (is_upper_ascii char); [apply runs_pages3|].
  destruct (shift_lookup char shift_chars); [apply runs_pages3 | apply runs_page].
Qed.

Lemma runs_type_chars (text : string) (s : State) :
  runs (type_chars_vnc W text) s tt (paged (text_keys text) s).
Proof.
  unfold type_chars_vnc, text_keys. generalize (chars text) as l. intros l. revert s.
  induction l as [|c l IH]; intros s; cbn [for_each flat_map].
  - rewrite paged_nil. apply runs_ret.
  - eapply runs_bind; [apply runs_try, runs_type_char|].
    rewrite <- paged_paged. apply IH.
Qed.

Lemma runs_log_action (action details : string) (s : State) :
  runs (_log_action W action details) s tt (logged W action details s).
Proof. reflexivity. Qed.

Lemma runs_click_canvas (s : State) : runs (_click_vnc_canvas W) s tt (paged [ClickCanvas] s).
Proof. apply runs_try, runs_page. Qed.

Lemma runs_click_at (x y : nat) (s : State) :
  runs (_click_vnc_at_coordinates W x y) s tt (paged [ClickAt x y] s).
Proof. apply runs_try, runs_page. Qed.

Lemma runs_send_cad (s : State) : runs (_send_ctrl_alt_del W) s tt (paged [CtrlAltDel] s).
Proof. apply runs_try, runs_page. Qed.

Lemma runs_capture (name : string) (s : State) :
  runs (_capture_screenshot W cfg name None) s
    (shot_path cfg (clock W (clock_count s)) name, None) (captured W cfg name s).
Proof.
  unfold _capture_screenshot, runs, bind, try_except, now, page. cbn.
  rewrite Hnf. reflexivity.
Qed.

Lemma runs_capture_verified (name expected : string) (s : State) :
  llm_client cfg = true -> nonempty expected = true ->
  runs (_capture_screenshot W cfg name (Some expected)) s
    (shot_path cfg (clock W (clock_count s)) name,
     Some (verify_ui_state (vision W (vision_count s))))
    (captured_verified W cfg name expected s).
Proof.
  intros Hl He.
  unfold _capture_screenshot, runs, bind, try_except, now, page. cbn.
  rewrite Hnf, Hl, He. reflexivity.
Qed.

End Runs.

(** ** Computations that never raise *)

Definition never_raises {A} (m : M A) : Prop :=
  forall s, exists a s', m s = (Ok a, s').

Section NeverRaises.

Lemma nr_ret {A} (a : A) : never_raises (ret a).
Proof. intros s. now exists a, s. Qed.

Lemma nr_bind {A B} (m : M A) (f : A -> M B) :
  never_raises m -> (forall a, never_raises (f a)) -> never_raises (bind m f).
Proof.
  intros Hm Hf s. destruct (Hm s) as (a & s1 & E).
  destruct (Hf a s1) as (b & s2 & E2).
  exists b, s2. unfold bind. now rewrite E.
Qed.

Lemma nr_try_except {A} (m : M A) (h : exn -> M A) :
  (forall e, never_raises (h e)) -> never_raises (try_except m h).
Proof.
  intros Hh s. unfold try_except.
  destruct (m s) as [[a|e] s1]; [now exists a, s1 | apply Hh].
Qed.

Lemma nr_try_finally {A} (m : M A) (c : M unit) :
  never_raises m -> never_raises c -> never_raises (try_finally m c).
Proof.
  intros Hm Hc s. unfold try_finally.
  destruct (Hm s) as (a & s1 & ->). destruct (Hc s1) as ([] & s2 & ->).
  now exists a, s2.
Qed.

Lemma nr_for_each {A} (xs : list A) (body : A -> M unit) :
  (forall x, never_raises (body x)) -> never_raises (for_each xs body).
Proof.
  intros Hb. induction xs as [|x xs IH]; cbn [for_each].
  - apply nr_ret.
  - apply nr_bind; [apply Hb | intros _; exact IH].
Qed.

Lemma nr_now (W : World) : never_raises (now W).
Proof. intros s. eexists _, _. reflexivity. Qed.

Lemma nr_add_log (e : LogEntry) : never_raises (add_log e).
Proof. intros s. eexists _, _. reflexivity. Qed.

Lemma nr_get_vm_id : never_raises get_vm_id.
Proof. intros s. eexists _, _. reflexivity. Qed.

Lemma nr_log_action (W : World) (a d : string) : never_raises (_log_action W a d).
Proof. apply nr_bind; [apply nr_now | intros; apply nr_add_log]. Qed.

Lemma nr_capture (W : World) (cfg : Config) (name : string) (v : option string) :
  never_raises (_capture_screenshot W cfg name v).
Proof.
  apply nr_bind; [apply nr_now | intros ts].
  apply nr_try_except. intros _. apply nr_ret.
Qed.

Lemma nr_click_canvas (W : World) : never_raises (_click_vnc_canvas W).
Proof. apply nr_try_except. intros _. apply nr_ret. Qed.

Lemma nr_click_at (W : World) (x y : nat) : never_raises (_click_vnc_at_coordinates W x y).
Proof. apply nr_try_except. intros _. apply nr_click_canvas. Qed.

Lemma nr_retry_handler (W : World) (cfg : Config) (name : string) (attempt : nat) :
  never_raises (_capture_screenshot W cfg name None ;; ret (retry_or_fail cfg attempt))%monad.
Proof. apply nr_bind; [apply nr_capture | intros; apply nr_ret]. Qed.

(** The retry loop: when the body never raises, the loop returns, and
    the values [attempt] took are [first], [first + 1], ... without gap,
    at most [n] of them. *)
Lemma for_attempts_bounded {A} (body : nat -> M (ctl A)) (otherwise : A) :
  (forall attempt, never_raises (body attempt)) ->
  forall n first s,
  exists a tried s',
    for_attempts n first body otherwise s = (Ok (a, tried), s')
    /\ tried = seq first (length tried) /\ length tried <= n.
Proof.
  intros Hb. induction n as [|n IH]; intros first s; cbn [for_attempts].
  - exists otherwise, [], s. repeat split; auto.
  - destruct (Hb first s) as (c & s1 & E). unfold bind at 1. rewrite E.
    destruct c as [|a].
    + destruct (IH (S first) s1) as (a & tried & s2 & E2 & Hseq & Hlen).
      unfold bind. rewrite E2. exists a, (first :: tried), s2.
      repeat split; cbn; [now rewrite <- Hseq | lia].
    + exists a, [first], s1. repeat split; cbn; lia.
Qed.

Lemma nr_services_attempt (W : World) (cfg : Config) (attempt : nat) :
  never_raises (services_attempt W cfg attempt).
Proof. apply nr_try_except. intros _. apply nr_retry_handler. Qed.

Lemma nr_server_manager_attempt (W : World) (cfg : Config) (attempt : nat) :
  never_raises (server_manager_attempt W cfg attempt).
Proof. apply nr_try_except. intros _. apply nr_retry_handler. Qed.

Lemma nr_powershell_attempt (W : World) (cfg : Config) (o f c : string) (attempt : nat) :
  never_raises (powershell_attempt W cfg o f c attempt).
Proof. apply nr_try_except. intros _. apply nr_retry_handler. Qed.

Lemma nr_cleanup (W : World) : never_raises (_cleanup_vm W).
Proof.
  apply nr_bind; [apply nr_get_vm_id | intros [id|]]; [|apply nr_ret].
  destruct (nonempty id); [|apply nr_ret].
  apply nr_try_except. intros _. apply nr_ret.
Qed.

Lemma nr_run_verification (W : World) (settings : Settings) (agent : option string)
    (custom_steps ps_commands : list string) :
  never_raises (run_verification W settings agent custom_steps ps_commands).
Proof.
  apply nr_bind; [apply nr_now | intros _].
  apply nr_try_finally; [|apply nr_cleanup].
  apply nr_try_except. intros e. apply nr_ret.
Qed.

End NeverRaises.

(** ** The retried operations *)

Ltac run_leaf Hnf :=
  first
    [ apply runs_ret
    | apply (runs_page _ Hnf)
    | apply runs_log_action
    | apply (runs_click_canvas _ Hnf)
    | apply (runs_click_at _ Hnf)
    | apply (runs_send_cad _ Hnf)
    | apply (runs_type_chars _ Hnf)
    | apply (runs_capture _ _ Hnf)
    | apply (runs_capture_verified _ _ Hnf); [assumption | reflexivity] ].

Ltac norm_state :=
  cbv beta delta [paged logged captured captured_verified];
  cbn beta iota zeta delta
    [screenshots action_log verification_results page_calls page_count
     vision_count chat_count clock_count vm_id api_calls length Nat.add].

Ltac run_seq Hnf :=
  repeat (eapply runs_bind; [run_leaf Hnf | norm_state]).

Section PowerShell.
Variable W : World.
Variable cfg : Config.
Hypothesis Hnf : no_page_faults W.
Hypothesis Hllm : llm_client cfg = true.
Variables output_name failed_name command : string.

(** The state in which the run-dialog screenshot of an attempt has been
    taken and checked. *)
Definition dialog_checked (attempt : nat) (s : State) : State :=
  captured_verified W cfg ("09_run_dialog_opened_attempt" ++ of_nat attempt)
    run_dialog_state
    (paged [Press "Meta+R"]
       (paged [ClickCanvas] (logged W "Open Run dialog" "Pressing Win+R" s))).

(** An attempt that finds the screen locked ends in [return False]. *)
Lemma attempt_locked (attempt : nat) (s : State) :
  screen_locked (upper (description (verify_ui_state (vision W (vision_count s))))) = true ->
  runs (powershell_attempt W cfg output_name failed_name command attempt) s
       (Return false) (dialog_checked attempt s).
Proof.
  intros Hlock. unfold powershell_attempt. apply runs_try.
  run_seq Hnf.
  unfold run_dialog_check. rewrite Hlock.
  unfold dialog_checked. norm_state. apply runs_ret.
Qed.

End PowerShell.

(** Example worlds: nothing on the page fails, the provider delivers a
    snapshot, a machine and a display, and the oracle follows a script. *)
Definition lines (ls : list string) : string :=
  String.concat (String newline "") ls.

Definition scripted_world (script : nat -> option string) : World :=
  mkWorld (fun _ => None) script (fun _ => Answer "summary")
    (fun n => "T" ++ of_nat n)
    (Answer (Some (mkSnapshot "snap1" (Some "agent1") [mkLocation "cloud" (Some "dev1")])))
    (Answer "host") (Answer (Some "vm1")) (Answer true) (Answer "running")
    (Answer "https://display") (Answer true) (Answer ("report.html", "report.json")).

Definition example_settings (login_screen_timeout : nat) : Settings :=
  mkSettings "administrator" "Secret#1" 300 login_screen_timeout "screenshots".

(** The oracle confirms every state and always describes red error text. *)
Definition always_error_reply : string :=
  lines ["VERIFIED: yes"; "CONFIDENCE: high"; "DESCRIPTION: The terminal shows red text"].

(** The oracle sees the login screen, a cached user, the desktop, and from
    then on a locked screen. *)
Definition locked_after_login (n : nat) : option string :=
  match n with
  | 0 => Some (lines ["VERIFIED: yes"; "CONFIDENCE: high"; "DESCRIPTION: login screen"])
  | 1 => Some (lines ["USERNAME_FIELD: no"; "PASSWORD_FIELD: yes";
                      "DISPLAYED_USERNAME: Administrator"; "DESCRIPTION: password prompt"])
  | 2 => Some (lines ["VERIFIED: yes"; "CONFIDENCE: high"; "DESCRIPTION: desktop"])
  | _ => Some (lines ["VERIFIED: no"; "CONFIDENCE: high";
                      "DESCRIPTION: Lock screen, press Ctrl+Alt+Delete to unlock"])
  end.

(** The step [_perform_verification] records for a shell command. *)
Definition command_step (steps : list StepResult) (i : nat) (ps_cmd : string)
    (ps_success : bool) (timestamp : string) : StepResult :=
  mkStep (length steps + 1)
    ("Execute PowerShell command " ++ of_nat i ++ ": " ++ ps_cmd)
    ps_success timestamp None None.

Section RetriedOperations.
Variable W : World.

Lemma runs_fst {A B} (m : M (A * B)) (s : State) (a : A) (b : B) (s' : State) :
  runs m s (a, b) s' -> runs (r <- m ;; ret (fst r))%monad s a s'.
Proof. intros H. eapply runs_bind; [exact H | apply runs_ret]. Qed.

(** The orchestrator records the outcome of a command and goes on with
    the commands that remain. *)
Lemma run_ps_commands_step (settings : Settings) (steps : list StepResult) (i : nat)
    (ps_cmd : string) (rest : list string) (s s' : State) (ok : bool) (tried : list nat) :
  runs (run_powershell_interactive_attempts W (vm_config settings) ps_cmd) s (ok, tried) s' ->
  run_ps_commands W settings steps i (ps_cmd :: rest) s
  = run_ps_commands W settings
      (steps ++ [command_step steps i ps_cmd ok (clock W (clock_count s'))])%list
      (S i) rest (snd (now W s')).
Proof.
  intros H. cbn [run_ps_commands]. unfold run_powershell_interactive.
  unfold bind at 1. rewrite (runs_fst _ _ _ _ _ H). reflexivity.
Qed.

Variable cfg : Config.
Hypothesis Hnf : no_page_faults W.
Hypothesis Hllm : llm_client cfg = true.

(** Wherever the loop stands, a locked screen ends it with [False]. *)
Lemma loop_locked (o f command : string) (n attempt : nat) (s : State) :
  screen_locked (upper (description (verify_ui_state (vision W (vision_count s))))) = true ->
  runs (for_attempts (S n) attempt (powershell_attempt W cfg o f command) false) s
       (false, [attempt]) (dialog_checked W cfg attempt s).
Proof.
  intros Hlock. cbn [for_attempts].
  eapply runs_bind; [apply attempt_locked; assumption | apply runs_ret].
Qed.

End RetriedOperations.

(** C3, the claim as stated fails: with the default [max_retries] of 2 an
    always-failing command is tried twice, and no world makes any
    operation try three times. *)
Lemma three_tries_counterexample :
  fst (run_powershell_interactive_attempts
         (scripted_world (fun _ => Some always_error_reply))
         (mkConfig "screenshots" true default_max_retries) "dir" initial_state)
  = Ok (false, [1; 2])
  /\ ~ (exists W cfg command s b tried s',
          max_retries cfg = default_max_retries
          /\ run_powershell_interactive_attempts W cfg command s = (Ok (b, tried), s')
          /\ length tried = 3).
Proof.
  split; [vm_compute; reflexivity|].
  intros (W & cfg & command & s & b & tried & s' & Hmax & E & Hlen).
  destruct (for_attempts_bounded
              (powershell_attempt W cfg "10_powershell_interactive_output_attempt"
                 "10_interactive_powershell_failed_attempt" command) false
              (nr_powershell_attempt W cfg _ _ command) (max_retries cfg) 1 s)
    as (b' & tried' & s'' & E' & _ & Hle).
  unfold run_powershell_interactive_attempts in E. rewrite E in E'.
  injection E' as <- <- <-. rewrite Hmax in Hle. unfold default_max_retries in Hle. lia.
Qed.

(** C3, amended.  Every retried operation (opening the services manager,
    verifying the server manager, and the two command runners, in which
    opening the run dialog and running the command share one loop) starts
    its attempt counter at 1 whatever state it is called in, counts without
    gap and makes at most [max_retries] attempts, the first included; the
    default [max_retries] of 2 allows up to 2 tries. *)
Theorem attempts_start_at_one_and_are_capped (W : World) (cfg : Config) (s : State) :
  default_max_retries = 2
  /\ (exists b tried s',
        open_services_manager_attempts W cfg s = (Ok (b, tried), s')
        /\ tried = seq 1 (length tried) /\ length tried <= max_retries cfg)
  /\ (exists b tried s',
        open_server_manager_attempts W cfg s = (Ok (b, tried), s')
        /\ tried = seq 1 (length tried) /\ length tried <= max_retries cfg)
  /\ (forall command, exists b tried s',
        run_powershell_command_attempts W cfg command s = (Ok (b, tried), s')
        /\ tried = seq 1 (length tried) /\ length tried <= max_retries cfg)
  /\ (forall command, exists b tried s',
        run_powershell_interactive_attempts W cfg command s = (Ok (b, tried), s')
        /\ tried = seq 1 (length tried) /\ length tried <= max_retries cfg).
Proof.
  split; [reflexivity|].
  split; [apply for_attempts_bounded, nr_services_attempt|].
  split; [apply for_attempts_bounded, nr_server_manager_attempt|].
  split; intros command; apply for_attempts_bounded, nr_powershell_attempt.
Qed.

(** C7, the claim as stated fails: the first command of a run finds the
    screen locked, yet the second command is still attempted and the run
    reports success. *)
Lemma lock_screen_counterexample :
  let W := scripted_world locked_after_login in
  let out := run_verification W (example_settings 120) None [] ["dir"; "whoami"]
               initial_state in
  screen_locked (upper (description (verify_ui_state (vision W 3)))) = true
  /\ exists r res,
       fst out = Ok r /\ success r = true /\ login_failed r = None
       /\ results r = Some res
       /\ map step_success (steps_completed res) = [true; true; true; false; false]
       /\ map action (res_action_log res)
          = ["Send Ctrl+Alt+Del"; "Enter password"; "Open Run dialog"; "Open Run dialog"].
Proof.
  split; [vm_compute; reflexivity|].
  eexists. eexists. split; [vm_compute; reflexivity|].
  repeat split.
Qed.

(** C7, amended.  When the oracle's description of the run-dialog
    screenshot indicates a lock screen, the command operation returns
    failure at once, on whichever attempt it stands, without a further
    attempt; the orchestrator records a failed step for that command and
    goes on with the remaining commands. *)
Theorem lock_screen_ends_command (W : World) (settings : Settings) (command : string)
    (steps : list StepResult) (i : nat) (rest : list string) (s : State) :
  no_page_faults W ->
  screen_locked (upper (description (verify_ui_state (vision W (vision_count s))))) = true ->
  (forall cfg o f n attempt, llm_client cfg = true ->
     for_attempts (S n) attempt (powershell_attempt W cfg o f command) false s
     = (Ok (false, [attempt]), dialog_checked W cfg attempt s))
  /\ run_powershell_interactive_attempts W (vm_config settings) command s
     = (Ok (false, [1]), dialog_checked W (vm_config settings) 1 s)
  /\ run_ps_commands W settings steps i (command :: rest) s
     = run_ps_commands W settings
         (steps ++ [command_step steps i command false
                      (clock W (clock_count (dialog_checked W (vm_config settings) 1 s)))])%list
         (S i) rest (snd (now W (dialog_checked W (vm_config settings) 1 s))).
Proof.
  intros Hnf Hlock. split; [|split].
  - intros cfg o f n attempt Hllm. now apply loop_locked.
  - apply (loop_locked W (vm_config settings) Hnf eq_refl _ _ command 1 1 s Hlock).
  - apply (run_ps_commands_step W settings steps i command rest _ _ false [1]).
    apply (loop_locked W (vm_config settings) Hnf eq_refl _ _ command 1 1 s Hlock).
Qed.

Lemma lock_screen_ends_command_witness :
  run_powershell_interactive_attempts
    (scripted_world (fun _ => Some (lines ["VERIFIED: no"; "DESCRIPTION: lock screen"])))
    (vm_config (example_settings 120)) "dir" initial_state
  = (Ok (false, [1]),
     dialog_checked
       (scripted_world (fun _ => Some (lines ["VERIFIED: no"; "DESCRIPTION: lock screen"])))
       (vm_config (example_settings 120)) 1 initial_state).
Proof.
  refine (proj1 (proj2 (lock_screen_ends_command _ (example_settings 120) "dir" [] 1 []
                          initial_state _ _))).
  - intros n. reflexivity.
  - vm_compute. reflexivity.
Defined.

(** ** Waiting for the login screen *)

(** The polls on which the specification has the wake gesture sent. *)
Definition wake_due (poll : nat) : bool :=
  Nat.eqb poll 1 || Nat.eqb (poll mod 3) 0.

(** What a poll does on the page, as far as the waiting loop goes. *)
Inductive PollEvent :=
| Wake
| Shot.

Definition poll_trace (calls : list PageCall) : list PollEvent :=
  flat_map (fun c => match c with
                     | CtrlAltDel => [Wake]
                     | Screenshot _ => [Shot]
                     | _ => []
                     end) calls.

(** The trace of polls [first], ..., [first + n - 1]. *)
Definition expected_trace (first n : nat) : list PollEvent :=
  flat_map (fun poll => (if wake_due poll then [Wake] else []) ++ [Shot])%list
           (seq first n).

(** The state after one poll, and after [n] polls that follow
    [attempts] earlier ones. *)
Definition woken (W : World) (poll : nat) (s : State) : State :=
  if wake_due poll
  then paged [CtrlAltDel] (logged W "Send Ctrl+Alt+Del" "Bringing up login screen" s)
  else s.

Definition poll_once (W : World) (cfg : Config) (poll : nat) (s : State) : State :=
  captured_verified W cfg ("03_login_screen_check_" ++ of_nat poll) login_screen_state
    (woken W poll s).

Fixpoint polled (W : World) (cfg : Config) (n attempts : nat) (s : State) : State :=
  match n with
  | 0 => s
  | S n' => polled W cfg n' (S attempts) (poll_once W cfg (S attempts) s)
  end.

Section Polling.
Variable W : World.
Variable cfg : Config.
Hypothesis Hnf : no_page_faults W.
Hypothesis Hllm : llm_client cfg = true.

Lemma runs_wake (attempts : nat) (s : State) :
  runs (if Nat.eqb (S attempts) 1 || Nat.eqb (S attempts mod 3) 0 then
          _log_action W "Send Ctrl+Alt+Del" "Bringing up login screen" ;;
          _send_ctrl_alt_del W
        else ret tt)%monad
    s tt (woken W (S attempts) s).
Proof.
  unfold woken, wake_due.
  destruct (Nat.eqb (S attempts) 1 || Nat.eqb (S attempts mod 3) 0).
  - eapply runs_bind; [apply runs_log_action | apply (runs_send_cad _ Hnf)].
  - apply runs_ret.
Qed.

Lemma vision_count_woken (poll : nat) (s : State) :
  vision_count (woken W poll s) = vision_count s.
Proof. unfold woken. destruct (wake_due poll); reflexivity. Qed.

Lemma runs_poll_capture (poll : nat) (s : State) :
  runs (_capture_screenshot W cfg ("03_login_screen_check_" ++ of_nat poll)
          (Some login_screen_state))
    (woken W poll s)
    (shot_path cfg (clock W (clock_count (woken W poll s)))
       ("03_login_screen_check_" ++ of_nat poll),
     Some (verify_ui_state (vision W (vision_count s))))
    (poll_once W cfg poll s).
Proof.
  rewrite <- (vision_count_woken poll s).
  exact (runs_capture_verified W cfg Hnf _ login_screen_state (woken W poll s) Hllm eq_refl).
Qed.

Lemma vision_count_poll_once (poll : nat) (s : State) :
  vision_count (poll_once W cfg poll s) = S (vision_count s).
Proof. unfold poll_once, woken. destruct (wake_due poll); reflexivity. Qed.

(** The loop while the oracle keeps saying no. *)
Lemma poll_never_ready (remaining attempts : nat) (s : State) :
  (forall k, k < remaining ->
     verified (verify_ui_state (vision W (k + vision_count s))) = false) ->
  runs (poll_login_screen W cfg remaining attempts) s (false, "")
       (polled W cfg remaining attempts s).
Proof.
  revert attempts s. induction remaining as [|r IH]; intros attempts s Hneg.
  - apply runs_ret.
  - cbn [poll_login_screen polled].
    eapply runs_bind; [apply runs_wake|].
    eapply runs_bind; [apply runs_poll_capture|].
    cbn beta iota. rewrite (Hneg 0 ltac:(lia) : verified (verify_ui_state (vision W (vision_count s))) = false).
    apply IH. intros k Hk. rewrite vision_count_poll_once.
    replace (k + S (vision_count s)) with (S k + vision_count s) by lia.
    apply Hneg. lia.
Qed.

(** The loop when the oracle says yes on poll [j + 1] for the first time. *)
Lemma poll_until_ready (j remaining attempts : nat) (s : State) :
  j < remaining ->
  (forall k, k < j ->
     verified (verify_ui_state (vision W (k + vision_count s))) = false) ->
  verified (verify_ui_state (vision W (j + vision_count s))) = true ->
  exists path,
    runs (poll_login_screen W cfg remaining attempts) s (true, path)
         (polled W cfg (S j) attempts s).
Proof.
  revert remaining attempts s.
  induction j as [|j IH]; intros remaining attempts s Hj Hneg Hpos;
    (destruct remaining as [|r]; [lia|]); cbn [poll_login_screen polled].
  - eexists.
    eapply runs_bind; [apply runs_wake|].
    eapply runs_bind; [apply runs_poll_capture|].
    cbn beta iota. cbn [Nat.add] in Hpos. rewrite Hpos. apply runs_ret.
  - destruct (IH r (S attempts) (poll_once W cfg (S attempts) s)) as (path & R); [lia | | |].
    + intros k Hk. rewrite vision_count_poll_once.
      replace (k + S (vision_count s)) with (S k + vision_count s) by lia.
      apply Hneg. lia.
    + rewrite vision_count_poll_once.
      replace (j + S (vision_count s)) with (S j + vision_count s) by lia.
      exact Hpos.
    + exists path.
      eapply runs_bind; [apply runs_wake|].
      eapply runs_bind; [apply runs_poll_capture|].
      cbn beta iota. rewrite (Hneg 0 ltac:(lia) : verified (verify_ui_state (vision W (vision_count s))) = false). exact R.
Qed.

(** A screenshot path contains every prefix of the screenshot name. *)
Lemma contains_shot_path (timestamp pre rest : string) :
  contains pre (shot_path cfg timestamp (pre ++ rest)) = true.
Proof.
  replace (shot_path cfg timestamp (pre ++ rest))
    with ((screenshot_dir cfg ++ "/" ++ timestamp ++ "_") ++ pre ++ (rest ++ ".png"))
    by (unfold shot_path; rewrite !str_app_assoc; reflexivity).
  apply contains_app.
Qed.

(** What the polls leave in the state. *)
Lemma poll_trace_app (a b : list PageCall) :
  poll_trace (a ++ b) = (poll_trace a ++ poll_trace b)%list.
Proof. unfold poll_trace. apply flat_map_app. Qed.

Lemma poll_once_effect (poll : nat) (s : State) :
  poll_trace (page_calls (poll_once W cfg poll s))
  = (poll_trace (page_calls s) ++ (if wake_due poll then [Wake] else []) ++ [Shot])%list
  /\ (exists p, screenshots (poll_once W cfg poll s) = (screenshots s ++ [p])%list
                /\ login_related p = true)
  /\ map action (action_log (poll_once W cfg poll s))
     = (map action (action_log s)
        ++ (if wake_due poll then ["Send Ctrl+Alt+Del"] else []))%list
  /\ vm_id (poll_once W cfg poll s) = vm_id s
  /\ api_calls (poll_once W cfg poll s) = api_calls s
  /\ chat_count (poll_once W cfg poll s) = chat_count s.
Proof.
  unfold poll_once, woken, captured_verified.
  cbn [page_calls screenshots action_log vm_id api_calls chat_count].
  split; [|split; [|split]].
  - destruct (wake_due poll); cbn [paged logged page_calls];
      rewrite !poll_trace_app; cbn; rewrite <- ?app_assoc; reflexivity.
  - destruct (wake_due poll); eexists; (split; [reflexivity|]);
      unfold login_related;
      change ("03_login_screen_check_" ++ of_nat poll)
        with ("03_login" ++ ("_screen_check_" ++ of_nat poll));
      rewrite contains_shot_path; reflexivity.
  - destruct (wake_due poll); cbn [paged logged action_log].
    + rewrite map_app. reflexivity.
    + now rewrite app_nil_r.
  - destruct (wake_due poll); repeat split.
Qed.

End Polling.

Section PollingEffect.
Variable W : World.
Variable cfg : Config.

Lemma expected_trace_cons (first n : nat) :
  expected_trace first (S n)
  = (((if wake_due first then [Wake] else []) ++ [Shot]) ++ expected_trace (S first) n)%list.
Proof. reflexivity. Qed.

Lemma polled_effect (n attempts : nat) (s : State) :
  vision_count (polled W cfg n attempts s) = n + vision_count s
  /\ poll_trace (page_calls (polled W cfg n attempts s))
     = (poll_trace (page_calls s) ++ expected_trace (S attempts) n)%list
  /\ (exists shots,
        screenshots (polled W cfg n attempts s) = (screenshots s ++ shots)%list
        /\ length shots = n
        /\ Forall (fun p => login_related p = true) shots)
  /\ map action (action_log (polled W cfg n attempts s))
     = (map action (action_log s)
        ++ map (fun _ => "Send Ctrl+Alt+Del") (filter wake_due (seq (S attempts) n)))%list
  /\ vm_id (polled W cfg n attempts s) = vm_id s
  /\ api_calls (polled W cfg n attempts s) = api_calls s
  /\ chat_count (polled W cfg n attempts s) = chat_count s.
Proof.
  revert attempts s. induction n as [|n IH]; intros attempts s; cbn [polled].
  - cbn [expected_trace seq flat_map filter map]. rewrite !app_nil_r.
    repeat split; auto. exists []. rewrite app_nil_r. repeat split; auto.
  - destruct (IH (S attempts) (poll_once W cfg (S attempts) s))
      as (Hv & Ht & (shots & Hs & Hl & Hf) & Ha & Hvm & Hapi & Hchat).
    destruct (poll_once_effect W cfg (S attempts) s)
      as (Pt & (p & Ps & Pl) & Pa & Pvm & Papi & Pchat).
    rewrite Hv, Ht, Hs, Ha, Hvm, Hapi, Hchat, Pt, Ps, Pa, Pvm, Papi, Pchat.
    rewrite vision_count_poll_once.
    split; [lia|]. split; [|split; [|split; [|auto]]].
    + rewrite expected_trace_cons, <- !app_assoc. reflexivity.
    + exists (p :: shots). rewrite <- app_assoc. repeat split; cbn; auto.
    + rewrite <- app_assoc. f_equal. cbn [seq filter].
      destruct (wake_due (S attempts)); reflexivity.
Qed.

End PollingEffect.

Lemma wake_due_spec (poll : nat) :
  wake_due poll = true <-> poll = 1 \/ exists m, poll = 3 * m.
Proof.
  unfold wake_due. rewrite orb_true_iff, !Nat.eqb_eq.
  now rewrite Nat.Div0.mod_divides.
Qed.

(** C9.  The wake gesture is due on poll 1 and on the polls whose number
    is a multiple of 3.  When the oracle reports the login screen for the
    first time on poll N and N polls of 10 seconds fit within the timeout
    the waiting loop makes exactly N polls, sends the wake gesture before
    the screenshot of exactly the polls on which it is due, logs it as
    often, and returns with the login screen confirmed. *)
Theorem login_screen_polling (W : World) (cfg : Config) (timeout N : nat) (s : State) :
  no_page_faults W ->
  llm_client cfg = true ->
  1 <= N ->
  N * 10 <= timeout ->
  (forall k, k < N - 1 ->
     verified (verify_ui_state (vision W (k + vision_count s))) = false) ->
  verified (verify_ui_state (vision W (N - 1 + vision_count s))) = true ->
  (forall poll, wake_due poll = true <-> poll = 1 \/ exists m, poll = 3 * m)
  /\ exists path s',
       poll_login_screen W cfg (timeout / 10) 0 s = (Ok (true, path), s')
       /\ poll_trace (page_calls s')
          = (poll_trace (page_calls s) ++ expected_trace 1 N)%list
       /\ length (screenshots s') = length (screenshots s) + N
       /\ vision_count s' = N + vision_count s
       /\ map action (action_log s')
          = (map action (action_log s)
             ++ map (fun _ => "Send Ctrl+Alt+Del") (filter wake_due (seq 1 N)))%list.
Proof.
  intros Hnf Hllm HN Ht Hneg Hpos. split; [exact wake_due_spec|].
  assert (Hfuel : N - 1 < timeout / 10).
  { assert (N <= timeout / 10) by (apply Nat.div_le_lower_bound; lia). lia. }
  destruct (poll_until_ready W cfg Hnf Hllm (N - 1) (timeout / 10) 0 s Hfuel Hneg Hpos)
    as (path & R).
  replace (S (N - 1)) with N in R by lia.
  destruct (polled_effect W cfg N 0 s) as (Hv & Htr & (shots & Hs & Hl & _) & Ha & _).
  exists path, (polled W cfg N 0 s).
  split; [exact R|]. split; [exact Htr|]. split; [|split; [exact Hv | exact Ha]].
  rewrite Hs, length_app. lia.
Qed.

(** The oracle reports the login screen from its fourth answer on. *)
Definition ready_on_fourth (n : nat) : option string :=
  if Nat.ltb n 3
  then Some (lines ["VERIFIED: no"; "CONFIDENCE: high"; "DESCRIPTION: black screen"])
  else Some (lines ["VERIFIED: yes"; "CONFIDENCE: high"; "DESCRIPTION: login screen"]).

Lemma login_screen_polling_witness :
  exists path s',
    poll_login_screen (scripted_world ready_on_fourth) (mkConfig "screenshots" true 2)
      (60 / 10) 0 initial_state = (Ok (true, path), s')
    /\ poll_trace (page_calls s') = [Wake; Shot; Shot; Wake; Shot; Shot].
Proof.
  destruct (login_screen_polling (scripted_world ready_on_fourth)
              (mkConfig "screenshots" true 2) 60 4 initial_state)
    as (_ & path & s' & H & Htr & _).
  - intros n. reflexivity.
  - reflexivity.
  - lia.
  - cbn. lia.
  - intros k Hk. destruct k as [|[|[|k]]]; [vm_compute; reflexivity .. | cbn in Hk; lia].
  - vm_compute. reflexivity.
  - exists path, s'. split; [exact H | exact Htr].
Defined.

(** ** A run whose login screen never appears *)

(** The states after reading the clock, after a provider call, after
    [self.vm_id = ...], after [VMAutomation(...)] and after a text
    completion. *)
Definition ticked (s : State) : State :=
  mkState (screenshots s) (action_log s) (verification_results s) (page_calls s)
    (page_count s) (vision_count s) (chat_count s) (S (clock_count s)) (vm_id s)
    (api_calls s).

Definition called (c : ApiCall) (s : State) : State :=
  mkState (screenshots s) (action_log s) (verification_results s) (page_calls s)
    (page_count s) (vision_count s) (chat_count s) (clock_count s) (vm_id s)
    (api_calls s ++ [c])%list.

Definition with_vm_id (v : option string) (s : State) : State :=
  mkState (screenshots s) (action_log s) (verification_results s) (page_calls s)
    (page_count s) (vision_count s) (chat_count s) (clock_count s) v (api_calls s).

Definition fresh_vm_automation (s : State) : State :=
  mkState [] [] [] (page_calls s) (page_count s) (vision_count s) (chat_count s)
    (clock_count s) (vm_id s) (api_calls s).

Definition chatted (s : State) : State :=
  mkState (screenshots s) (action_log s) (verification_results s) (page_calls s)
    (page_count s) (vision_count s) (S (chat_count s)) (clock_count s) (vm_id s)
    (api_calls s).

(** The oracle never confirms a state. *)
Definition never_verified (W : World) : Prop :=
  forall n, verified (verify_ui_state (vision W n)) = false.

(** The number of [destroy_vm] calls among the provider calls. *)
Definition teardown_count (calls : list ApiCall) : nat :=
  length (filter (fun c => match c with DestroyVM _ => true | _ => false end) calls).

Definition login_timeout_message : string :=
  "Login screen did not appear - cannot proceed with verification".

Section LoginTimeout.
Variable W : World.
Hypothesis Hnf : no_page_faults W.
Hypothesis Hnever : never_verified W.

Lemma runs_api {A} (c : ApiCall) (answer : reply A) (a : A) (s : State) :
  answer = Answer a -> runs (api c answer) s a (called c s).
Proof. intros ->. reflexivity. Qed.

Lemma runs_external {A} (err : string -> exn) (c : ApiCall) (answer : reply A) (a : A)
    (s : State) :
  answer = Answer a -> runs (external err c answer) s a (called c s).
Proof. intros ->. reflexivity. Qed.

Lemma runs_now (s : State) : runs (now W) s (clock W (clock_count s)) (ticked s).
Proof. reflexivity. Qed.

Lemma runs_summary (s : State) :
  exists summary,
    runs (try_except (llm_chat W) (fun _ => ret "Test summary not available")) s
         summary (chatted s).
Proof.
  unfold runs, try_except, llm_chat.
  destruct (chat W (chat_count s)); eexists; reflexivity.
Qed.

Lemma runs_cleanup (id : string) (s : State) :
  vm_id s = Some id -> nonempty id = true ->
  runs (_cleanup_vm W) s tt (called (DestroyVM id) s).
Proof.
  intros Hid Hne. unfold _cleanup_vm, runs, bind, get_vm_id. rewrite Hid, Hne.
  unfold try_except, api, external. destruct (destroyed W); reflexivity.
Qed.

(** [login_windows] gives up when no poll confirms the login screen. *)
Lemma login_windows_times_out (cfg : Config) (username password : string)
    (max_wait : nat) (s : State) :
  llm_client cfg = true ->
  failed (login_windows W cfg username password max_wait) s
         (VMAutomationError login_timeout_message)
         (polled W cfg (max_wait / 10) 0 s).
Proof.
  intros Hllm. unfold login_windows.
  eapply failed_handler.
  - eapply failed_after.
    + apply (poll_never_ready W cfg Hnf Hllm). intros k _. apply Hnever.
    + reflexivity.
  - reflexivity.
Qed.

End LoginTimeout.

(** The provider delivers a snapshot with a location, a machine that gets
    ready, its display address, and the report is written. *)
Definition provider_ready (W : World) (snap : Snapshot) (id url : string) : Prop :=
  latest_snapshot W = Answer (Some snap)
  /\ locations snap <> []
  /\ created_vm W = Answer (Some id) /\ nonempty id = true
  /\ vm_ready W = Answer true
  /\ (exists d, vm_details W = Answer d)
  /\ vnc_url W = Answer url /\ nonempty url = true
  /\ (exists paths, report_paths W = Answer paths).

(** The state in which [login_windows] is called. *)
Definition before_login (W : World) (cfg : Config) (url : string) (s : State) : State :=
  ticked (captured W cfg "02_windows_desktop"
            (ticked (captured W cfg "01_novnc_connected" (paged [Goto url] s)))).

(** The screenshots [_perform_verification] reports after a failed
    login. *)
Definition failure_screenshots (all_screenshots : list string) : list string :=
  match from_first login_related all_screenshots with
  | [] => all_screenshots
  | _ :: _ => from_first login_related all_screenshots
  end.

Lemma from_first_keeps_tail (p : string -> bool) (early polls : list string) :
  polls <> [] -> Forall (fun x => p x = true) polls ->
  exists kept, from_first p (early ++ polls)%list = (kept ++ polls)%list
               /\ length kept <= length early.
Proof.
  intros Hne Hall. induction early as [|a early IH]; cbn [app from_first].
  - exists []. destruct polls as [|x t]; [contradiction|].
    inversion Hall as [|? ? Hx _]; subst. cbn [from_first]. rewrite Hx. auto.
  - destruct (p a).
    + exists (a :: early). auto.
    + destruct IH as (kept & E & L). exists kept. split; [exact E | cbn; lia].
Qed.

Section TimedOutRun.
Variable W : World.
Variable settings : Settings.
Hypothesis Hnf : no_page_faults W.
Hypothesis Hnever : never_verified W.

Let cfg := vm_config settings.
Let polls := vm_login_screen_timeout settings / 10.

(** The state in which the [with] block is left after the timeout. *)
Definition timed_out (url : string) (s : State) : State :=
  ticked (polled W cfg polls 0 (before_login W cfg url s)).

Lemma verification_steps_time_out (url : string) (custom_steps ps_commands : list string)
    (s : State) :
  exists res,
    runs (verification_steps W settings url custom_steps ps_commands) s res
         (timed_out url s)
    /\ res_login_failed res = Some true
    /\ res_error res = Some login_timeout_message
    /\ res_action_log res = action_log (timed_out url s)
    /\ res_screenshots res = failure_screenshots (screenshots (timed_out url s))
    /\ map step_success (steps_completed res) = [true; true; false].
Proof.
  eexists. split.
  - unfold verification_steps.
    eapply runs_bind.
    { unfold connect_to_vm. apply runs_try.
      eapply runs_bind; [apply (runs_page _ Hnf)|].
      eapply runs_bind; [apply (runs_capture _ _ Hnf) | apply runs_ret]. }
    eapply runs_bind; [apply runs_now|].
    eapply runs_bind.
    { unfold wait_for_windows_desktop.
      eapply runs_bind; [apply (runs_capture _ _ Hnf) | apply runs_ret]. }
    eapply runs_bind; [apply runs_now|].
    eapply runs_bind.
    { eapply runs_handler.
      - eapply failed_bind.
        apply (login_windows_times_out W Hnf Hnever (vm_config settings)). reflexivity.
      - apply runs_ret. }
    eapply runs_bind; [apply runs_now|].
    cbn beta iota.
    eapply runs_bind; [reflexivity|].
    eapply runs_bind; [reflexivity|].
    apply runs_ret.
  - repeat split.
Qed.

Lemma perform_verification_times_out (url : string)
    (custom_steps ps_commands : list string) (s : State) :
  exists res,
    runs (_perform_verification W settings url custom_steps ps_commands) s res
         (paged [Close] (timed_out url (paged [Launch] (fresh_vm_automation s))))
    /\ res_login_failed res = Some true
    /\ res_error res = Some login_timeout_message
    /\ res_action_log res
       = action_log (timed_out url (paged [Launch] (fresh_vm_automation s)))
    /\ res_screenshots res
       = failure_screenshots
           (screenshots (timed_out url (paged [Launch] (fresh_vm_automation s))))
    /\ map step_success (steps_completed res) = [true; true; false].
Proof.
  destruct (verification_steps_time_out url custom_steps ps_commands
              (paged [Launch] (fresh_vm_automation s))) as (res & R & P).
  exists res. split; [|exact P].
  unfold _perform_verification, with_vm_automation.
  eapply runs_bind; [reflexivity|].
  eapply runs_bind; [apply (runs_page _ Hnf)|].
  eapply runs_finally; [exact R | apply (runs_page _ Hnf)].
Qed.

(** What the timed-out [with] block leaves in the lists of the
    [VMAutomation] object. *)
Lemma timed_out_lists (url : string) (s : State) :
  1 <= polls ->
  action_log (timed_out url (paged [Launch] (fresh_vm_automation s))) <> []
  /\ exists early shots,
       screenshots (timed_out url (paged [Launch] (fresh_vm_automation s)))
       = (early ++ shots)%list
       /\ length early = 2 /\ length shots = polls /\ shots <> []
       /\ Forall (fun p => login_related p = true) shots.
Proof.
  intros Hp. unfold timed_out. cbn [ticked action_log screenshots].
  destruct (polled_effect W cfg polls 0
              (before_login W cfg url (paged [Launch] (fresh_vm_automation s))))
    as (_ & _ & (shots & Hs & Hl & Hf) & Ha & _).
  split.
  - intros E. rewrite E in Ha.
    destruct (Nat.lt_exists_pred 0 polls Hp) as (n & Hn & _). rewrite Hn in Ha.
    cbn [map before_login ticked captured paged fresh_vm_automation action_log app
         seq filter wake_due Nat.eqb orb] in Ha.
    discriminate Ha.
  - rewrite Hs. eexists _, shots. split; [reflexivity|].
    split; [reflexivity|]. split; [exact Hl|]. split; [|exact Hf].
    intros ->. cbn [length] in Hl. rewrite <- Hl in Hp. inversion Hp.
Qed.

End TimedOutRun.

(** The state after the optional look-up of the agent. *)
Definition after_agent_details (snap : Snapshot) (s : State) : State :=
  if truthy (agent_id snap)
  then called (GetAgentDetails (match agent_id snap with Some a => a | None => "" end)) s
  else s.

(** The state in which a run with a ready provider enters
    [_perform_verification]. *)
Definition provisioned (W : World) (settings : Settings) (agent : option string)
    (snap : Snapshot) (device : option string) (id : string) (s : State) : State :=
  called (GetVNCUrl (Some id))
    (called (GetVMDetails (Some id))
       (called (WaitForVMReady (Some id) (vm_boot_timeout settings))
          (with_vm_id (Some id)
             (called (CreateVM (snapshot_id snap) device "network-none")
                (ticked
                   (after_agent_details snap
                      (called (GetLatestSnapshot agent) (ticked s)))))))).

Section TimedOutRunResult.
Variable W : World.
Variable settings : Settings.
Hypothesis Hnf : no_page_faults W.
Hypothesis Hnever : never_verified W.

Lemma timed_out_provider (url : string) (s : State) :
  vm_id (timed_out W settings url s) = vm_id s
  /\ api_calls (timed_out W settings url s) = api_calls s.
Proof.
  unfold timed_out. cbn [ticked vm_id api_calls].
  destruct (polled_effect W (vm_config settings) (vm_login_screen_timeout settings / 10) 0
              (before_login W (vm_config settings) url s))
    as (_ & _ & _ & _ & Hvm & Hapi & _).
  rewrite Hvm, Hapi. split; reflexivity.
Qed.

Lemma runs_agent_details (snap : Snapshot) (s : State) :
  exists info,
    runs (if truthy (agent_id snap) then
            try_except
              (a <- api (GetAgentDetails
                           (match agent_id snap with Some a => a | None => "" end))
                        (agent_details W) ;;
               ret (Some a))
              (fun _ => ret None)
          else ret None)%monad
      s info (after_agent_details snap s).
Proof.
  unfold after_agent_details. destruct (truthy (agent_id snap)).
  - unfold runs, try_except, bind, api, external.
    destruct (agent_details W); eexists; reflexivity.
  - exists None. apply runs_ret.
Qed.

Lemma runs_device_id (snap : Snapshot) (s : State) :
  locations snap <> [] ->
  exists device, runs (_get_device_id_from_snapshot snap) s device s.
Proof.
  intros Hl. unfold _get_device_id_from_snapshot.
  destruct (locations snap) as [|first rest]; [contradiction|].
  destruct (find _ _); eexists; apply runs_ret.
Qed.

End TimedOutRunResult.

(** C1, the claim as stated fails: with a login-screen timeout below ten
    seconds the waiting loop makes no poll; the run ends with
    [login_failed] and an empty action log. *)
Lemma login_timeout_counterexample :
  let W := scripted_world
             (fun _ => Some (lines ["VERIFIED: no"; "CONFIDENCE: high";
                                    "DESCRIPTION: black screen"])) in
  exists r res,
    fst (run_verification W (example_settings 5) None [] [] initial_state) = Ok r
    /\ success r = false /\ login_failed r = Some true
    /\ results r = Some res /\ res_action_log res = [].
Proof.
  eexists. eexists. split; [vm_compute; reflexivity|]. repeat split.
Qed.

(** C1, amended.  In a run that reaches the login protocol (the provider
    delivers snapshot, machine and display, no page call fails), whose
    login-screen timeout allows at least one poll (ten seconds or more),
    whose oracle never gives a positive verdict and whose report is
    written, [run_verification] returns a result with [success] false and
    [login_failed] true; the result carries the action log, which is not
    empty, and the screenshots from the first login-related one on, among
    them every screenshot of the waiting loop (the two taken before are
    kept only when their path matches the filter); the browser is closed
    and [destroy_vm] is called exactly once. *)
Theorem login_timeout_run (W : World) (settings : Settings) (agent : option string)
    (custom_steps ps_commands : list string) (snap : Snapshot) (id url : string)
    (s : State) :
  no_page_faults W ->
  never_verified W ->
  provider_ready W snap id url ->
  10 <= vm_login_screen_timeout settings ->
  exists r res s',
    run_verification W settings agent custom_steps ps_commands s = (Ok r, s')
    /\ success r = false
    /\ login_failed r = Some true
    /\ error r = Some login_timeout_message
    /\ results r = Some res
    /\ res_action_log res = action_log s'
    /\ res_action_log res <> []
    /\ (exists early shots kept,
          screenshots s' = (early ++ shots)%list
          /\ length early = 2
          /\ length shots = vm_login_screen_timeout settings / 10
          /\ shots <> []
          /\ Forall (fun p => login_related p = true) shots
          /\ res_screenshots res = (kept ++ shots)%list
          /\ length kept <= 2)
    /\ teardown_count (api_calls s') = S (teardown_count (api_calls s))
    /\ (exists calls, page_calls s' = (calls ++ [Close])%list).
Proof.
  intros Hnf Hnever (Hsnap & Hloc & Hvm & Hid & Hready & (d & Hd) & Hurl & Hne & (paths & Hrep))
         Htimeout.
  assert (Hpolls : 1 <= vm_login_screen_timeout settings / 10)
    by (apply Nat.div_le_lower_bound; lia).
  set (s1 := after_agent_details snap (called (GetLatestSnapshot agent) (ticked s))).
  destruct (runs_device_id snap s1 Hloc) as (device & Rdev).
  destruct (runs_agent_details W snap (called (GetLatestSnapshot agent) (ticked s)))
    as (info & Rinfo). fold s1 in Rinfo.
  set (s2 := provisioned W settings agent snap device id s).
  destruct (perform_verification_times_out W settings Hnf Hnever url custom_steps
              ps_commands s2) as (res & Rres & Hfailed & Herr & Hlog & Hshots & _).
  set (s3 := paged [Close]
               (timed_out W settings url (paged [Launch] (fresh_vm_automation s2)))) in *.
  destruct (runs_summary W (ticked s3)) as (summary & Rsum).
  set (s4 := called (GenerateReport (length (res_action_log res))
                       (length (res_screenshots res)) (length (steps_completed res)))
               (chatted (ticked s3))).
  destruct (timed_out_provider W settings url (paged [Launch] (fresh_vm_automation s2)))
    as (Tvm & Tapi).
  destruct (timed_out_lists W settings url s2 Hpolls)
    as (Hlogne & early & shots & Hs & Hle & Hls & Hsne & Hall).
  assert (Hvm4 : vm_id s4 = Some id).
  { unfold s4, s3. cbn [called chatted ticked paged vm_id]. rewrite Tvm. reflexivity. }
  eexists. exists res, (called (DestroyVM id) s4).
  split.
  { unfold run_verification.
    eapply runs_bind; [apply runs_now|].
    eapply runs_finally; [|apply (runs_cleanup W id s4 Hvm4 Hid)].
    apply runs_try.
    eapply runs_bind.
    { unfold _get_latest_snapshot.
      eapply runs_bind; [apply runs_api; exact Hsnap | apply runs_ret]. }
    eapply runs_bind; [exact Rinfo|].
    eapply runs_bind.
    { unfold _create_and_start_vm.
      eapply runs_bind; [exact Rdev|].
      eapply runs_bind; [apply runs_now|].
      eapply runs_bind; [apply runs_api; exact Hvm|].
      eapply runs_bind; [reflexivity|].
      eapply runs_bind; [apply runs_api; exact Hready|].
      cbn [negb]. apply runs_api. exact Hd. }
    eapply runs_bind.
    { unfold _get_novnc_url.
      eapply runs_bind; [reflexivity|].
      eapply runs_bind; [apply runs_api; exact Hurl|].
      rewrite Hne. apply runs_ret. }
    eapply runs_bind; [exact Rres|].
    eapply runs_bind; [apply runs_now|].
    eapply runs_bind.
    { unfold _generate_report.
      eapply runs_bind; [exact Rsum|].
      apply runs_external. exact Hrep. }
    eapply runs_bind; [reflexivity|].
    rewrite Hfailed. apply runs_ret. }
  assert (Hlog' : res_action_log res = action_log (called (DestroyVM id) s4)).
  { rewrite Hlog. reflexivity. }
  split; [reflexivity|]. split; [reflexivity|].
  split; [cbn [error]; rewrite Herr; reflexivity|].
  split; [reflexivity|]. split; [exact Hlog'|].
  split; [rewrite Hlog; exact Hlogne|].
  split.
  { destruct (from_first_keeps_tail login_related early shots Hsne Hall)
      as (kept & Hk & Hkl).
    exists early, shots, kept.
    split; [exact Hs|]. split; [exact Hle|]. split; [exact Hls|].
    split; [exact Hsne|]. split; [exact Hall|].
    split; [|lia].
    rewrite Hshots, Hs. unfold failure_screenshots. rewrite Hk.
    destruct (kept ++ shots)%list eqn:E; [|reflexivity].
    apply app_eq_nil in E. destruct E as [_ E]. contradiction. }
  split.
  { unfold s4, s3. cbn [called chatted ticked paged api_calls].
    rewrite Tapi. unfold s2, provisioned, s1, after_agent_details.
    unfold teardown_count.
    destruct (truthy (agent_id snap));
      cbn [called chatted ticked paged with_vm_id fresh_vm_automation api_calls];
      rewrite !filter_app, !length_app; cbn; lia. }
  unfold s4, s3. cbn [called chatted ticked paged page_calls]. eexists. reflexivity.
Qed.

Lemma login_timeout_run_witness :
  let W := scripted_world
             (fun _ => Some (lines ["VERIFIED: no"; "CONFIDENCE: high";
                                    "DESCRIPTION: black screen"])) in
  exists r s',
    run_verification W (example_settings 30) None [] [] initial_state = (Ok r, s')
    /\ success r = false /\ login_failed r = Some true
    /\ teardown_count (api_calls s') = 1.
Proof.
  intros W.
  destruct (login_timeout_run W (example_settings 30) None [] []
              (mkSnapshot "snap1" (Some "agent1") [mkLocation "cloud" (Some "dev1")])
              "vm1" "https://display" initial_state)
    as (r & res & s' & H & Hs & Hl & _ & _ & _ & _ & _ & Ht & _).
  - intros n. reflexivity.
  - intros n. vm_compute. reflexivity.
  - repeat split; try reflexivity; try discriminate; eexists; reflexivity.
  - cbn. lia.
  - exists r, s'. repeat split; assumption.
Defined.

(** ** The screenshot list and the action log only grow *)

(** [s'] holds the screenshots and the log entries of [s], unchanged and
    in place, possibly followed by more. *)
Definition extends (s s' : State) : Prop :=
  (exists more, screenshots s' = (screenshots s ++ more)%list)
  /\ (exists more, action_log s' = (action_log s ++ more)%list).

Definition append_only {A} (m : M A) : Prop :=
  forall s, extends s (snd (m s)).

Section AppendOnly.

Lemma extends_refl (s : State) : extends s s.
Proof. split; exists []; now rewrite app_nil_r. Qed.

Lemma extends_trans (s1 s2 s3 : State) : extends s1 s2 -> extends s2 s3 -> extends s1 s3.
Proof.
  intros [[a Ha] [b Hb]] [[c Hc] [d Hd]]. split.
  - exists (a ++ c)%list. now rewrite Hc, Ha, app_assoc.
  - exists (b ++ d)%list. now rewrite Hd, Hb, app_assoc.
Qed.

Lemma extends_same (s s' : State) :
  screenshots s' = screenshots s -> action_log s' = action_log s -> extends s s'.
Proof. intros H1 H2. split; exists []; now rewrite app_nil_r. Qed.

Lemma ao_ret {A} (a : A) : append_only (ret a).
Proof. intros s. apply extends_refl. Qed.

Lemma ao_raise {A} (e : exn) : append_only (@raise A e).
Proof. intros s. apply extends_refl. Qed.

Lemma ao_bind {A B} (m : M A) (f : A -> M B) :
  append_only m -> (forall a, append_only (f a)) -> append_only (bind m f).
Proof.
  intros Hm Hf s. unfold bind. specialize (Hm s).
  destruct (m s) as [[a|e] s1]; cbn [snd] in *; [|exact Hm].
  eapply extends_trans; [exact Hm | apply Hf].
Qed.

Lemma ao_try_except {A} (m : M A) (h : exn -> M A) :
  append_only m -> (forall e, append_only (h e)) -> append_only (try_except m h).
Proof.
  intros Hm Hh s. unfold try_except. specialize (Hm s).
  destruct (m s) as [[a|e] s1]; cbn [snd] in *; [exact Hm|].
  eapply extends_trans; [exact Hm | apply Hh].
Qed.

Lemma ao_try_finally {A} (m : M A) (c : M unit) :
  append_only m -> append_only c -> append_only (try_finally m c).
Proof.
  intros Hm Hc s. unfold try_finally. specialize (Hm s).
  destruct (m s) as [r s1]. specialize (Hc s1).
  destruct (c s1) as [[u|e] s2]; cbn [snd] in *; eapply extends_trans; eassumption.
Qed.

Lemma ao_for_each {A} (xs : list A) (body : A -> M unit) :
  (forall x, append_only (body x)) -> append_only (for_each xs body).
Proof.
  intros Hb. induction xs as [|x xs IH]; cbn [for_each].
  - apply ao_ret.
  - apply ao_bind; [apply Hb | intros _; exact IH].
Qed.

Lemma ao_for_attempts {A} (body : nat -> M (ctl A)) (otherwise : A) (n first : nat) :
  (forall attempt, append_only (body attempt)) ->
  append_only (for_attempts n first body otherwise).
Proof.
  intros Hb. revert first. induction n as [|n IH]; intros first; cbn [for_attempts].
  - apply ao_ret.
  - apply ao_bind; [apply Hb | intros [|a]].
    + apply ao_bind; [apply IH | intros [a tried]; apply ao_ret].
    + apply ao_ret.
Qed.

Lemma ao_page (W : World) (c : PageCall) : append_only (page W c).
Proof.
  intros s. unfold page. destruct (page_fault W (page_count s)); now apply extends_same.
Qed.

Lemma ao_now (W : World) : append_only (now W).
Proof. intros s. now apply extends_same. Qed.

Lemma ao_analyze (W : World) : append_only (analyze_screenshot W).
Proof. intros s. now apply extends_same. Qed.

Lemma ao_chat (W : World) : append_only (llm_chat W).
Proof.
  intros s. unfold llm_chat. destruct (chat W (chat_count s)); now apply extends_same.
Qed.

Lemma ao_external {A} (err : string -> exn) (c : ApiCall) (answer : reply A) :
  append_only (external err c answer).
Proof. intros s. unfold external. destruct answer; now apply extends_same. Qed.

Lemma ao_set_vm_id (v : option string) : append_only (set_vm_id v).
Proof. intros s. now apply extends_same. Qed.

Lemma ao_get_vm_id : append_only get_vm_id.
Proof. intros s. apply extends_refl. Qed.

Lemma ao_get_screenshots : append_only get_screenshots.
Proof. intros s. apply extends_refl. Qed.

Lemma ao_get_action_log : append_only get_action_log.
Proof. intros s. apply extends_refl. Qed.

Lemma ao_add_verification (r : VerificationRecord) : append_only (add_verification r).
Proof. intros s. now apply extends_same. Qed.

Lemma ao_add_screenshot (p : string) : append_only (add_screenshot p).
Proof.
  intros s. split; [exists [p] | exists []; rewrite app_nil_r]; reflexivity.
Qed.

Lemma ao_add_log (e : LogEntry) : append_only (add_log e).
Proof.
  intros s. split; [exists []; rewrite app_nil_r | exists [e]]; reflexivity.
Qed.

End AppendOnly.

Create HintDb append_only.
#[export] Hint Resolve ao_ret ao_raise ao_page ao_now ao_analyze ao_chat ao_external
  ao_set_vm_id ao_get_vm_id ao_get_screenshots ao_get_action_log ao_add_verification
  ao_add_screenshot ao_add_log : append_only.

(** Walks down a computation built from the combinators. *)
Ltac append_only_step :=
  first
    [ solve [auto with append_only]
    | apply ao_bind; [|intros ?]
    | apply ao_try_except; [|intros ?]
    | apply ao_try_finally
    | apply ao_for_each; intros ?
    | apply ao_for_attempts; intros ?
    | match goal with
      | |- append_only (match ?x with _ => _ end) => destruct x
      end ].

Ltac append_only_walk := repeat append_only_step.

Section AppendOnlyOperations.
Variable W : World.
Variable cfg : Config.

Lemma ao_log_action (a d : string) : append_only (_log_action W a d).
Proof. unfold _log_action. append_only_walk. Qed.

Lemma ao_click_canvas : append_only (_click_vnc_canvas W).
Proof. unfold _click_vnc_canvas. append_only_walk. Qed.

Lemma ao_click_at (x y : nat) : append_only (_click_vnc_at_coordinates W x y).
Proof. unfold _click_vnc_at_coordinates, _click_vnc_canvas. append_only_walk. Qed.

Lemma ao_send_cad : append_only (_send_ctrl_alt_del W).
Proof. unfold _send_ctrl_alt_del. append_only_walk. Qed.

Lemma ao_type_char (c : ascii) : append_only (_type_char_vnc W c).
Proof. unfold _type_char_vnc. append_only_walk. Qed.

Lemma ao_type_chars (text : string) : append_only (type_chars_vnc W text).
Proof.
  unfold type_chars_vnc. apply ao_for_each. intros c.
  apply ao_try_except; [apply ao_type_char | intros; apply ao_ret].
Qed.

Lemma ao_capture (name : string) (v : option string) :
  append_only (_capture_screenshot W cfg name v).
Proof. unfold _capture_screenshot, llm_verify_ui_state. append_only_walk. Qed.

Lemma ao_detect : append_only (llm_detect_login_fields W).
Proof. unfold llm_detect_login_fields. append_only_walk. Qed.

End AppendOnlyOperations.

#[export] Hint Resolve ao_log_action ao_click_canvas ao_click_at ao_send_cad ao_type_char
  ao_type_chars ao_capture ao_detect : append_only.

Section AppendOnlyProtocols.
Variable W : World.
Variable cfg : Config.

Lemma ao_connect (url : string) : append_only (connect_to_vm W cfg url).
Proof. unfold connect_to_vm. append_only_walk. Qed.

Lemma ao_wait_desktop : append_only (wait_for_windows_desktop W cfg).
Proof. unfold wait_for_windows_desktop. append_only_walk. Qed.

Lemma ao_poll (remaining attempts : nat) :
  append_only (poll_login_screen W cfg remaining attempts).
Proof.
  revert attempts. induction remaining as [|r IH]; intros attempts; cbn [poll_login_screen].
  - apply ao_ret.
  - apply ao_bind; [append_only_walk | intros _].
    apply ao_bind; [apply ao_capture | intros [path [v|]]]; [|apply ao_ret].
    destruct (verified v); [apply ao_ret | apply IH].
Qed.

Lemma ao_switch_user : append_only (switch_user W cfg).
Proof.
  unfold switch_user. append_only_walk.
Qed.

Lemma ao_check_username (fd : FieldDetection) (username : string) :
  append_only (check_displayed_username W cfg fd username).
Proof.
  unfold check_displayed_username.
  destruct (displayed_username fd) as [d|]; [|apply ao_ret].
  destruct (nonempty d); [|apply ao_ret].
  destruct (username_matches d username); [apply ao_ret | apply ao_switch_user].
Qed.

Lemma ao_enter_password (password : string) : append_only (enter_password_only W password).
Proof. unfold enter_password_only. append_only_walk. Qed.

Lemma ao_enter_both (username password : string) :
  append_only (enter_username_and_password W username password).
Proof. unfold enter_username_and_password. append_only_walk. Qed.

Lemma ao_disable_lock : append_only (disable_screen_lock W).
Proof. unfold disable_screen_lock. append_only_walk. Qed.

Lemma ao_login (username password : string) (max_wait : nat) :
  append_only (login_windows W cfg username password max_wait).
Proof.
  unfold login_windows.
  apply ao_try_except.
  - apply ao_bind; [apply ao_poll | intros [ready path]].
    destruct (negb ready); [apply ao_raise|].
    apply ao_bind; [append_only_walk | intros fd].
    apply ao_bind; [apply ao_check_username | intros fd'].
    apply ao_bind; [apply ao_click_canvas | intros _].
    apply ao_bind.
    { destruct (password_only (Some fd')); [apply ao_enter_password | apply ao_enter_both]. }
    intros _. apply ao_bind; [apply ao_page | intros _].
    apply ao_bind; [apply ao_capture | intros [path' v]].
    destruct (login_decision v); [|apply ao_raise].
    apply ao_bind; [apply ao_disable_lock | intros _].
    apply ao_bind; [apply ao_capture | intros _; apply ao_ret].
  - intros e. destruct e; append_only_walk.
Qed.

Lemma ao_services_attempt (attempt : nat) : append_only (services_attempt W cfg attempt).
Proof. unfold services_attempt. append_only_walk. Qed.

Lemma ao_server_manager_attempt (attempt : nat) :
  append_only (server_manager_attempt W cfg attempt).
Proof. unfold server_manager_attempt. append_only_walk. Qed.

Lemma ao_powershell_attempt (o f c : string) (attempt : nat) :
  append_only (powershell_attempt W cfg o f c attempt).
Proof. unfold powershell_attempt. append_only_walk. Qed.

Lemma ao_services_manager : append_only (open_services_manager W cfg).
Proof.
  unfold open_services_manager, open_services_manager_attempts.
  apply ao_bind; [|intros; apply ao_ret].
  apply ao_for_attempts. apply ao_services_attempt.
Qed.

Lemma ao_check_service (name : string) : append_only (check_service_status W cfg name).
Proof. unfold check_service_status. append_only_walk. Qed.

Lemma ao_server_manager : append_only (open_server_manager W cfg).
Proof.
  unfold open_server_manager, open_server_manager_attempts.
  apply ao_bind; [|intros; apply ao_ret].
  apply ao_for_attempts. apply ao_server_manager_attempt.
Qed.

Lemma ao_powershell_command (command : string) :
  append_only (run_powershell_command W cfg command).
Proof.
  unfold run_powershell_command, run_powershell_command_attempts.
  apply ao_bind; [|intros; apply ao_ret].
  apply ao_for_attempts. apply ao_powershell_attempt.
Qed.

Lemma ao_powershell_interactive (command : string) :
  append_only (run_powershell_interactive W cfg command).
Proof.
  unfold run_powershell_interactive, run_powershell_interactive_attempts.
  apply ao_bind; [|intros; apply ao_ret].
  apply ao_for_attempts. apply ao_powershell_attempt.
Qed.

Lemma ao_unfence (c : string) : append_only (unfence c).
Proof. unfold unfence. append_only_walk. Qed.

Lemma ao_custom_step (results : list StepResult) (i : nat) (step : string) :
  append_only (custom_step W cfg results i step).
Proof.
  unfold custom_step.
  apply ao_bind; [apply ao_log_action | intros _].
  apply ao_try_except; [|intros e; append_only_walk].
  apply ao_bind.
  { destruct (llm_client cfg); [|apply ao_ret].
    apply ao_bind; [apply ao_chat | intros r].
    apply ao_bind; [apply ao_unfence | intros; apply ao_ret]. }
  intros cmd. destruct (truthy cmd).
  - apply ao_bind; [apply ao_powershell_interactive | intros ok].
    apply ao_bind; [apply ao_now | intros; apply ao_ret].
  - append_only_walk.
Qed.

Lemma ao_custom_steps (steps : list string) (results : list StepResult) (i : nat) :
  append_only (custom_steps_from W cfg results i steps).
Proof.
  revert results i. induction steps as [|st steps IH]; intros results i;
    cbn [custom_steps_from].
  - apply ao_ret.
  - apply ao_bind; [apply ao_custom_step | intros r; apply IH].
Qed.

End AppendOnlyProtocols.

Section AppendOnlyOrchestrator.
Variable W : World.
Variable settings : Settings.

Lemma ao_run_ps_commands (ps_commands : list string) (steps : list StepResult) (i : nat) :
  append_only (run_ps_commands W settings steps i ps_commands).
Proof.
  revert steps i. induction ps_commands as [|c cs IH]; intros steps i;
    cbn [run_ps_commands].
  - apply ao_ret.
  - apply ao_bind; [apply ao_powershell_interactive | intros ok].
    apply ao_bind; [apply ao_now | intros ts; apply IH].
Qed.

Lemma ao_verification_steps (url : string) (custom_steps ps_commands : list string) :
  append_only (verification_steps W settings url custom_steps ps_commands).
Proof.
  unfold verification_steps.
  apply ao_bind; [apply ao_connect | intros _].
  apply ao_bind; [apply ao_now | intros t1].
  apply ao_bind; [apply ao_wait_desktop | intros _].
  apply ao_bind; [apply ao_now | intros t2].
  apply ao_bind.
  { apply ao_try_except.
    - apply ao_bind; [apply ao_login | intros; apply ao_ret].
    - intros e; destruct e; auto with append_only. }
  intros login_error.
  apply ao_bind; [apply ao_now | intros t3].
  destruct login_error as [e|].
  - append_only_walk.
  - apply ao_bind; [apply ao_run_ps_commands | intros steps].
    apply ao_bind.
    { destruct custom_steps as [|c cs]; [apply ao_ret|].
      apply ao_bind; [apply ao_custom_steps | intros; apply ao_ret]. }
    intros steps'. append_only_walk.
Qed.

End AppendOnlyOrchestrator.

(** What [_perform_verification] selects for the report: after a failed
    login everything from the first login-related path on, and the whole
    list when no path is login-related; otherwise everything from the
    first path of a finished login on. *)
Definition report_selection (login_failed : option bool) (all_screenshots : list string)
  : list string :=
  match login_failed with
  | Some _ => failure_screenshots all_screenshots
  | None => from_first logged_in_related all_screenshots
  end.

(** The report of [_perform_verification] is made from copies: the log as
    it stands, and the selected tail of the screenshot list. *)
Definition reports_lists (m : M VerificationResults) : Prop :=
  forall s res s',
    m s = (Ok res, s') ->
    res_action_log res = action_log s'
    /\ res_screenshots res = report_selection (res_login_failed res) (screenshots s')
    /\ exists dropped, screenshots s' = (dropped ++ res_screenshots res)%list.

Section Reports.

Lemma from_first_is_tail (p : string -> bool) (l : list string) :
  exists dropped, l = (dropped ++ from_first p l)%list.
Proof.
  induction l as [|x l [d IH]]; cbn [from_first].
  - now exists [].
  - destruct (p x); [now exists [] | exists (x :: d)]. cbn. now rewrite <- IH.
Qed.

Lemma failure_screenshots_is_tail (l : list string) :
  exists dropped, l = (dropped ++ failure_screenshots l)%list.
Proof.
  unfold failure_screenshots.
  destruct (from_first login_related l) eqn:E; [now exists []|].
  rewrite <- E. apply from_first_is_tail.
Qed.

Lemma reports_bind {A} (m : M A) (f : A -> M VerificationResults) :
  (forall a, reports_lists (f a)) -> reports_lists (bind m f).
Proof.
  intros Hf s res s'. unfold bind.
  destruct (m s) as [[a|e] s1]; [apply Hf | discriminate].
Qed.

Lemma reports_tail (steps : list StepResult) (select : list string -> list string)
    (failed : option bool) (err : option string) :
  (forall l, select l = report_selection failed l) ->
  (forall l, exists dropped, l = (dropped ++ select l)%list) ->
  reports_lists
    (all_screenshots <- get_screenshots ;;
     action_log <- get_action_log ;;
     ret (mkResults steps (select all_screenshots) action_log failed err))%monad.
Proof.
  intros Hrep Hsel s res s' E. injection E as <- <-. split; [reflexivity|].
  split; [apply Hrep | apply Hsel].
Qed.

Lemma reports_verification_steps (W : World) (settings : Settings) (url : string)
    (custom_steps ps_commands : list string) :
  reports_lists (verification_steps W settings url custom_steps ps_commands).
Proof.
  unfold verification_steps.
  apply reports_bind. intros _. apply reports_bind. intros t1.
  apply reports_bind. intros _. apply reports_bind. intros t2.
  apply reports_bind. intros login_error. apply reports_bind. intros t3.
  destruct login_error as [e|].
  - apply (reports_tail _ failure_screenshots);
      [reflexivity | apply failure_screenshots_is_tail].
  - apply reports_bind. intros steps. apply reports_bind. intros steps'.
    apply (reports_tail _ (from_first logged_in_related));
      [reflexivity | apply from_first_is_tail].
Qed.

Lemma reports_perform_verification (W : World) (settings : Settings) (url : string)
    (custom_steps ps_commands : list string) :
  reports_lists (_perform_verification W settings url custom_steps ps_commands).
Proof.
  intros s res s'. unfold _perform_verification, with_vm_automation, bind.
  change (new_vm_automation s) with (Ok tt, fresh_vm_automation s). cbv beta iota.
  unfold start at 1, page at 1.
  destruct (page_fault W (page_count (fresh_vm_automation s))); [discriminate|].
  unfold try_finally.
  match goal with |- context [verification_steps W settings url custom_steps ps_commands ?s0] =>
    pose proof (reports_verification_steps W settings url custom_steps ps_commands s0) as H;
    destruct (verification_steps W settings url custom_steps ps_commands s0) as [r s2]
  end.
  unfold close, page. destruct (page_fault W (page_count s2)); [discriminate|].
  destruct r as [res0|e]; [|discriminate].
  intros [= <- <-]. exact (H res0 s2 eq_refl).
Qed.

End Reports.

(** C10, the claim as stated fails: the screenshots are filtered inside
    the core, by the step orchestrator.  In a run whose every state the
    oracle confirms, the engine keeps five screenshots and
    [_perform_verification] hands on the last two; the three taken
    before the login is verified are not in its result. *)
Lemma filtering_inside_the_core_counterexample :
  let W := scripted_world
             (fun _ => Some (lines ["VERIFIED: yes"; "CONFIDENCE: high";
                                    "DESCRIPTION: desktop"])) in
  exists res s',
    _perform_verification W (example_settings 60) "https://display" [] [] initial_state
    = (Ok res, s')
    /\ screenshots s'
       = ["screenshots/T0_01_novnc_connected.png";
          "screenshots/T2_02_windows_desktop.png";
          "screenshots/T5_03_login_screen_check_1.png";
          "screenshots/T7_04_login_verify.png";
          "screenshots/T8_04_logged_in.png"]
    /\ res_screenshots res
       = ["screenshots/T7_04_login_verify.png"; "screenshots/T8_04_logged_in.png"]
    /\ res_login_failed res = None.
Proof.
  cbv zeta. eexists _, _. split; [vm_compute; reflexivity|].
  repeat split.
Qed.

(** C10, amended.  Every operation of [VMAutomation] leaves the
    screenshots and the action-log entries it finds in place and only
    appends to the two lists; the getters hand out the lists without
    touching them; the body of [_perform_verification] does the same.
    The selection for the report is made there, in the step
    orchestrator: the action log is handed on as it stands, and of the
    screenshots the tail [report_selection] picks (after a failed login
    from the first login-related path on, or all; otherwise from the
    first path of a finished login on), taken from the copy while the
    list of the object stays whole. *)
Theorem lists_are_append_only (W : World) (cfg : Config) (settings : Settings) :
  (forall name verify_state, append_only (_capture_screenshot W cfg name verify_state))
  /\ (forall action details, append_only (_log_action W action details))
  /\ (forall url, append_only (connect_to_vm W cfg url))
  /\ append_only (wait_for_windows_desktop W cfg)
  /\ (forall username password max_wait,
        append_only (login_windows W cfg username password max_wait))
  /\ append_only (open_services_manager W cfg)
  /\ (forall service_name, append_only (check_service_status W cfg service_name))
  /\ append_only (open_server_manager W cfg)
  /\ (forall command, append_only (run_powershell_command W cfg command))
  /\ (forall command, append_only (run_powershell_interactive W cfg command))
  /\ (forall steps, append_only (perform_custom_steps W cfg steps))
  /\ (forall s, get_screenshots s = (Ok (screenshots s), s)
                /\ get_action_log s = (Ok (action_log s), s))
  /\ (forall url custom_steps ps_commands,
        append_only (verification_steps W settings url custom_steps ps_commands)
        /\ reports_lists (verification_steps W settings url custom_steps ps_commands)
        /\ reports_lists (_perform_verification W settings url custom_steps ps_commands)).
Proof.
  split; [intros; apply ao_capture|].
  split; [intros; apply ao_log_action|].
  split; [intros; apply ao_connect|].
  split; [apply ao_wait_desktop|].
  split; [intros; apply ao_login|].
  split; [apply ao_services_manager|].
  split; [intros; apply ao_check_service|].
  split; [apply ao_server_manager|].
  split; [intros; apply ao_powershell_command|].
  split; [intros; apply ao_powershell_interactive|].
  split; [intros; apply ao_custom_steps|].
  split; [intros; split; reflexivity|].
  intros url custom_steps ps_commands.
  split; [apply ao_verification_steps|].
  split; [apply reports_verification_steps | apply reports_perform_verification].
Qed.

(* ================================================================== *)
(** * Further properties of the code *)

(** ** Relations every operation of [VMAutomation] keeps *)

(** A relation between the state before and after that is reflexive,
    transitive and kept by the primitives an operation of
    [VMAutomation] is made of. *)
Record Frame (R : State -> State -> Prop) : Prop := mkFrame {
  frame_refl : forall s, R s s;
  frame_trans : forall s1 s2 s3, R s1 s2 -> R s2 s3 -> R s1 s3;
  frame_page : forall W c s, R s (snd (page W c s));
  frame_now : forall W s, R s (snd (now W s));
  frame_analyze : forall W s, R s (snd (analyze_screenshot W s));
  frame_chat : forall W s, R s (snd (llm_chat W s));
  frame_add_screenshot : forall p s, R s (snd (add_screenshot p s));
  frame_add_log : forall e s, R s (snd (add_log e s));
  frame_add_verification : forall r s, R s (snd (add_verification r s))
}.

Definition keeps (R : State -> State -> Prop) {A} (m : M A) : Prop :=
  forall s, R s (snd (m s)).

Section Keeps.
Variable R : State -> State -> Prop.
Hypothesis HR : Frame R.

Lemma keeps_ret {A} (a : A) : keeps R (ret a).
Proof. intros s. apply (frame_refl R HR). Qed.

Lemma keeps_raise {A} (e : exn) : keeps R (@raise A e).
Proof. intros s. apply (frame_refl R HR). Qed.

Lemma keeps_bind {A B} (m : M A) (f : A -> M B) :
  keeps R m -> (forall a, keeps R (f a)) -> keeps R (bind m f).
Proof.
  intros Hm Hf s. unfold bind. specialize (Hm s).
  destruct (m s) as [[a|e] s1]; cbn [snd] in *; [|exact Hm].
  eapply (frame_trans R HR); [exact Hm | apply Hf].
Qed.

Lemma keeps_try_except {A} (m : M A) (h : exn -> M A) :
  keeps R m -> (forall e, keeps R (h e)) -> keeps R (try_except m h).
Proof.
  intros Hm Hh s. unfold try_except. specialize (Hm s).
  destruct (m s) as [[a|e] s1]; cbn [snd] in *; [exact Hm|].
  eapply (frame_trans R HR); [exact Hm | apply Hh].
Qed.

Lemma keeps_try_finally {A} (m : M A) (c : M unit) :
  keeps R m -> keeps R c -> keeps R (try_finally m c).
Proof.
  intros Hm Hc s. unfold try_finally. specialize (Hm s).
  destruct (m s) as [r s1]. specialize (Hc s1).
  destruct (c s1) as [[u|e] s2]; cbn [snd] in *;
    eapply (frame_trans R HR); eassumption.
Qed.

Lemma keeps_for_each {A} (xs : list A) (body : A -> M unit) :
  (forall x, keeps R (body x)) -> keeps R (for_each xs body).
Proof.
  intros Hb. induction xs as [|x xs IH]; cbn [for_each].
  - apply keeps_ret.
  - apply keeps_bind; [apply Hb | intros _; exact IH].
Qed.

Lemma keeps_for_attempts {A} (body : nat -> M (ctl A)) (otherwise : A) (n first : nat) :
  (forall attempt, keeps R (body attempt)) ->
  keeps R (for_attempts n first body otherwise).
Proof.
  intros Hb. revert first. induction n as [|n IH]; intros first; cbn [for_attempts].
  - apply keeps_ret.
  - apply keeps_bind; [apply Hb | intros [|a]].
    + apply keeps_bind; [apply IH | intros [a tried]; apply keeps_ret].
    + apply keeps_ret.
Qed.

Lemma keeps_page (W : World) (c : PageCall) : keeps R (page W c).
Proof. intros s. apply (frame_page R HR). Qed.

Lemma keeps_now (W : World) : keeps R (now W).
Proof. intros s. apply (frame_now R HR). Qed.

Lemma keeps_analyze (W : World) : keeps R (analyze_screenshot W).
Proof. intros s. apply (frame_analyze R HR). Qed.

Lemma keeps_chat (W : World) : keeps R (llm_chat W).
Proof. intros s. apply (frame_chat R HR). Qed.

Lemma keeps_add_screenshot (p : string) : keeps R (add_screenshot p).
Proof. intros s. apply (frame_add_screenshot R HR). Qed.

Lemma keeps_add_log (e : LogEntry) : keeps R (add_log e).
Proof. intros s. apply (frame_add_log R HR). Qed.

Lemma keeps_add_verification (r : VerificationRecord) : keeps R (add_verification r).
Proof. intros s. apply (frame_add_verification R HR). Qed.

Lemma keeps_get_screenshots : keeps R get_screenshots.
Proof. intros s. apply (frame_refl R HR). Qed.

Lemma keeps_get_action_log : keeps R get_action_log.
Proof. intros s. apply (frame_refl R HR). Qed.

Lemma keeps_get_vm_id : keeps R get_vm_id.
Proof. intros s. apply (frame_refl R HR). Qed.

End Keeps.

(** Walks down a computation built from the combinators. *)
Ltac keeps_step HR :=
  first
    [ apply (keeps_ret _ HR)
    | apply (keeps_raise _ HR)
    | apply (keeps_page _ HR)
    | apply (keeps_now _ HR)
    | apply (keeps_analyze _ HR)
    | apply (keeps_chat _ HR)
    | apply (keeps_add_screenshot _ HR)
    | apply (keeps_add_log _ HR)
    | apply (keeps_add_verification _ HR)
    | apply (keeps_get_screenshots _ HR)
    | apply (keeps_get_action_log _ HR)
    | apply (keeps_get_vm_id _ HR)
    | solve [auto]
    | apply (keeps_bind _ HR); [|intros ?]
    | apply (keeps_try_except _ HR); [|intros ?]
    | apply (keeps_for_each _ HR); intros ?
    | apply (keeps_for_attempts _ HR); intros ?
    | match goal with
      | |- keeps _ (match ?x with _ => _ end) => destruct x
      end ].

Ltac keeps_walk HR := repeat keeps_step HR.

Section KeepsOperations.
Variable R : State -> State -> Prop.
Hypothesis HR : Frame R.
Variable W : World.
Variable cfg : Config.

Lemma keeps_log_action (a d : string) : keeps R (_log_action W a d).
Proof. unfold _log_action. keeps_walk HR. Qed.

Lemma keeps_click_canvas : keeps R (_click_vnc_canvas W).
Proof. unfold _click_vnc_canvas. keeps_walk HR. Qed.

Lemma keeps_click_at (x y : nat) : keeps R (_click_vnc_at_coordinates W x y).
Proof. unfold _click_vnc_at_coordinates, _click_vnc_canvas. keeps_walk HR. Qed.

Lemma keeps_send_cad : keeps R (_send_ctrl_alt_del W).
Proof. unfold _send_ctrl_alt_del. keeps_walk HR. Qed.

Lemma keeps_type_char (c : ascii) : keeps R (_type_char_vnc W c).
Proof. unfold _type_char_vnc. keeps_walk HR. Qed.

Lemma keeps_type_chars (text : string) : keeps R (type_chars_vnc W text).
Proof.
  unfold type_chars_vnc. apply (keeps_for_each _ HR). intros c.
  apply (keeps_try_except _ HR); [apply keeps_type_char | intros; apply (keeps_ret _ HR)].
Qed.

Lemma keeps_capture (name : string) (v : option string) :
  keeps R (_capture_screenshot W cfg name v).
Proof. unfold _capture_screenshot, llm_verify_ui_state. keeps_walk HR. Qed.

Lemma keeps_detect : keeps R (llm_detect_login_fields W).
Proof. unfold llm_detect_login_fields. keeps_walk HR. Qed.

Local Hint Resolve keeps_log_action keeps_click_canvas keeps_click_at keeps_send_cad
  keeps_type_char keeps_type_chars keeps_capture keeps_detect : core.

Lemma keeps_connect (url : string) : keeps R (connect_to_vm W cfg url).
Proof. unfold connect_to_vm. keeps_walk HR. Qed.

Lemma keeps_wait_desktop : keeps R (wait_for_windows_desktop W cfg).
Proof. unfold wait_for_windows_desktop. keeps_walk HR. Qed.

Lemma keeps_poll (remaining attempts : nat) :
  keeps R (poll_login_screen W cfg remaining attempts).
Proof.
  revert attempts. induction remaining as [|r IH]; intros attempts; cbn [poll_login_screen].
  - apply (keeps_ret _ HR).
  - apply (keeps_bind _ HR); [keeps_walk HR | intros _].
    apply (keeps_bind _ HR); [apply keeps_capture | intros [path [v|]]];
      [|apply (keeps_ret _ HR)].
    destruct (verified v); [apply (keeps_ret _ HR) | apply IH].
Qed.

Lemma keeps_switch_user : keeps R (switch_user W cfg).
Proof. unfold switch_user. keeps_walk HR. Qed.

Lemma keeps_check_username (fd : FieldDetection) (username : string) :
  keeps R (check_displayed_username W cfg fd username).
Proof.
  unfold check_displayed_username.
  destruct (displayed_username fd) as [d|]; [|apply (keeps_ret _ HR)].
  destruct (nonempty d); [|apply (keeps_ret _ HR)].
  destruct (username_matches d username);
    [apply (keeps_ret _ HR) | apply keeps_switch_user].
Qed.

Lemma keeps_enter_password (password : string) : keeps R (enter_password_only W password).
Proof. unfold enter_password_only. keeps_walk HR. Qed.

Lemma keeps_enter_both (username password : string) :
  keeps R (enter_username_and_password W username password).
Proof. unfold enter_username_and_password. keeps_walk HR. Qed.

Lemma keeps_disable_lock : keeps R (disable_screen_lock W).
Proof. unfold disable_screen_lock. keeps_walk HR. Qed.

Local Hint Resolve keeps_poll keeps_check_username keeps_enter_password keeps_enter_both
  keeps_disable_lock : core.

Lemma keeps_login (username password : string) (max_wait : nat) :
  keeps R (login_windows W cfg username password max_wait).
Proof.
  unfold login_windows.
  apply (keeps_try_except _ HR).
  - apply (keeps_bind _ HR); [apply keeps_poll | intros [ready path]].
    destruct (negb ready); [apply (keeps_raise _ HR)|].
    apply (keeps_bind _ HR); [keeps_walk HR | intros fd].
    apply (keeps_bind _ HR); [apply keeps_check_username | intros fd'].
    apply (keeps_bind _ HR); [apply keeps_click_canvas | intros _].
    apply (keeps_bind _ HR).
    { destruct (password_only (Some fd'));
        [apply keeps_enter_password | apply keeps_enter_both]. }
    intros _. apply (keeps_bind _ HR); [apply (keeps_page _ HR) | intros _].
    apply (keeps_bind _ HR); [apply keeps_capture | intros [path' v]].
    destruct (login_decision v); [|apply (keeps_raise _ HR)].
    apply (keeps_bind _ HR); [apply keeps_disable_lock | intros _].
    apply (keeps_bind _ HR); [apply keeps_capture | intros _; apply (keeps_ret _ HR)].
  - intros e. destruct e; keeps_walk HR.
Qed.

Lemma keeps_services_attempt (attempt : nat) : keeps R (services_attempt W cfg attempt).
Proof. unfold services_attempt. keeps_walk HR. Qed.

Lemma keeps_server_manager_attempt (attempt : nat) :
  keeps R (server_manager_attempt W cfg attempt).
Proof. unfold server_manager_attempt. keeps_walk HR. Qed.

Lemma keeps_powershell_attempt (o f c : string) (attempt : nat) :
  keeps R (powershell_attempt W cfg o f c attempt).
Proof. unfold powershell_attempt. keeps_walk HR. Qed.

Lemma keeps_services_manager : keeps R (open_services_manager W cfg).
Proof.
  unfold open_services_manager, open_services_manager_attempts.
  apply (keeps_bind _ HR); [|intros; apply (keeps_ret _ HR)].
  apply (keeps_for_attempts _ HR). apply keeps_services_attempt.
Qed.

Lemma keeps_check_service (name : string) : keeps R (check_service_status W cfg name).
Proof. unfold check_service_status. keeps_walk HR. Qed.

Lemma keeps_server_manager : keeps R (open_server_manager W cfg).
Proof.
  unfold open_server_manager, open_server_manager_attempts.
  apply (keeps_bind _ HR); [|intros; apply (keeps_ret _ HR)].
  apply (keeps_for_attempts _ HR). apply keeps_server_manager_attempt.
Qed.

Lemma keeps_powershell_command (command : string) :
  keeps R (run_powershell_command W cfg command).
Proof.
  unfold run_powershell_command, run_powershell_command_attempts.
  apply (keeps_bind _ HR); [|intros; apply (keeps_ret _ HR)].
  apply (keeps_for_attempts _ HR). apply keeps_powershell_attempt.
Qed.

Lemma keeps_powershell_interactive (command : string) :
  keeps R (run_powershell_interactive W cfg command).
Proof.
  unfold run_powershell_interactive, run_powershell_interactive_attempts.
  apply (keeps_bind _ HR); [|intros; apply (keeps_ret _ HR)].
  apply (keeps_for_attempts _ HR). apply keeps_powershell_attempt.
Qed.

Lemma keeps_unfence (c : string) : keeps R (unfence c).
Proof. unfold unfence. keeps_walk HR. Qed.

Lemma keeps_custom_step (results : list StepResult) (i : nat) (step : string) :
  keeps R (custom_step W cfg results i step).
Proof.
  unfold custom_step.
  apply (keeps_bind _ HR); [apply keeps_log_action | intros _].
  apply (keeps_try_except _ HR); [|intros e; keeps_walk HR].
  apply (keeps_bind _ HR).
  { destruct (llm_client cfg); [|apply (keeps_ret _ HR)].
    apply (keeps_bind _ HR); [apply (keeps_chat _ HR) | intros r].
    apply (keeps_bind _ HR); [apply keeps_unfence | intros; apply (keeps_ret _ HR)]. }
  intros cmd. destruct (truthy cmd).
  - apply (keeps_bind _ HR); [apply keeps_powershell_interactive | intros ok].
    apply (keeps_bind _ HR); [apply (keeps_now _ HR) | intros; apply (keeps_ret _ HR)].
  - keeps_walk HR.
Qed.

Lemma keeps_custom_steps (steps : list string) (results : list StepResult) (i : nat) :
  keeps R (custom_steps_from W cfg results i steps).
Proof.
  revert results i. induction steps as [|st steps IH]; intros results i;
    cbn [custom_steps_from].
  - apply (keeps_ret _ HR).
  - apply (keeps_bind _ HR); [apply keeps_custom_step | intros r; apply IH].
Qed.

Lemma keeps_start : keeps R (start W).
Proof. apply (keeps_page _ HR). Qed.

Lemma keeps_close : keeps R (close W).
Proof. apply (keeps_page _ HR). Qed.

End KeepsOperations.

Section KeepsOrchestrator.
Variable R : State -> State -> Prop.
Hypothesis HR : Frame R.
Variable W : World.
Variable settings : Settings.

Lemma keeps_run_ps_commands (ps_commands : list string) (steps : list StepResult) (i : nat) :
  keeps R (run_ps_commands W settings steps i ps_commands).
Proof.
  revert steps i. induction ps_commands as [|c cs IH]; intros steps i;
    cbn [run_ps_commands].
  - apply (keeps_ret _ HR).
  - apply (keeps_bind _ HR); [apply (keeps_powershell_interactive _ HR) | intros ok].
    apply (keeps_bind _ HR); [apply (keeps_now _ HR) | intros ts; apply IH].
Qed.

Lemma keeps_verification_steps (url : string) (custom_steps ps_commands : list string) :
  keeps R (verification_steps W settings url custom_steps ps_commands).
Proof.
  unfold verification_steps.
  apply (keeps_bind _ HR); [apply (keeps_connect _ HR) | intros _].
  apply (keeps_bind _ HR); [apply (keeps_now _ HR) | intros t1].
  apply (keeps_bind _ HR); [apply (keeps_wait_desktop _ HR) | intros _].
  apply (keeps_bind _ HR); [apply (keeps_now _ HR) | intros t2].
  apply (keeps_bind _ HR).
  { apply (keeps_try_except _ HR).
    - apply (keeps_bind _ HR); [apply (keeps_login _ HR) | intros; apply (keeps_ret _ HR)].
    - intros e; destruct e; first [apply (keeps_ret _ HR) | apply (keeps_raise _ HR)]. }
  intros login_error.
  apply (keeps_bind _ HR); [apply (keeps_now _ HR) | intros t3].
  destruct login_error as [e|].
  - keeps_walk HR.
  - apply (keeps_bind _ HR); [apply keeps_run_ps_commands | intros steps].
    apply (keeps_bind _ HR).
    { destruct custom_steps as [|c cs]; [apply (keeps_ret _ HR)|].
      apply (keeps_bind _ HR);
        [apply (keeps_custom_steps _ HR) | intros; apply (keeps_ret _ HR)]. }
    intros steps'. keeps_walk HR.
Qed.

End KeepsOrchestrator.

(** ** The provider calls of a run *)

(** The provider calls counted as teardown are left as they are, and so
    is everything else about the provider. *)
Definition same_teardowns (s s' : State) : Prop :=
  teardown_count (api_calls s') = teardown_count (api_calls s).

(** The list [verification_results] only grows. *)
Definition extends_verifications (s s' : State) : Prop :=
  exists more, verification_results s' = (verification_results s ++ more)%list.

Lemma frame_same_teardowns : Frame same_teardowns.
Proof.
  split; unfold same_teardowns; try reflexivity.
  - intros s1 s2 s3 H1 H2. now rewrite H2.
  - intros W c s. unfold page. destruct (page_fault W (page_count s)); reflexivity.
  - intros W s. unfold llm_chat. destruct (chat W (chat_count s)); reflexivity.
Qed.

Lemma frame_extends_verifications : Frame extends_verifications.
Proof.
  split; unfold extends_verifications.
  - intros s. exists []. now rewrite app_nil_r.
  - intros s1 s2 s3 [a Ha] [b Hb]. exists (a ++ b)%list. now rewrite Hb, Ha, app_assoc.
  - intros W c s. exists []. unfold page.
    destruct (page_fault W (page_count s)); cbn; now rewrite app_nil_r.
  - intros W s. exists []. cbn. now rewrite app_nil_r.
  - intros W s. exists []. cbn. now rewrite app_nil_r.
  - intros W s. exists []. unfold llm_chat.
    destruct (chat W (chat_count s)); cbn; now rewrite app_nil_r.
  - intros p s. exists []. cbn. now rewrite app_nil_r.
  - intros e s. exists []. cbn. now rewrite app_nil_r.
  - intros r s. exists [r]. reflexivity.
Qed.

Section Teardown.
Variable W : World.
Variable settings : Settings.

Let HT := frame_same_teardowns.

Lemma keeps_api_other {A} (err : string -> exn) (c : ApiCall) (answer : reply A) :
  match c with DestroyVM _ => False | _ => True end ->
  keeps same_teardowns (external err c answer).
Proof.
  intros Hc s. unfold same_teardowns, external, teardown_count.
  destruct answer; cbn [snd api_calls]; rewrite filter_app, length_app;
    destruct c; try contradiction; cbn; lia.
Qed.

Lemma keeps_set_vm_id (v : option string) : keeps same_teardowns (set_vm_id v).
Proof. intros s. reflexivity. Qed.

Lemma keeps_new_vm_automation : keeps same_teardowns new_vm_automation.
Proof. intros s. reflexivity. Qed.

Lemma keeps_perform_verification (url : string) (custom_steps ps_commands : list string) :
  keeps same_teardowns (_perform_verification W settings url custom_steps ps_commands).
Proof.
  unfold _perform_verification, with_vm_automation.
  apply (keeps_bind _ HT); [apply keeps_new_vm_automation | intros _].
  apply (keeps_bind _ HT); [apply (keeps_start _ HT) | intros _].
  apply (keeps_try_finally _ HT);
    [apply (keeps_verification_steps _ HT) | apply (keeps_close _ HT)].
Qed.

Lemma keeps_run_body (agent : option string) (custom_steps ps_commands : list string)
    (h : exn -> M RunResult) :
  (forall e, keeps same_teardowns (h e)) ->
  keeps same_teardowns
    (try_except
       (snapshot_info <- _get_latest_snapshot W agent ;;
        agent_info <-
          (if truthy (agent_id snapshot_info) then
             try_except
               (a <- api (GetAgentDetails
                            (match agent_id snapshot_info with Some a => a | None => "" end))
                         (agent_details W) ;;
                ret (Some a))
               (fun _ => ret None)
           else ret None) ;;
        vm_info <- _create_and_start_vm W settings snapshot_info ;;
        novnc_url <- _get_novnc_url W ;;
        verification_results <- _perform_verification W settings novnc_url custom_steps
                                  ps_commands ;;
        end_time <- now W ;;
        report <- _generate_report W verification_results ;;
        vm <- get_vm_id ;;
        match res_login_failed verification_results with
        | Some true =>
            ret (mkRun false (Some true) (Some (snapshot_id snapshot_info)) vm
                   (Some report) (Some verification_results)
                   (Some (match res_error verification_results with
                          | Some m => m
                          | None => "Login failed"
                          end)))
        | _ =>
            ret (mkRun true None (Some (snapshot_id snapshot_info)) vm
                   (Some report) (Some verification_results) None)
        end)%monad h).
Proof.
  intros Hh. apply (keeps_try_except _ HT); [|exact Hh].
  apply (keeps_bind _ HT).
  { unfold _get_latest_snapshot. apply (keeps_bind _ HT).
    - apply keeps_api_other. exact I.
    - intros [sn|]; [apply (keeps_ret _ HT) | apply (keeps_raise _ HT)]. }
  intros snap. apply (keeps_bind _ HT).
  { destruct (truthy (agent_id snap)); [|apply (keeps_ret _ HT)].
    apply (keeps_try_except _ HT); [|intros; apply (keeps_ret _ HT)].
    apply (keeps_bind _ HT); [apply keeps_api_other; exact I | intros; apply (keeps_ret _ HT)]. }
  intros info. apply (keeps_bind _ HT).
  { unfold _create_and_start_vm, _get_device_id_from_snapshot.
    apply (keeps_bind _ HT).
    { destruct (locations snap); [apply (keeps_raise _ HT)|].
      destruct (find _ _); apply (keeps_ret _ HT). }
    intros dev. apply (keeps_bind _ HT); [apply (keeps_now _ HT) | intros ts].
    apply (keeps_bind _ HT); [apply keeps_api_other; exact I | intros v].
    apply (keeps_bind _ HT); [apply keeps_set_vm_id | intros _].
    apply (keeps_bind _ HT); [apply keeps_api_other; exact I | intros ready].
    destruct (negb ready); [apply (keeps_raise _ HT) | apply keeps_api_other; exact I]. }
  intros vm_info. apply (keeps_bind _ HT).
  { unfold _get_novnc_url. apply (keeps_bind _ HT); [apply (keeps_get_vm_id _ HT) | intros vm].
    apply (keeps_bind _ HT); [apply keeps_api_other; exact I | intros url].
    destruct (negb (nonempty url)); [apply (keeps_raise _ HT) | apply (keeps_ret _ HT)]. }
  intros url. apply (keeps_bind _ HT); [apply keeps_perform_verification | intros res].
  apply (keeps_bind _ HT); [apply (keeps_now _ HT) | intros t].
  apply (keeps_bind _ HT).
  { unfold _generate_report. apply (keeps_bind _ HT).
    - apply (keeps_try_except _ HT); [apply (keeps_chat _ HT) | intros; apply (keeps_ret _ HT)].
    - intros summary. apply keeps_api_other. exact I. }
  intros report. apply (keeps_bind _ HT); [apply (keeps_get_vm_id _ HT) | intros vm].
  destruct (res_login_failed res) as [[|]|]; apply (keeps_ret _ HT).
Qed.

End Teardown.

(** The state [_cleanup_vm] leaves. *)
Definition after_cleanup (s : State) : State :=
  match vm_id s with
  | Some id => if nonempty id then called (DestroyVM id) s else s
  | None => s
  end.

Lemma cleanup_state (W : World) (s : State) :
  _cleanup_vm W s = (Ok tt, after_cleanup s).
Proof.
  unfold _cleanup_vm, after_cleanup, bind, get_vm_id.
  destruct (vm_id s) as [id|]; [|reflexivity].
  destruct (nonempty id); [|reflexivity].
  unfold try_except, api, external. destruct (destroyed W); reflexivity.
Qed.

Lemma snd_run_verification (W : World) (settings : Settings) (agent : option string)
    (custom_steps ps_commands : list string) (s : State) :
  snd (run_verification W settings agent custom_steps ps_commands s)
  = after_cleanup
      (snd (try_except
              (snapshot_info <- _get_latest_snapshot W agent ;;
               agent_info <-
                 (if truthy (agent_id snapshot_info) then
                    try_except
                      (a <- api (GetAgentDetails
                                   (match agent_id snapshot_info with
                                    | Some a => a
                                    | None => ""
                                    end))
                                (agent_details W) ;;
                       ret (Some a))
                      (fun _ => ret None)
                  else ret None) ;;
               vm_info <- _create_and_start_vm W settings snapshot_info ;;
               novnc_url <- _get_novnc_url W ;;
               verification_results <- _perform_verification W settings novnc_url
                                         custom_steps ps_commands ;;
               end_time <- now W ;;
               report <- _generate_report W verification_results ;;
               vm <- get_vm_id ;;
               match res_login_failed verification_results with
               | Some true =>
                   ret (mkRun false (Some true) (Some (snapshot_id snapshot_info)) vm
                          (Some report) (Some verification_results)
                          (Some (match res_error verification_results with
                                 | Some m => m
                                 | None => "Login failed"
                                 end)))
               | _ =>
                   ret (mkRun true None (Some (snapshot_id snapshot_info)) vm
                          (Some report) (Some verification_results) None)
               end)%monad
              (fun e => ret (mkRun false None None None None None (Some (exn_msg e))))
              (ticked s))).
Proof.
  unfold run_verification. unfold bind at 1. cbn [now]. fold (ticked s).
  unfold try_finally.
  match goal with |- context [try_except ?b ?h (ticked s)] =>
    destruct (try_except b h (ticked s)) as [r s1] end.
  rewrite cleanup_state. reflexivity.
Qed.

(** What a run adds to the [destroy_vm] calls, read off the state it
    leaves. *)
Definition torn_down_once (s s' : State) : Prop :=
  match vm_id s' with
  | Some id =>
      if nonempty id
      then exists calls,
             api_calls s' = (calls ++ [DestroyVM id])%list
             /\ teardown_count calls = teardown_count (api_calls s)
      else teardown_count (api_calls s') = teardown_count (api_calls s)
  | None => teardown_count (api_calls s') = teardown_count (api_calls s)
  end.

Lemma run_torn_down_once (W : World) (settings : Settings) (agent : option string)
    (custom_steps ps_commands : list string) (s : State) :
  torn_down_once s (snd (run_verification W settings agent custom_steps ps_commands s)).
Proof.
  unfold torn_down_once. rewrite snd_run_verification.
  set (s1 := snd (try_except _ _ _)).
  assert (K : teardown_count (api_calls s1) = teardown_count (api_calls s)).
  { exact (keeps_run_body W settings agent custom_steps ps_commands _
             (fun e => keeps_ret _ frame_same_teardowns _) (ticked s)). }
  unfold after_cleanup.
  destruct (vm_id s1) as [id|] eqn:Evm; [destruct (nonempty id) eqn:Eid|].
  - cbn [called vm_id api_calls]. rewrite Evm, Eid.
    exists (api_calls s1). split; [reflexivity | exact K].
  - rewrite Evm, Eid. exact K.
  - rewrite Evm. exact K.
Qed.

(** X1.  Teardown in every world.  Whatever the provider, the page and the
    oracle do, [run_verification] ends with exactly one [destroy_vm] call,
    made last and for the [vm_id] the orchestrator holds at the end, when
    that id is set and not empty, and with none otherwise. *)
Theorem teardown_exactly_once (W : World) (settings : Settings) (agent : option string)
    (custom_steps ps_commands : list string) (s : State) :
  let s' := snd (run_verification W settings agent custom_steps ps_commands s) in
  match vm_id s' with
  | Some id =>
      if nonempty id
      then exists calls,
             api_calls s' = (calls ++ [DestroyVM id])%list
             /\ teardown_count calls = teardown_count (api_calls s)
      else teardown_count (api_calls s') = teardown_count (api_calls s)
  | None => teardown_count (api_calls s') = teardown_count (api_calls s)
  end.
Proof. exact (run_torn_down_once W settings agent custom_steps ps_commands s). Qed.

(** X2.  A run that finds no snapshot creates no machine; it leaves [vm_id] as
    the previous run set it and destroys that machine again. *)
Theorem stale_vm_id_is_destroyed_again (W : World) (settings : Settings)
    (agent : option string) (custom_steps ps_commands : list string) (old : string)
    (s : State) :
  latest_snapshot W = Answer None ->
  vm_id s = Some old ->
  nonempty old = true ->
  exists r s',
    run_verification W settings agent custom_steps ps_commands s = (Ok r, s')
    /\ success r = false
    /\ error r = Some "No snapshots available"
    /\ login_failed r = None
    /\ vm_id s' = Some old
    /\ api_calls s' = (api_calls s ++ [GetLatestSnapshot agent; DestroyVM old])%list.
Proof.
  intros Hsnap Hvm Hne.
  eexists. exists (called (DestroyVM old) (called (GetLatestSnapshot agent) (ticked s))).
  split.
  - unfold run_verification.
    eapply runs_bind; [apply runs_now|].
    eapply runs_finally.
    + eapply runs_handler; [|apply runs_ret].
      eapply failed_bind. unfold _get_latest_snapshot.
      eapply failed_after; [apply runs_api; exact Hsnap | reflexivity].
    + apply runs_cleanup; [exact Hvm | exact Hne].
  - cbn [called ticked vm_id api_calls success error login_failed exn_msg].
    rewrite <- app_assoc. repeat split. exact Hvm.
Qed.

Lemma stale_vm_id_is_destroyed_again_witness :
  exists r s',
    run_verification
      (mkWorld (fun _ => None) (fun _ => None) (fun _ => Failure "down") (fun _ => "now")
         (Answer None) (Failure "") (Failure "") (Failure "") (Failure "") (Failure "")
         (Answer false) (Failure ""))
      (example_settings 120) None [] []
      (mkState [] [] [] [] 0 0 0 0 (Some "vm-old") [])
    = (Ok r, s')
    /\ api_calls s' = [GetLatestSnapshot None; DestroyVM "vm-old"].
Proof.
  destruct (stale_vm_id_is_destroyed_again
              (mkWorld (fun _ => None) (fun _ => None) (fun _ => Failure "down")
                 (fun _ => "now") (Answer None) (Failure "") (Failure "") (Failure "")
                 (Failure "") (Failure "") (Answer false) (Failure ""))
              (example_settings 120) None [] [] "vm-old"
              (mkState [] [] [] [] 0 0 0 0 (Some "vm-old") [])
              eq_refl eq_refl eq_refl)
    as (r & s' & H & _ & _ & _ & _ & Hc).
  exists r, s'. split; [exact H | exact Hc].
Defined.

(** ** The shape of what is returned and raised *)

(** Every value [m] returns satisfies [P]. *)
Definition yields {A} (P : A -> Prop) (m : M A) : Prop :=
  forall s a s', m s = (Ok a, s') -> P a.

(** Every exception [m] raises satisfies [P]. *)
Definition raises_only {A} (P : exn -> Prop) (m : M A) : Prop :=
  forall s e s', m s = (Raise e, s') -> P e.

Definition is_vm_automation_error (e : exn) : Prop :=
  exists msg, e = VMAutomationError msg.

(** The three shapes of the dictionary [run_verification] returns. *)
Definition well_shaped (r : RunResult) : Prop :=
  (success r = true /\ login_failed r = None /\ error r = None
   /\ exists res, results r = Some res /\ res_login_failed res <> Some true)
  \/ (success r = false /\ login_failed r = Some true /\ error r <> None
      /\ exists res, results r = Some res /\ res_login_failed res = Some true)
  \/ (success r = false /\ login_failed r = None /\ error r <> None
      /\ results r = None /\ reports r = None).

Section Shapes.

Lemma yields_ret {A} (P : A -> Prop) (a : A) : P a -> yields P (ret a).
Proof. intros H s a' s' [= <- _]. exact H. Qed.

Lemma yields_bind {A B} (P : B -> Prop) (m : M A) (f : A -> M B) :
  (forall a, yields P (f a)) -> yields P (bind m f).
Proof.
  intros Hf s b s'. unfold bind.
  destruct (m s) as [[a|e] s1]; [apply Hf | discriminate].
Qed.

Lemma yields_try_except {A} (P : A -> Prop) (m : M A) (h : exn -> M A) :
  yields P m -> (forall e, yields P (h e)) -> yields P (try_except m h).
Proof.
  intros Hm Hh s a s'. unfold try_except.
  destruct (m s) as [[a1|e] s1] eqn:E.
  - intros [= <- <-]. exact (Hm _ _ _ E).
  - apply Hh.
Qed.

Lemma yields_try_finally {A} (P : A -> Prop) (m : M A) (c : M unit) :
  yields P m -> yields P (try_finally m c).
Proof.
  intros Hm s a s'. unfold try_finally.
  destruct (m s) as [r s1] eqn:E. destruct (c s1) as [[u|e] s2]; [|discriminate].
  intros [= -> <-]. exact (Hm _ _ _ E).
Qed.

Lemma yields_raise {A} (P : A -> Prop) (e : exn) : yields P (@raise A e).
Proof. intros s a s'. discriminate. Qed.

Lemma yields_bind_with {A B} (Q : A -> Prop) (P : B -> Prop) (m : M A) (f : A -> M B) :
  yields Q m -> (forall a, Q a -> yields P (f a)) -> yields P (bind m f).
Proof.
  intros Hm Hf s b s'. unfold bind.
  destruct (m s) as [[a|e] s1] eqn:E; [|discriminate].
  apply Hf. exact (Hm _ _ _ E).
Qed.

Lemma yields_ret_bind {A B} (P : B -> Prop) (a : A) (f : A -> M B) :
  yields P (f a) -> yields P (bind (ret a) f).
Proof. intros H s b s'. exact (H s b s'). Qed.

Lemma yields_map {A B} (Q : A -> Prop) (g : A -> B) (m : M A) :
  yields Q m -> yields (fun b => exists a, Q a /\ b = g a) (bind m (fun a => ret (g a))).
Proof.
  intros Hm. eapply yields_bind_with; [exact Hm|].
  intros a Ha. apply yields_ret. now exists a.
Qed.

End Shapes.

Lemma run_verification_well_shaped (W : World) (settings : Settings)
    (agent : option string) (custom_steps ps_commands : list string) :
  yields well_shaped (run_verification W settings agent custom_steps ps_commands).
Proof.
  unfold run_verification.
  apply yields_bind. intros _. apply yields_try_finally. apply yields_try_except.
  - do 8 (apply yields_bind; intros ?).
    destruct (res_login_failed a3) as [[|]|] eqn:E; apply yields_ret.
    + right; left. cbn. repeat split; try discriminate. eauto.
    + left. cbn. repeat split. exists a3. rewrite E. split; [reflexivity | discriminate].
    + left. cbn. repeat split. exists a3. rewrite E. split; [reflexivity | discriminate].
  - intros e. apply yields_ret. right; right. cbn. repeat split. discriminate.
Qed.

(** X3.  In every world the result of [run_verification] has one of three
    shapes: success with the results and no error; login failure with
    the results and an error; or failure with an error and neither
    results nor reports. *)
Theorem run_result_is_well_shaped (W : World) (settings : Settings)
    (agent : option string) (custom_steps ps_commands : list string) (s : State) :
  exists r s',
    run_verification W settings agent custom_steps ps_commands s = (Ok r, s')
    /\ well_shaped r.
Proof.
  destruct (nr_run_verification W settings agent custom_steps ps_commands s) as (r & s' & E).
  exists r, s'. split; [exact E|].
  exact (run_verification_well_shaped W settings agent custom_steps ps_commands _ _ _ E).
Qed.

(** X4.  Whatever goes wrong inside [login_windows], what leaves it is a
    [VMAutomationError]. *)
Theorem login_raises_only_vm_automation_error (W : World) (cfg : Config)
    (username password : string) (max_wait : nat) (s s' : State) (e : exn) :
  login_windows W cfg username password max_wait s = (Raise e, s') ->
  exists msg, e = VMAutomationError msg.
Proof.
  unfold login_windows, try_except.
  match goal with |- context [match ?b s with _ => _ end] => destruct (b s) as [[ok|e0] s1] end;
    [discriminate|].
  destruct e0 as [m|m|m|m]; cbn [raise].
  - intros [= <- _]. eauto.
  - unfold bind. destruct (nr_capture W cfg "04_login_failed" None s1) as (a & s2 & ->).
    intros [= <- _]. eauto.
  - unfold bind. destruct (nr_capture W cfg "04_login_failed" None s1) as (a & s2 & ->).
    intros [= <- _]. eauto.
  - unfold bind. destruct (nr_capture W cfg "04_login_failed" None s1) as (a & s2 & ->).
    intros [= <- _]. eauto.
Qed.

Lemma login_raises_only_vm_automation_error_witness :
  exists msg,
    fst (login_windows (scripted_world (fun _ => None)) (mkConfig "screenshots" true 2)
           "administrator" "pw" 5 initial_state)
    = Raise (VMAutomationError msg).
Proof.
  destruct (login_raises_only_vm_automation_error
              (scripted_world (fun _ => None)) (mkConfig "screenshots" true 2)
              "administrator" "pw" 5 initial_state initial_state
              (VMAutomationError login_timeout_message) eq_refl) as (msg & E).
  exists msg. rewrite <- E. reflexivity.
Defined.

(** ** The step lists *)

Lemma prefix_refl (p : string) : prefix p p = true.
Proof.
  induction p as [|a p IH]; simpl; [reflexivity|].
  destruct (ascii_dec a a) as [_|n]; [exact IH | now elim n].
Qed.

Lemma prefix_app_assoc (p q r : string) : prefix (p ++ q) (p ++ q ++ r) = true.
Proof. rewrite <- str_app_assoc. apply prefix_app. Qed.

(** The description of a custom step begins with the step's text. *)
Definition describes (step : string) (st : StepResult) : Prop :=
  prefix ("Custom: " ++ step) (step_description st) = true.

(** The descriptions [_perform_verification] gives the shell commands,
    counted from [i]. *)
Fixpoint command_descriptions (i : nat) (ps_commands : list string) : list string :=
  match ps_commands with
  | [] => []
  | ps_cmd :: rest =>
      ("Execute PowerShell command " ++ of_nat i ++ ": " ++ ps_cmd)
        :: command_descriptions (S i) rest
  end.

Section StepLists.
Variable W : World.

Lemma nr_for_attempts {A} (body : nat -> M (ctl A)) (otherwise : A) (n first : nat) :
  (forall attempt, never_raises (body attempt)) ->
  never_raises (for_attempts n first body otherwise).
Proof.
  intros Hb s.
  destruct (for_attempts_bounded body otherwise Hb n first s) as (a & tried & s' & E & _).
  now exists (a, tried), s'.
Qed.

Lemma nr_powershell_interactive (cfg : Config) (command : string) :
  never_raises (run_powershell_interactive W cfg command).
Proof.
  apply nr_bind; [|intros; apply nr_ret].
  apply nr_for_attempts. intros attempt. apply nr_powershell_attempt.
Qed.

Lemma nr_powershell_command (cfg : Config) (command : string) :
  never_raises (run_powershell_command W cfg command).
Proof.
  apply nr_bind; [|intros; apply nr_ret].
  apply nr_for_attempts. intros attempt. apply nr_powershell_attempt.
Qed.

Lemma nr_custom_step (cfg : Config) (results : list StepResult) (i : nat) (step : string) :
  never_raises (custom_step W cfg results i step).
Proof.
  apply nr_bind; [apply nr_log_action | intros _].
  apply nr_try_except. intros e.
  apply nr_bind; [apply nr_now | intros; apply nr_ret].
Qed.

Lemma nr_custom_steps (cfg : Config) (steps : list string) :
  forall results i, never_raises (custom_steps_from W cfg results i steps).
Proof.
  induction steps as [|step rest IH]; intros results i; cbn [custom_steps_from].
  - apply nr_ret.
  - apply nr_bind; [apply nr_custom_step | intros; apply IH].
Qed.

Lemma custom_step_appends (cfg : Config) (results : list StepResult) (i : nat)
    (step : string) :
  yields (fun r => exists st, r = (results ++ [st])%list
                     /\ step_number st = length results + 1 /\ describes step st)
         (custom_step W cfg results i step).
Proof.
  unfold custom_step. apply yields_bind. intros _. apply yields_try_except.
  - apply yields_bind. intros cmd. destruct (truthy cmd).
    + do 2 (apply yields_bind; intros ?). apply yields_ret.
      eexists. repeat split. apply prefix_app_assoc.
    + apply yields_bind. intros _. apply yields_bind. intros [path v].
      apply yields_bind. intros ts. apply yields_ret.
      eexists. repeat split. apply prefix_app_assoc.
  - intros e. apply yields_bind. intros ts. apply yields_ret.
    eexists. repeat split. apply prefix_refl.
Qed.

Lemma custom_steps_append (cfg : Config) (steps : list string) :
  forall results i,
  yields (fun r => exists more, r = (results ++ more)%list
                     /\ map step_number more = seq (length results + 1) (length steps)
                     /\ Forall2 describes steps more)
         (custom_steps_from W cfg results i steps).
Proof.
  induction steps as [|step rest IH]; intros results i; cbn [custom_steps_from].
  - apply yields_ret. exists []. rewrite app_nil_r. repeat split. constructor.
  - eapply yields_bind_with; [apply custom_step_appends|].
    intros r1 (st & -> & Hn & Hd) s r s' E.
    destruct (IH _ _ _ _ _ E) as (more & -> & Hnum & Hall).
    exists (st :: more). rewrite <- app_assoc. split; [reflexivity|].
    split; [|now constructor].
    cbn [map length seq]. rewrite Hn, Hnum, length_app. cbn [length].
    f_equal. f_equal. lia.
Qed.

End StepLists.

(** X5.  In every world [perform_custom_steps] returns one entry for each
    step, in the order of the steps, numbered 1, 2, ..., each described
    by its step; a step that fails is recorded, never raised. *)
Theorem custom_steps_one_entry_each (W : World) (cfg : Config) (steps : list string)
    (s : State) :
  exists results s',
    perform_custom_steps W cfg steps s = (Ok results, s')
    /\ map step_number results = seq 1 (length steps)
    /\ Forall2 describes steps results.
Proof.
  destruct (nr_custom_steps W cfg steps [] 1 s) as (results & s' & E).
  exists results, s'. split; [exact E|].
  destruct (custom_steps_append W cfg steps [] 1 _ _ _ E) as (more & -> & Hn & Hd).
  split; assumption.
Qed.

Section CommandSteps.
Variable W : World.
Variable settings : Settings.

Lemma run_ps_commands_appends (ps_commands : list string) :
  forall steps i,
  yields (fun r => exists more, r = (steps ++ more)%list
                     /\ map step_number more = seq (length steps + 1) (length ps_commands)
                     /\ map step_description more = command_descriptions i ps_commands)
         (run_ps_commands W settings steps i ps_commands).
Proof.
  induction ps_commands as [|ps_cmd rest IH]; intros steps i; cbn [run_ps_commands].
  - apply yields_ret. exists []. rewrite app_nil_r. repeat split.
  - apply yields_bind. intros ok. apply yields_bind. intros ts.
    intros s r s' E. destruct (IH _ _ _ _ _ E) as (more & -> & Hnum & Hd).
    eexists (_ :: more). rewrite <- app_assoc. split; [reflexivity|].
    cbn [map length seq command_descriptions step_number step_description].
    rewrite Hnum, Hd, length_app. cbn [length].
    split; [|reflexivity]. f_equal. f_equal. lia.
Qed.

Lemma nr_run_ps_commands (ps_commands : list string) :
  forall steps i, never_raises (run_ps_commands W settings steps i ps_commands).
Proof.
  induction ps_commands as [|ps_cmd rest IH]; intros steps i; cbn [run_ps_commands].
  - apply nr_ret.
  - apply nr_bind; [apply nr_powershell_interactive | intros ok].
    apply nr_bind; [apply nr_now | intros ts]. apply IH.
Qed.

(** The step list of a finished verification. *)
Definition steps_as_recorded (custom_steps ps_commands : list string)
    (r : VerificationResults) : Prop :=
  match res_login_failed r with
  | Some _ =>
      map step_number (steps_completed r) = [1; 2; 3]
      /\ map step_success (steps_completed r) = [true; true; false]
      /\ res_error r <> None
  | None =>
      map step_number (steps_completed r)
      = ([1; 2; 3] ++ seq 4 (length ps_commands) ++ seq 1 (length custom_steps))%list
      /\ map step_description (skipn 3 (firstn (3 + length ps_commands) (steps_completed r)))
         = command_descriptions 1 ps_commands
      /\ res_error r = None
  end.

Lemma verification_steps_recorded (url : string) (custom_steps ps_commands : list string) :
  yields (steps_as_recorded custom_steps ps_commands)
         (verification_steps W settings url custom_steps ps_commands).
Proof.
  unfold verification_steps.
  do 5 (apply yields_bind; intros ?). apply yields_bind. intros ts.
  destruct a3 as [e|].
  - do 2 (apply yields_bind; intros ?). apply yields_ret.
    unfold steps_as_recorded. cbn. repeat split. discriminate.
  - eapply yields_bind_with; [apply run_ps_commands_appends|].
    intros steps' (more & E & Hnum & Hd). subst steps'.
    cbn [app length Nat.add] in Hnum |- *.
    assert (Hlen : length more = length ps_commands).
    { rewrite <- (length_map step_number), Hnum. apply length_seq. }
    destruct custom_steps as [|c cs].
    + apply yields_ret_bind. do 2 (apply yields_bind; intros ?). apply yields_ret.
      unfold steps_as_recorded.
      cbn [res_login_failed steps_completed res_error map step_number Nat.add firstn skipn
           length seq app].
      rewrite Hnum, app_nil_r. split; [reflexivity|]. split; [|reflexivity].
      rewrite <- Hlen, firstn_all. exact Hd.
    + eapply yields_bind_with.
      { apply yields_map with
          (Q := fun r => map step_number r = seq 1 (length (c :: cs))).
        intros s r s' E.
        destruct (custom_steps_append W (vm_config settings) (c :: cs) [] 1 _ _ _ E)
          as (more' & -> & Hn & _). exact Hn. }
      intros steps' (r & Hr & E). subst steps'.
      do 2 (apply yields_bind; intros ?). apply yields_ret.
      unfold steps_as_recorded.
      cbn [res_login_failed steps_completed res_error map step_number Nat.add firstn skipn
           app].
      rewrite map_app, Hnum, Hr. split; [reflexivity|]. split; [|reflexivity].
      rewrite <- Hlen, firstn_app, firstn_all, Nat.sub_diag. cbn [firstn].
      rewrite app_nil_r. exact Hd.
Qed.

End CommandSteps.

(** The world in which the oracle confirms every state. *)
Definition all_verified_world : World :=
  scripted_world
    (fun _ => Some (lines ["VERIFIED: yes"; "CONFIDENCE: high"; "DESCRIPTION: desktop"])).

(** X6.  Whenever [_perform_verification] returns, its step list is numbered
    as the code numbers it: after a failed login the three steps 1, 2, 3
    with the third one failed; otherwise 1, 2, 3, then one step for each
    shell command numbered from 4 on and described with its own count
    from 1, then the custom steps numbered from 1 again. *)
Theorem step_numbers_as_recorded (W : World) (settings : Settings) (url : string)
    (custom_steps ps_commands : list string) (s s' : State) (r : VerificationResults) :
  _perform_verification W settings url custom_steps ps_commands s = (Ok r, s') ->
  steps_as_recorded custom_steps ps_commands r.
Proof.
  revert s r s'.
  change (yields (steps_as_recorded custom_steps ps_commands)
            (_perform_verification W settings url custom_steps ps_commands)).
  unfold _perform_verification, with_vm_automation.
  do 2 (apply yields_bind; intros _). apply yields_try_finally.
  apply verification_steps_recorded.
Qed.

Lemma step_numbers_as_recorded_witness :
  exists r,
    fst (_perform_verification all_verified_world (example_settings 60) "https://display"
           ["Open notepad"; "Check the clock"] ["hostname"; "whoami"] initial_state) = Ok r
    /\ map step_number (steps_completed r) = [1; 2; 3; 4; 5; 1; 2].
Proof.
  destruct (_perform_verification all_verified_world (example_settings 60) "https://display"
              ["Open notepad"; "Check the clock"] ["hostname"; "whoami"] initial_state)
    as [[r|e] s'] eqn:E.
  - exists r. split; [reflexivity|].
    pose proof (step_numbers_as_recorded _ _ _ _ _ _ _ _ E) as H.
    vm_compute in E. injection E as <- <-. exact (proj1 H).
  - vm_compute in E. discriminate E.
Defined.

(** ** Custom steps without a command *)

(** Neither model has been asked between [s] and [s']. *)
Definition no_model_call (s s' : State) : Prop :=
  chat_count s' = chat_count s /\ vision_count s' = vision_count s.

(** A step recorded as done by screenshot only. *)
Definition screenshot_only (step : string) (st : StepResult) : Prop :=
  step_description st = "Custom: " ++ step ++ " (no automation - screenshot only)"
  /\ step_success st = true /\ step_error st = None /\ step_screenshot st <> None.

Lemma screenshot_only_succeeds (steps : list string) (results : list StepResult) :
  Forall2 screenshot_only steps results ->
  map step_success results = map (fun _ => true) steps.
Proof.
  induction 1 as [|step st steps results (_ & Hs & _) _ IH]; cbn [map];
    [reflexivity | now rewrite Hs, IH].
Qed.

Section CustomSteps.
Variable W : World.
Variable cfg : Config.

Lemma capture_offline (name : string) (v : option string) (s : State) :
  llm_client cfg = false ->
  exists r s', _capture_screenshot W cfg name v s = (Ok r, s') /\ no_model_call s s'.
Proof.
  intros Hl. unfold _capture_screenshot, bind, try_except, now, page, add_screenshot, ret.
  rewrite Hl, andb_false_r.
  cbn [page_count]. destruct (page_fault W (page_count s)); eexists _, _; split;
    try reflexivity; split; reflexivity.
Qed.

Lemma custom_step_offline (results : list StepResult) (i : nat) (step : string)
    (s : State) :
  llm_client cfg = false ->
  exists st s',
    custom_step W cfg results i step s = (Ok (results ++ [st])%list, s')
    /\ step_number st = length results + 1
    /\ screenshot_only step st /\ no_model_call s s'.
Proof.
  intros Hl. unfold custom_step. rewrite Hl.
  unfold bind at 1. cbn [_log_action]. unfold _log_action.
  set (s1 := snd ((timestamp <- now W ;; add_log (mkLog timestamp ("Custom Step " ++ of_nat i) step))%monad s)).
  assert (H1 : no_model_call s s1) by (split; reflexivity).
  change ((timestamp <- now W ;; add_log (mkLog timestamp ("Custom Step " ++ of_nat i) step))%monad s)
    with (Ok tt, s1).
  cbv beta iota. unfold try_except, bind at 1. cbn [ret truthy].
  unfold bind at 1.
  assert (H2 : exists s2, _click_vnc_canvas W s1 = (Ok tt, s2) /\ no_model_call s1 s2).
  { unfold _click_vnc_canvas, try_except, page, ret.
    destruct (page_fault W (page_count s1)); eexists; split; try reflexivity;
      split; reflexivity. }
  destruct H2 as (s2 & -> & H2). unfold bind at 1.
  destruct (capture_offline ("custom_step_" ++ two_digits i)
              (Some ("Desktop showing the result of: " ++ step)) s2 Hl)
    as ([path v] & s3 & -> & H3).
  cbn [bind now ret]. unfold bind, now, ret.
  eexists _, _. split; [reflexivity|]. split; [reflexivity|].
  split; [repeat split; discriminate|].
  destruct H1 as [a1 b1], H2 as [a2 b2], H3 as [a3 b3]. split; cbn; congruence.
Qed.

Lemma custom_steps_offline (steps : list string) :
  llm_client cfg = false ->
  forall results i s,
  exists more s',
    custom_steps_from W cfg results i steps s = (Ok (results ++ more)%list, s')
    /\ Forall2 screenshot_only steps more /\ no_model_call s s'.
Proof.
  intros Hl. induction steps as [|step rest IH]; intros results i s; cbn [custom_steps_from].
  - exists [], s. rewrite app_nil_r. repeat split. constructor.
  - destruct (custom_step_offline results i step s Hl) as (st & s1 & E & _ & Hst & [a1 b1]).
    unfold bind. rewrite E.
    destruct (IH (results ++ [st])%list (S i) s1) as (more & s2 & E2 & Hall & [a2 b2]).
    exists (st :: more), s2. rewrite E2, <- app_assoc.
    split; [reflexivity|]. split; [now constructor|]. split; congruence.
Qed.

(** What a failed custom step leaves behind. *)
Definition failed_step (results : list StepResult) (step timestamp msg : string)
  : StepResult :=
  mkStep (length results + 1) ("Custom: " ++ step) false timestamp (Some msg) None.

End CustomSteps.

(** X7.  Without a model client [perform_custom_steps] asks no model and runs
    no command: in every world each step is recorded as a success by
    screenshot only. *)
Theorem custom_steps_without_model_client (W : World) (cfg : Config)
    (steps : list string) (s : State) :
  llm_client cfg = false ->
  exists results s',
    perform_custom_steps W cfg steps s = (Ok results, s')
    /\ Forall2 screenshot_only steps results
    /\ chat_count s' = chat_count s /\ vision_count s' = vision_count s.
Proof.
  intros Hl.
  destruct (custom_steps_offline W cfg steps Hl [] 1 s) as (more & s' & E & Hall & Hn).
  exists more, s'. split; [exact E|]. split; [exact Hall | exact Hn].
Qed.

Lemma custom_steps_without_model_client_witness :
  exists results s',
    perform_custom_steps (scripted_world (fun _ => None)) (mkConfig "screenshots" false 2)
      ["Open notepad"; "Check the clock"] initial_state = (Ok results, s')
    /\ map step_success results = [true; true]
    /\ chat_count s' = 0.
Proof.
  destruct (custom_steps_without_model_client (scripted_world (fun _ => None))
              (mkConfig "screenshots" false 2) ["Open notepad"; "Check the clock"]
              initial_state eq_refl) as (results & s' & E & Hall & Hc & _).
  exists results, s'. split; [exact E|]. split; [|exact Hc].
  exact (screenshot_only_succeeds _ _ Hall).
Defined.

(** X8.  When the text model fails on a custom step, in every world the step
    is recorded as failed with the model's message, and nothing has been
    sent to the page for it. *)
Theorem custom_step_model_failure (W : World) (cfg : Config)
    (results : list StepResult) (i : nat) (step msg : string) (s : State) :
  llm_client cfg = true ->
  chat W (chat_count s) = Failure msg ->
  exists s',
    custom_step W cfg results i step s
    = (Ok (results ++ [failed_step results step (clock W (S (clock_count s))) msg])%list, s')
    /\ page_calls s' = page_calls s /\ page_count s' = page_count s
    /\ chat_count s' = S (chat_count s).
Proof.
  intros Hl Hc. unfold custom_step. rewrite Hl.
  unfold _log_action, bind, try_except, now, add_log, llm_chat, ret.
  cbn [chat_count clock_count]. rewrite Hc.
  eexists. split; [reflexivity|]. repeat split.
Qed.

Lemma custom_step_model_failure_witness :
  exists s',
    custom_step
      (mkWorld (fun _ => None) (fun _ => None) (fun _ => Failure "rate limit")
         (fun n => "T" ++ of_nat n) (Answer None) (Answer "host") (Answer None)
         (Answer true) (Answer "running") (Answer "") (Answer true)
         (Answer ("report.html", "report.json")))
      (mkConfig "screenshots" true 2) [] 1 "Open notepad" initial_state
    = (Ok [mkStep 1 "Custom: Open notepad" false "T1" (Some "rate limit") None], s')
    /\ page_calls s' = [].
Proof.
  destruct (custom_step_model_failure
              (mkWorld (fun _ => None) (fun _ => None) (fun _ => Failure "rate limit")
                 (fun n => "T" ++ of_nat n) (Answer None) (Answer "host") (Answer None)
                 (Answer true) (Answer "running") (Answer "") (Answer true)
                 (Answer ("report.html", "report.json")))
              (mkConfig "screenshots" true 2) [] 1 "Open notepad" "rate limit"
              initial_state eq_refl eq_refl) as (s' & E & Hp & _).
  exists s'. split; [exact E | exact Hp].
Defined.

(** ** The fenced command *)

(** [x] holds no line break. *)
Definition single_line (x : string) : Prop :=
  forallb (fun c => negb (Ascii.eqb c newline)) (chars x) = true.

Lemma split_single_line (a b : string) :
  single_line a -> split newline (a ++ String newline b) = a :: split newline b.
Proof.
  unfold single_line. induction a as [|c a IH]; cbn [chars list_ascii_of_string forallb append].
  - intros _. cbn [split]. now rewrite Ascii.eqb_refl.
  - intros H. apply andb_prop in H. destruct H as [Hc Ha].
    cbn [split]. destruct (Ascii.eqb c newline); [discriminate|].
    change (list_ascii_of_string a) with (chars a) in Ha.
    now rewrite (IH Ha).
Qed.

(** X9.  A reply that opens with a code fence is cut down to the line after
    the fence line: the rest of the block, closing fence included, is
    dropped, whatever it holds. *)
Theorem fenced_reply_first_line_only (lang cmd rest : string) (s : State) :
  single_line lang -> single_line cmd -> endswith "```" cmd = false ->
  unfence ("```" ++ lang ++ String newline (cmd ++ String newline rest)) s = (Ok cmd, s).
Proof.
  intros Hl Hc He. unfold unfence, startswith.
  assert (Hf : single_line ("```" ++ lang)) by exact Hl.
  rewrite prefix_app, <- str_app_assoc.
  rewrite (split_single_line _ _ Hf), (split_single_line _ _ Hc).
  cbn [item1 nth_error]. unfold bind, ret. now rewrite He.
Qed.

Lemma fenced_reply_first_line_only_witness :
  unfence ("```powershell" ++ String newline ("Get-Date" ++ String newline "```"))
          initial_state
  = (Ok "Get-Date", initial_state).
Proof.
  exact (fenced_reply_first_line_only "powershell" "Get-Date" "```" initial_state
           eq_refl eq_refl eq_refl).
Defined.

(** X10.  A reply that opens with a code fence and holds no line break raises
    (the second item of the split is missing). *)
Theorem fence_without_line_break_raises (reply : string) (s : State) :
  startswith "```" reply = true -> single_line reply ->
  unfence reply s = (Raise (OtherException "list index out of range"), s).
Proof.
  intros Hs Hl. unfold unfence. rewrite Hs.
  assert (E : split newline reply = [reply]).
  { clear Hs. unfold single_line in Hl. induction reply as [|c r IH];
      cbn [chars list_ascii_of_string forallb] in Hl |- *; [reflexivity|].
    apply andb_prop in Hl. destruct Hl as [Hc Hr]. cbn [split].
    destruct (Ascii.eqb c newline); [discriminate|]. now rewrite (IH Hr). }
  rewrite E. reflexivity.
Qed.

Lemma fence_without_line_break_raises_witness :
  unfence "```Get-Date```" initial_state
  = (Raise (OtherException "list index out of range"), initial_state).
Proof.
  exact (fence_without_line_break_raises "```Get-Date```" initial_state eq_refl eq_refl).
Defined.

(** ** Typing through the remote display *)

(** Only ASCII characters occur in [x]: the texts on which the string
    operations of the model are those of Python. *)
Definition ascii_only (x : string) : Prop :=
  forallb (fun c => Nat.ltb (nat_of_ascii c) 128) (chars x) = true.

(** The US keyboard, row by row: the keys that carry a sign, and under
    each the sign it gives with Shift held. *)
Definition us_plain_keys : string := "`1234567890-=[]\;',./".
Definition us_shifted_signs : string := "~!@#$%^&*()_+{}|:" ++ String dquote "<>?".

Definition us_layout : list (ascii * ascii) :=
  combine (chars us_plain_keys) (chars us_shifted_signs).

Fixpoint sign_of_key (key : ascii) (layout : list (ascii * ascii)) : option ascii :=
  match layout with
  | [] => None
  | (plain, sign) :: rest => if Ascii.eqb key plain then Some sign else sign_of_key key rest
  end.

Fixpoint key_of_sign (c : ascii) (layout : list (ascii * ascii)) : option ascii :=
  match layout with
  | [] => None
  | (plain, sign) :: rest => if Ascii.eqb c sign then Some plain else key_of_sign c rest
  end.

(** What a raw key event types: with Shift held a letter key gives its
    capital and a sign key its upper sign; without Shift a key gives
    itself, and there is no key for a capital or an upper sign. *)
Definition us_key (shift : bool) (key : ascii) : option ascii :=
  if shift then
    if is_lower_ascii key then Some (upper_char key) else sign_of_key key us_layout
  else if is_upper_ascii key then None
  else match key_of_sign key us_layout with
       | Some _ => None
       | None => Some key
       end.

(** The text a sequence of page calls types on that keyboard, read
    strictly: one key for each typing call, Shift pressed only when it is
    up, released only when it is down, and up at the end. *)
Fixpoint typed_on_us_keyboard (shift : bool) (keys : list PageCall)
  : option (list ascii) :=
  match keys with
  | [] => if shift then None else Some []
  | KeyDown key :: rest =>
      if String.eqb key "Shift" && negb shift then typed_on_us_keyboard true rest
      else None
  | KeyUp key :: rest =>
      if String.eqb key "Shift" && shift then typed_on_us_keyboard false rest
      else None
  | TypeText (String key EmptyString) :: rest =>
      match us_key shift key, typed_on_us_keyboard shift rest with
      | Some c, Some typed => Some (c :: typed)
      | _, _ => None
      end
  | _ => None
  end.

(** The raw key events for a character: a capital and an upper sign go
    out as Shift down, the plain key, Shift up; any other character as
    its own key. *)
Definition us_keystrokes (c : ascii) : list PageCall :=
  if is_upper_ascii c then
    [KeyDown "Shift"; TypeText (String (lower_char c) ""); KeyUp "Shift"]
  else match key_of_sign c us_layout with
       | Some key => [KeyDown "Shift"; TypeText (String key ""); KeyUp "Shift"]
       | None => [TypeText (String c "")]
       end.

(** The characters [_type_char_vnc] types with Shift held. *)
Definition needs_shift (char : ascii) : bool :=
  is_upper_ascii char
  || match shift_lookup char shift_chars with Some _ => true | None => false end.

Lemma char_keys_us_keystrokes (char : ascii) : char_keys char = us_keystrokes char.
Proof.
  destruct char as [b0 b1 b2 b3 b4 b5 b6 b7].
  destruct b0, b1, b2, b3, b4, b5, b6, b7; reflexivity.
Qed.

Lemma us_keystrokes_typed (char : ascii) (rest : list PageCall) :
  typed_on_us_keyboard false (us_keystrokes char ++ rest)
  = option_map (cons char) (typed_on_us_keyboard false rest).
Proof.
  destruct char as [b0 b1 b2 b3 b4 b5 b6 b7].
  destruct b0, b1, b2, b3, b4, b5, b6, b7; reflexivity.
Qed.

Lemma text_keys_us_keystrokes (text : string) :
  text_keys text = flat_map us_keystrokes (chars text).
Proof.
  unfold text_keys. apply flat_map_ext. intros c. apply char_keys_us_keystrokes.
Qed.

Lemma flat_us_keystrokes_typed (l : list ascii) :
  typed_on_us_keyboard false (flat_map us_keystrokes l) = Some l.
Proof.
  induction l as [|c l IH]; cbn [flat_map]; [reflexivity|].
  now rewrite us_keystrokes_typed, IH.
Qed.

(** X11.  When no page call fails, the page calls added for a text of
    ASCII characters are raw key events and nothing else: each capital
    and each upper sign of the US keyboard goes out as Shift down, its
    plain key, Shift up, every other character as its own key; and read
    strictly on that keyboard, where no typing call without Shift gives a
    capital or an upper sign, they type exactly the text and leave Shift
    up. *)
Theorem typing_round_trip (W : World) (text : string) (s : State) :
  no_page_faults W -> ascii_only text ->
  exists keys s',
    type_chars_vnc W text s = (Ok tt, s')
    /\ page_calls s' = (page_calls s ++ keys)%list
    /\ keys = flat_map us_keystrokes (chars text)
    /\ typed_on_us_keyboard false keys = Some (chars text).
Proof.
  intros Hnf _. exists (text_keys text), (paged (text_keys text) s).
  split; [apply (runs_type_chars W Hnf)|]. split; [reflexivity|].
  rewrite text_keys_us_keystrokes. split; [reflexivity | apply flat_us_keystrokes_typed].
Qed.

Lemma typing_round_trip_witness :
  exists s',
    type_chars_vnc (scripted_world (fun _ => None)) "Pw#1" initial_state = (Ok tt, s')
    /\ page_calls s'
       = [KeyDown "Shift"; TypeText "p"; KeyUp "Shift"; TypeText "w";
          KeyDown "Shift"; TypeText "3"; KeyUp "Shift"; TypeText "1"]
    /\ typed_on_us_keyboard false (page_calls s') = Some (chars "Pw#1").
Proof.
  destruct (typing_round_trip (scripted_world (fun _ => None)) "Pw#1" initial_state
              (fun _ => eq_refl) eq_refl) as (keys & s' & E & Hp & Hk & Ht).
  exists s'. split; [exact E|]. cbn [initial_state page_calls app] in Hp.
  rewrite Hp. split; [rewrite Hk; reflexivity | exact Ht].
Defined.

(** X12.  A page call that fails between Shift down and Shift up is swallowed:
    [_type_char_vnc] returns normally, the character is not typed and
    Shift is never released. *)
Theorem fault_leaves_shift_down (W : World) (char : ascii) (msg : string) (s : State) :
  needs_shift char = true ->
  page_fault W (page_count s) = None ->
  page_fault W (S (page_count s)) = Some msg ->
  exists s',
    _type_char_vnc W char s = (Ok tt, s')
    /\ page_calls s' = (page_calls s ++ [KeyDown "Shift"])%list.
Proof.
  intros Hn H0 H1. unfold needs_shift in Hn. unfold _type_char_vnc.
  destruct (is_upper_ascii char).
  - unfold try_except, bind, page, ret. rewrite H0. cbn [page_count]. rewrite H1.
    eexists. split; reflexivity.
  - destruct (shift_lookup char shift_chars) as [k|]; [|discriminate].
    unfold try_except, bind, page, ret. rewrite H0. cbn [page_count]. rewrite H1.
    eexists. split; reflexivity.
Qed.

Lemma fault_leaves_shift_down_witness :
  exists s',
    _type_char_vnc
      (mkWorld (fun n => if Nat.eqb n 1 then Some "Target closed" else None)
         (fun _ => None) (fun _ => Answer "summary") (fun n => "T" ++ of_nat n)
         (Answer None) (Answer "host") (Answer None) (Answer true) (Answer "running")
         (Answer "") (Answer true) (Answer ("report.html", "report.json")))
      "S"%char initial_state = (Ok tt, s')
    /\ page_calls s' = [KeyDown "Shift"].
Proof.
  exact (fault_leaves_shift_down
           (mkWorld (fun n => if Nat.eqb n 1 then Some "Target closed" else None)
              (fun _ => None) (fun _ => Answer "summary") (fun n => "T" ++ of_nat n)
              (Answer None) (Answer "host") (Answer None) (Answer true) (Answer "running")
              (Answer "") (Answer true) (Answer ("report.html", "report.json")))
           "S"%char "Target closed" initial_state eq_refl eq_refl eq_refl).
Defined.

(** ** Without a verdict *)

Section NoVerdict.
Variable W : World.
Variable cfg : Config.

Lemma wake_always_returns (action details : string) (s : State) :
  exists s',
    (_log_action W action details ;; _send_ctrl_alt_del W)%monad s = (Ok tt, s')
    /\ page_count s' = S (page_count s) /\ vision_count s' = vision_count s.
Proof.
  unfold _log_action, _send_ctrl_alt_del, bind, try_except, now, add_log, page, ret.
  cbn [page_count]. destruct (page_fault W (page_count s)); eexists; repeat split.
Qed.

Lemma capture_without_verdict (name : string) (v : option string) (s : State) :
  llm_client cfg = false \/ page_fault W (page_count s) <> None ->
  exists path s',
    _capture_screenshot W cfg name v s = (Ok (path, None), s')
    /\ page_count s' = S (page_count s) /\ vision_count s' = vision_count s.
Proof.
  intros H.
  unfold _capture_screenshot, bind, try_except, now, page, add_screenshot, ret.
  cbn [page_count]. destruct (page_fault W (page_count s)) as [m|].
  - eexists _, _. repeat split.
  - destruct H as [Hl|Hf]; [|now elim Hf].
    rewrite Hl, andb_false_r. eexists _, _. repeat split.
Qed.

End NoVerdict.

(** X13.  A poll of the login screen that gets no verdict, because there is no
    model client or because the screenshot call fails, ends the wait at
    once with the screen reported ready: two page calls are made and the
    vision model is not asked. *)
Theorem poll_without_verdict_is_ready (W : World) (cfg : Config) (remaining : nat)
    (s : State) :
  llm_client cfg = false \/ page_fault W (S (page_count s)) <> None ->
  exists path s',
    poll_login_screen W cfg (S remaining) 0 s = (Ok (true, path), s')
    /\ page_count s' = S (S (page_count s))
    /\ vision_count s' = vision_count s.
Proof.
  intros H. cbn [poll_login_screen Nat.eqb orb].
  generalize ("03_login_screen_check_" ++ of_nat 1). intros name.
  unfold bind at 1.
  destruct (wake_always_returns W "Send Ctrl+Alt+Del" "Bringing up login screen" s)
    as (s1 & -> & Hp1 & Hv1).
  rewrite <- Hp1 in H.
  destruct (capture_without_verdict W cfg name (Some login_screen_state) s1 H)
    as (path & s2 & E & Hp2 & Hv2).
  unfold bind. rewrite E. exists path, s2. split; [reflexivity|].
  split; congruence.
Qed.

Lemma poll_without_verdict_is_ready_witness :
  exists s',
    poll_login_screen
      (mkWorld (fun n => if Nat.eqb n 1 then Some "Target closed" else None)
         (fun _ => None) (fun _ => Answer "summary") (fun n => "T" ++ of_nat n)
         (Answer None) (Answer "host") (Answer None) (Answer true) (Answer "running")
         (Answer "") (Answer true) (Answer ("report.html", "report.json")))
      (mkConfig "screenshots" true 2) 6 0 initial_state = (Ok (true, ""), s')
    /\ page_count s' = 2 /\ vision_count s' = 0.
Proof.
  destruct (poll_without_verdict_is_ready
              (mkWorld (fun n => if Nat.eqb n 1 then Some "Target closed" else None)
                 (fun _ => None) (fun _ => Answer "summary") (fun n => "T" ++ of_nat n)
                 (Answer None) (Answer "host") (Answer None) (Answer true) (Answer "running")
                 (Answer "") (Answer true) (Answer ("report.html", "report.json")))
              (mkConfig "screenshots" true 2) 5 initial_state)
    as (path & s' & E & Hp & Hv).
  - right. discriminate.
  - exists s'. split; [|split; assumption].
    rewrite E. vm_compute in E. injection E as <- _. reflexivity.
Defined.

(** ** A page that does not answer *)

(** Every call on the page fails. *)
Definition dead_page (W : World) : Prop := forall n, page_fault W n <> None.

(** Nothing reached the page and no screenshot was kept between [s] and
    [s']. *)
Definition nothing_done (s s' : State) : Prop :=
  page_calls s' = page_calls s /\ screenshots s' = screenshots s
  /\ vision_count s' = vision_count s.

Section DeadPage.
Variable W : World.
Variable cfg : Config.
Hypothesis Hdead : dead_page W.

Lemma dead_page_call (c : PageCall) (s : State) :
  exists msg s', page W c s = (Raise (OtherException msg), s') /\ nothing_done s s'.
Proof.
  unfold page. destruct (page_fault W (page_count s)) as [msg|] eqn:E.
  - eexists _, _. repeat split.
  - now elim (Hdead (page_count s)).
Qed.

Lemma dead_capture (name : string) (v : option string) (s : State) :
  exists s', _capture_screenshot W cfg name v s = (Ok ("", None), s') /\ nothing_done s s'.
Proof.
  unfold _capture_screenshot, bind, try_except, now, page, ret. cbn [page_count].
  destruct (page_fault W (page_count s)) as [msg|] eqn:E.
  - eexists. repeat split.
  - now elim (Hdead (page_count s)).
Qed.

Lemma dead_click_canvas (s : State) :
  exists s', _click_vnc_canvas W s = (Ok tt, s') /\ nothing_done s s'.
Proof.
  unfold _click_vnc_canvas, try_except.
  destruct (dead_page_call ClickCanvas s) as (msg & s' & -> & H).
  exists s'. split; [reflexivity | exact H].
Qed.

Lemma nothing_done_trans (a b c : State) :
  nothing_done a b -> nothing_done b c -> nothing_done a c.
Proof. intros (p1 & q1 & r1) (p2 & q2 & r2). repeat split; congruence. Qed.

Lemma dead_powershell_attempt (o f command : string) (attempt : nat) (s : State) :
  exists s',
    powershell_attempt W cfg o f command attempt s = (Ok (retry_or_fail cfg attempt), s')
    /\ nothing_done s s'.
Proof.
  unfold powershell_attempt, try_except.
  unfold bind at 1. unfold _log_action at 1. unfold bind at 1, now at 1, add_log at 1.
  cbv beta iota.
  match goal with |- context [bind (_click_vnc_canvas W) ?k ?s0] =>
    set (s1 := s0);
    assert (H1 : nothing_done s s1) by (repeat split);
    unfold bind at 1;
    destruct (dead_click_canvas s1) as (s2 & -> & H2)
  end.
  unfold bind at 1.
  destruct (dead_page_call (Press "Meta+R") s2) as (msg & s3 & -> & H3).
  unfold bind.
  destruct (dead_capture (f ++ of_nat attempt) None s3) as (s4 & -> & H4).
  exists s4. split; [reflexivity|].
  eauto using nothing_done_trans.
Qed.

Lemma dead_powershell_loop (o f command : string) :
  forall n first s,
    first + n = S (max_retries cfg) -> 1 <= n ->
    exists s',
      for_attempts n first (powershell_attempt W cfg o f command) false s
      = (Ok (false, seq first n), s')
      /\ nothing_done s s'.
Proof.
  induction n as [|n IH]; intros first s Hsum Hn; [lia|].
  cbn [for_attempts seq]. unfold bind at 1.
  destruct (dead_powershell_attempt o f command first s) as (s1 & -> & H1).
  unfold retry_or_fail. destruct (Nat.ltb first (max_retries cfg)) eqn:E.
  - apply Nat.ltb_lt in E.
    destruct (IH (S first) s1) as (s2 & E2 & H2); [lia | lia |].
    unfold bind. rewrite E2. exists s2. split; [reflexivity|].
    eauto using nothing_done_trans.
  - apply Nat.ltb_ge in E. assert (n = 0) by lia. subst n.
    exists s1. split; [reflexivity | exact H1].
Qed.

End DeadPage.

(** X14.  When every call on the page fails, a shell command is tried
    [max_retries] times, numbered 1 to [max_retries], and reported
    failed; no keystroke reaches the page, no screenshot is kept and the
    vision model is not asked. *)
Theorem dead_page_exhausts_retries (W : World) (cfg : Config) (command : string)
    (s : State) :
  dead_page W -> 1 <= max_retries cfg ->
  exists s',
    run_powershell_command_attempts W cfg command s
    = (Ok (false, seq 1 (max_retries cfg)), s')
    /\ page_calls s' = page_calls s /\ screenshots s' = screenshots s
    /\ vision_count s' = vision_count s.
Proof.
  intros Hd Hr. unfold run_powershell_command_attempts.
  destruct (dead_powershell_loop W cfg Hd "10_powershell_command_executed_attempt"
              "10_command_failed_attempt" command (max_retries cfg) 1 s)
    as (s' & E & H); [lia | exact Hr |].
  exists s'. split; [exact E | exact H].
Qed.

Lemma dead_page_exhausts_retries_witness :
  exists s',
    run_powershell_command_attempts
      (mkWorld (fun _ => Some "Target closed")
         (fun _ => None) (fun _ => Answer "summary") (fun n => "T" ++ of_nat n)
         (Answer None) (Answer "host") (Answer None) (Answer true) (Answer "running")
         (Answer "") (Answer true) (Answer ("report.html", "report.json")))
      (mkConfig "screenshots" true 3) "hostname" initial_state
    = (Ok (false, [1; 2; 3]), s')
    /\ page_calls s' = [] /\ screenshots s' = [].
Proof.
  destruct (dead_page_exhausts_retries
              (mkWorld (fun _ => Some "Target closed")
                 (fun _ => None) (fun _ => Answer "summary") (fun n => "T" ++ of_nat n)
                 (Answer None) (Answer "host") (Answer None) (Answer true) (Answer "running")
                 (Answer "") (Answer true) (Answer ("report.html", "report.json")))
              (mkConfig "screenshots" true 3) "hostname" initial_state
              (fun n H => match H with eq_refl => I end)
              (le_S _ _ (le_S _ _ (le_n 1))))
    as (s' & E & Hp & Hs & _).
  exists s'. split; [exact E | split; assumption].
Defined.

(** ** Login without a model client *)

(** The keystrokes of the password-only entry and of the submit. *)
Definition password_entry_keys (password : string) : list PageCall :=
  ([ClickCanvas; ClickCanvas; ClickAt 960 560; Press "Control+A"; Press "Backspace"]
   ++ text_keys password ++ [Press "Enter"])%list.

(** The keystrokes of [disable_screen_lock]. *)
Definition screen_lock_keys : list PageCall :=
  [Press "Meta+R"; TypeText "powershell"; Press "Enter";
   TypeText "powercfg /change monitor-timeout-ac 0"; Press "Enter";
   TypeText "powercfg /change standby-timeout-ac 0"; Press "Enter";
   TypeText "exit"; Press "Enter"].

(** What the state updates leave of the fields read below. *)
Lemma page_calls_paged (calls : list PageCall) (s : State) :
  page_calls (paged calls s) = (page_calls s ++ calls)%list.
Proof. reflexivity. Qed.

Lemma page_calls_logged (W : World) (a d : string) (s : State) :
  page_calls (logged W a d s) = page_calls s.
Proof. reflexivity. Qed.

Lemma page_calls_captured (W : World) (cfg : Config) (name : string) (s : State) :
  page_calls (captured W cfg name s)
  = (page_calls s ++ [Screenshot (shot_path cfg (clock W (clock_count s)) name)])%list.
Proof. reflexivity. Qed.

Lemma page_calls_captured_verified (W : World) (cfg : Config) (name expected : string)
    (s : State) :
  page_calls (captured_verified W cfg name expected s)
  = (page_calls s ++ [Screenshot (shot_path cfg (clock W (clock_count s)) name)])%list.
Proof. reflexivity. Qed.

Lemma vision_count_paged (calls : list PageCall) (s : State) :
  vision_count (paged calls s) = vision_count s.
Proof. reflexivity. Qed.

Lemma vision_count_logged (W : World) (a d : string) (s : State) :
  vision_count (logged W a d s) = vision_count s.
Proof. reflexivity. Qed.

Lemma vision_count_captured (W : World) (cfg : Config) (name : string) (s : State) :
  vision_count (captured W cfg name s) = vision_count s.
Proof. reflexivity. Qed.

Lemma vision_count_captured_verified (W : World) (cfg : Config) (name expected : string)
    (s : State) :
  vision_count (captured_verified W cfg name expected s) = S (vision_count s).
Proof. reflexivity. Qed.

Lemma verifications_paged (calls : list PageCall) (s : State) :
  verification_results (paged calls s) = verification_results s.
Proof. reflexivity. Qed.

Lemma verifications_logged (W : World) (a d : string) (s : State) :
  verification_results (logged W a d s) = verification_results s.
Proof. reflexivity. Qed.

Lemma verifications_captured (W : World) (cfg : Config) (name : string) (s : State) :
  verification_results (captured W cfg name s) = verification_results s.
Proof. reflexivity. Qed.

Lemma action_log_paged (calls : list PageCall) (s : State) :
  action_log (paged calls s) = action_log s.
Proof. reflexivity. Qed.

Lemma action_log_logged (W : World) (a d : string) (s : State) :
  action_log (logged W a d s) = (action_log s ++ [mkLog (clock W (clock_count s)) a d])%list.
Proof. reflexivity. Qed.

Lemma action_log_captured (W : World) (cfg : Config) (name : string) (s : State) :
  action_log (captured W cfg name s) = action_log s.
Proof. reflexivity. Qed.

Lemma action_log_captured_verified (W : World) (cfg : Config) (name expected : string)
    (s : State) :
  action_log (captured_verified W cfg name expected s) = action_log s.
Proof. reflexivity. Qed.

Lemma screenshots_paged (calls : list PageCall) (s : State) :
  screenshots (paged calls s) = screenshots s.
Proof. reflexivity. Qed.

Lemma screenshots_logged (W : World) (a d : string) (s : State) :
  screenshots (logged W a d s) = screenshots s.
Proof. reflexivity. Qed.

Lemma screenshots_captured (W : World) (cfg : Config) (name : string) (s : State) :
  screenshots (captured W cfg name s)
  = (screenshots s ++ [shot_path cfg (clock W (clock_count s)) name])%list.
Proof. reflexivity. Qed.

Lemma screenshots_captured_verified (W : World) (cfg : Config) (name expected : string)
    (s : State) :
  screenshots (captured_verified W cfg name expected s)
  = (screenshots s ++ [shot_path cfg (clock W (clock_count s)) name])%list.
Proof. reflexivity. Qed.

Ltac read_page_calls :=
  repeat (rewrite page_calls_captured || rewrite page_calls_captured_verified
          || rewrite page_calls_paged || rewrite page_calls_logged).

Ltac read_vision_count :=
  repeat (rewrite vision_count_captured || rewrite vision_count_captured_verified
          || rewrite vision_count_paged || rewrite vision_count_logged).

Ltac read_verifications :=
  repeat (rewrite verifications_captured || rewrite verifications_paged
          || rewrite verifications_logged).

Ltac read_action_log :=
  repeat (rewrite action_log_captured || rewrite action_log_captured_verified
          || rewrite action_log_paged || rewrite action_log_logged).

Ltac read_screenshots :=
  repeat (rewrite screenshots_captured || rewrite screenshots_captured_verified
          || rewrite screenshots_paged || rewrite screenshots_logged).

Section Offline.
Variable W : World.
Variable cfg : Config.
Hypothesis Hnf : no_page_faults W.
Hypothesis Hoff : llm_client cfg = false.

Lemma runs_capture_offline (name : string) (v : option string) (s : State) :
  runs (_capture_screenshot W cfg name v) s
    (shot_path cfg (clock W (clock_count s)) name, None) (captured W cfg name s).
Proof.
  unfold _capture_screenshot, runs, bind, try_except, now, page. cbn.
  rewrite Hnf, Hoff, andb_false_r. reflexivity.
Qed.

Lemma runs_to {A} (m : M A) (s : State) (a : A) (s1 s2 : State) :
  runs m s a s1 -> s1 = s2 -> runs m s a s2.
Proof. now intros H <-. Qed.

Lemma runs_disable_lock (s : State) :
  runs (disable_screen_lock W) s tt (paged screen_lock_keys s).
Proof.
  unfold disable_screen_lock. apply runs_try.
  do 8 (eapply runs_bind; [apply (runs_page _ Hnf)|]).
  eapply runs_to; [apply (runs_page _ Hnf)|].
  now rewrite !paged_paged.
Qed.

Lemma runs_enter_password (password : string) (s : State) :
  runs (enter_password_only W password) s tt
    (paged ([ClickCanvas; ClickCanvas; ClickAt 960 560; Press "Control+A";
             Press "Backspace"] ++ text_keys password)
       (logged W "Enter password" "Typing password (username cached)" s)).
Proof.
  unfold enter_password_only.
  eapply runs_bind; [apply runs_log_action|].
  eapply runs_bind; [apply (runs_click_canvas _ Hnf)|].
  eapply runs_bind; [apply (runs_click_canvas _ Hnf)|].
  eapply runs_bind; [apply (runs_click_at _ Hnf)|].
  eapply runs_bind; [apply (runs_page _ Hnf)|].
  eapply runs_bind; [apply (runs_page _ Hnf)|].
  eapply runs_to; [apply (runs_type_chars _ Hnf)|].
  now rewrite !paged_paged.
Qed.

(** Where [login_windows] ends without a model client. *)
Definition logged_in_offline (password : string) (s : State) : State :=
  captured W cfg "04_logged_in"
    (paged screen_lock_keys
       (captured W cfg "04_login_verify"
          (paged [Press "Enter"]
             (paged ([ClickCanvas; ClickCanvas; ClickAt 960 560; Press "Control+A";
                      Press "Backspace"] ++ text_keys password)
                (logged W "Enter password" "Typing password (username cached)"
                   (paged [ClickCanvas]
                      (captured W cfg "03_login_screen_check_1"
                         (paged [CtrlAltDel]
                            (logged W "Send Ctrl+Alt+Del" "Bringing up login screen"
                               s))))))))).

Lemma runs_login_offline (username password : string) (max_wait : nat) (s : State) :
  10 <= max_wait ->
  runs (login_windows W cfg username password max_wait) s true
       (logged_in_offline password s).
Proof.
  intros Hw. unfold login_windows. apply runs_try.
  destruct (max_wait / 10) as [|k] eqn:E.
  { apply Nat.div_small_iff in E; lia. }
  cbn [poll_login_screen Nat.eqb orb].
  eapply runs_bind.
  { eapply runs_bind.
    { eapply runs_bind; [apply runs_log_action | apply (runs_send_cad _ Hnf)]. }
    eapply runs_bind; [apply runs_capture_offline | apply runs_ret]. }
  cbn [negb]. rewrite Hoff.
  eapply runs_bind; [apply runs_ret|].
  unfold check_displayed_username. cbn [displayed_username].
  eapply runs_bind; [apply runs_ret|].
  eapply runs_bind; [apply (runs_click_canvas _ Hnf)|].
  cbn [password_only has_username has_password negb andb].
  eapply runs_bind; [apply runs_enter_password|].
  eapply runs_bind; [apply (runs_page _ Hnf)|].
  eapply runs_bind; [apply runs_capture_offline|].
  cbn [login_decision].
  eapply runs_bind; [apply runs_disable_lock|].
  eapply runs_bind; [apply runs_capture_offline | apply runs_ret].
Qed.

End Offline.

(** X15.  Without a model client and with a working page, [login_windows]
    reports success unverified after a single poll: the username is never
    typed, the password goes into the field clicked at (960, 560), and
    between the three screenshots the keystrokes are the wake-up, the
    password entry with its submit, and the power settings. *)
Theorem login_without_model_client (W : World) (cfg : Config)
    (username password : string) (max_wait : nat) (s : State) :
  no_page_faults W -> llm_client cfg = false -> 10 <= max_wait ->
  exists p1 p2 p3 s',
    login_windows W cfg username password max_wait s = (Ok true, s')
    /\ page_calls s'
       = (page_calls s ++ [CtrlAltDel; Screenshot p1; ClickCanvas]
          ++ password_entry_keys password ++ [Screenshot p2]
          ++ screen_lock_keys ++ [Screenshot p3])%list
    /\ vision_count s' = vision_count s
    /\ verification_results s' = verification_results s.
Proof.
  intros Hnf Hoff Hw. do 3 eexists. exists (logged_in_offline W cfg password s).
  split; [apply runs_login_offline; assumption|].
  unfold logged_in_offline, password_entry_keys.
  split; [|split].
  - read_page_calls. rewrite <- !app_assoc. reflexivity.
  - read_vision_count. reflexivity.
  - read_verifications. reflexivity.
Qed.

Lemma login_without_model_client_witness :
  exists s',
    login_windows (scripted_world (fun _ => None)) (mkConfig "screenshots" false 2)
      "administrator" "Pw" 60 initial_state = (Ok true, s')
    /\ filter (fun c => match c with TypeText _ | KeyDown _ | KeyUp _ => true
                                   | _ => false end)
         (firstn 13 (page_calls s'))
       = [KeyDown "Shift"; TypeText "p"; KeyUp "Shift"; TypeText "w"].
Proof.
  destruct (login_without_model_client (scripted_world (fun _ => None))
              (mkConfig "screenshots" false 2) "administrator" "Pw" 60 initial_state)
    as (p1 & p2 & p3 & s' & E & Hp & _).
  - intros n. reflexivity.
  - reflexivity.
  - repeat constructor.
  - exists s'. split; [exact E|]. rewrite Hp. reflexivity.
Defined.

(** ** A command that shows no error *)

(** The keystrokes of one attempt of a shell command that runs to its
    end; [p1] to [p5] are the paths of its five screenshots. *)
Definition command_keys (command p1 p2 p3 p4 p5 : string) : list PageCall :=
  ([ClickCanvas; Press "Meta+R"; Screenshot p1; TypeText "cmd.exe"; Screenshot p2;
    Press "Enter"; Screenshot p3; TypeText "powershell.exe"; Press "Enter";
    Screenshot p4]
   ++ text_keys command ++ [Press "Enter"; Screenshot p5; Press "Alt+F4"])%list.

Section CommandSuccess.
Variable W : World.
Variable cfg : Config.
Hypothesis Hnf : no_page_faults W.
Hypothesis Hllm : llm_client cfg = true.
Variables output_name failed_name command : string.

(** Where an attempt that runs to its end leaves the state. *)
Definition command_done (attempt : nat) (s : State) : State :=
  paged [Press "Alt+F4"]
    (captured_verified W cfg (output_name ++ of_nat attempt) (output_state command)
       (paged (text_keys command ++ [Press "Enter"])
          (logged W ("Execute command: " ++ command) "Typing command in PowerShell"
             (captured_verified W cfg ("09_powershell_prompt_ready_attempt" ++ of_nat attempt)
                prompt_ready_state
                (paged [TypeText "powershell.exe"; Press "Enter"]
                   (logged W "Launch PowerShell from cmd" "Typing powershell.exe in cmd"
                      (captured W cfg ("09_cmd_window_opened_attempt" ++ of_nat attempt)
                         (paged [Press "Enter"]
                            (captured W cfg
                               ("09_run_dialog_typed_cmd_attempt" ++ of_nat attempt)
                               (paged [TypeText "cmd.exe"]
                                  (dialog_checked W cfg attempt s))))))))))).

Lemma vision_count_dialog_checked (attempt : nat) (s : State) :
  vision_count (dialog_checked W cfg attempt s) = S (vision_count s).
Proof. reflexivity. Qed.

Lemma runs_capture_verified_at (name expected : string) (s : State) (n : nat) :
  nonempty expected = true -> vision_count s = n ->
  runs (_capture_screenshot W cfg name (Some expected)) s
    (shot_path cfg (clock W (clock_count s)) name,
     Some (verify_ui_state (vision W n)))
    (captured_verified W cfg name expected s).
Proof. intros He <-. now apply runs_capture_verified. Qed.

Lemma attempt_without_error (attempt : nat) (s : State) :
  verified (verify_ui_state (vision W (vision_count s))) = true ->
  screen_locked (upper (description (verify_ui_state (vision W (vision_count s))))) = false ->
  command_has_error (Some (verify_ui_state (vision W (2 + vision_count s)))) = false ->
  runs (powershell_attempt W cfg output_name failed_name command attempt) s
       (Return true) (command_done attempt s).
Proof.
  intros Hv Hlock Herr. unfold powershell_attempt. apply runs_try.
  eapply runs_bind; [apply runs_log_action|].
  eapply runs_bind; [apply (runs_click_canvas _ Hnf)|].
  eapply runs_bind; [apply (runs_page _ Hnf)|].
  eapply runs_bind;
    [apply (runs_capture_verified_at _ _ _ (vision_count s)); reflexivity|].
  cbv beta iota. unfold run_dialog_check. rewrite Hlock, Hv. cbn [negb].
  fold (dialog_checked W cfg attempt s).
  eapply runs_bind; [apply (runs_page _ Hnf)|].
  eapply runs_bind; [apply (runs_capture _ _ Hnf)|].
  eapply runs_bind; [apply (runs_page _ Hnf)|].
  eapply runs_bind; [apply (runs_capture _ _ Hnf)|].
  eapply runs_bind; [apply runs_log_action|].
  eapply runs_bind; [apply (runs_page _ Hnf)|].
  eapply runs_bind; [apply (runs_page _ Hnf)|]. rewrite paged_paged. cbn [app].
  eapply runs_bind;
    [apply (runs_capture_verified_at _ _ _ (1 + vision_count s)); reflexivity|].
  eapply runs_bind; [apply runs_log_action|].
  eapply runs_bind; [apply (runs_type_chars _ Hnf)|].
  eapply runs_bind; [apply (runs_page _ Hnf)|]. rewrite paged_paged.
  eapply runs_bind;
    [apply (runs_capture_verified_at _ _ _ (2 + vision_count s)); reflexivity|].
  cbv beta iota. rewrite Herr.
  eapply runs_bind; [apply (runs_page _ Hnf) | apply runs_ret].
Qed.

(** An attempt whose output is classified as an error runs to its end
    as well: the window is closed and the attempt is used up. *)
Lemma attempt_with_error (attempt : nat) (s : State) :
  verified (verify_ui_state (vision W (vision_count s))) = true ->
  screen_locked (upper (description (verify_ui_state (vision W (vision_count s))))) = false ->
  command_has_error (Some (verify_ui_state (vision W (2 + vision_count s)))) = true ->
  runs (powershell_attempt W cfg output_name failed_name command attempt) s
       (retry_or_fail cfg attempt) (command_done attempt s).
Proof.
  intros Hv Hlock Herr. unfold powershell_attempt. apply runs_try.
  eapply runs_bind; [apply runs_log_action|].
  eapply runs_bind; [apply (runs_click_canvas _ Hnf)|].
  eapply runs_bind; [apply (runs_page _ Hnf)|].
  eapply runs_bind;
    [apply (runs_capture_verified_at _ _ _ (vision_count s)); reflexivity|].
  cbv beta iota. unfold run_dialog_check. rewrite Hlock, Hv. cbn [negb].
  fold (dialog_checked W cfg attempt s).
  eapply runs_bind; [apply (runs_page _ Hnf)|].
  eapply runs_bind; [apply (runs_capture _ _ Hnf)|].
  eapply runs_bind; [apply (runs_page _ Hnf)|].
  eapply runs_bind; [apply (runs_capture _ _ Hnf)|].
  eapply runs_bind; [apply runs_log_action|].
  eapply runs_bind; [apply (runs_page _ Hnf)|].
  eapply runs_bind; [apply (runs_page _ Hnf)|]. rewrite paged_paged. cbn [app].
  eapply runs_bind;
    [apply (runs_capture_verified_at _ _ _ (1 + vision_count s)); reflexivity|].
  eapply runs_bind; [apply runs_log_action|].
  eapply runs_bind; [apply (runs_type_chars _ Hnf)|].
  eapply runs_bind; [apply (runs_page _ Hnf)|]. rewrite paged_paged.
  eapply runs_bind;
    [apply (runs_capture_verified_at _ _ _ (2 + vision_count s)); reflexivity|].
  cbv beta iota. rewrite Herr. unfold retry_or_fail.
  destruct (Nat.ltb attempt (max_retries cfg));
    (eapply runs_bind; [apply (runs_page _ Hnf) | apply runs_ret]).
Qed.

Lemma vision_count_command_done (attempt : nat) (s : State) :
  vision_count (command_done attempt s) = 3 + vision_count s.
Proof. reflexivity. Qed.

End CommandSuccess.

(** ** A command that always shows an error *)

(** C4.  With [max_retries] at 2, as the orchestrator has it, a command
    whose run dialog is confirmed and whose output is classified as an
    error on both attempts is attempted exactly twice: the loop runs
    attempts 1 and 2 and returns failure; the page receives the
    keystrokes of two full attempts, the command typed in each, and
    nothing else; ten screenshots are kept, the output screenshots named
    after attempts 1 and 2; six oracle answers are consumed; and the
    action log gains the three entries of an attempt twice.  The
    orchestrator appends a step for the command with [success] false and
    goes on with the commands that remain; and [run_verification]
    returns a result in every world. *)
Theorem always_failing_command_two_attempts (W : World) (settings : Settings)
    (command : string) (steps : list StepResult) (i : nat) (rest : list string)
    (s : State) :
  no_page_faults W ->
  (forall k, k < 2 ->
     verified (verify_ui_state (vision W (3 * k + vision_count s))) = true
     /\ screen_locked
          (upper (description (verify_ui_state (vision W (3 * k + vision_count s)))))
        = false) ->
  (forall k, k < 2 ->
     command_has_error (Some (verify_ui_state (vision W (3 * k + 2 + vision_count s))))
     = true) ->
  max_retries (vm_config settings) = 2
  /\ (exists p1 p2 p3 p4 p5 q1 q2 q3 q4 q5 s',
        run_powershell_interactive_attempts W (vm_config settings) command s
        = (Ok (false, [1; 2]), s')
        /\ run_powershell_interactive W (vm_config settings) command s = (Ok false, s')
        /\ page_calls s'
           = (page_calls s ++ command_keys command p1 p2 p3 p4 p5
              ++ command_keys command q1 q2 q3 q4 q5)%list
        /\ screenshots s'
           = (screenshots s ++ [p1; p2; p3; p4; p5; q1; q2; q3; q4; q5])%list
        /\ contains "10_powershell_interactive_output_attempt1" p5 = true
        /\ contains "10_powershell_interactive_output_attempt2" q5 = true
        /\ vision_count s' = 6 + vision_count s
        /\ map action (action_log s')
           = (map action (action_log s)
              ++ ["Open Run dialog"; "Launch PowerShell from cmd";
                  ("Execute command: " ++ command)%string;
                  "Open Run dialog"; "Launch PowerShell from cmd";
                  ("Execute command: " ++ command)%string])%list
        /\ run_ps_commands W settings steps i (command :: rest) s
           = run_ps_commands W settings
               (steps ++ [command_step steps i command false (clock W (clock_count s'))])%list
               (S i) rest (snd (now W s'))
        /\ exists timestamp s'',
             run_ps_commands W settings steps i [command] s
             = (Ok (steps
                    ++ [mkStep (length steps + 1)
                          ("Execute PowerShell command " ++ of_nat i ++ ": " ++ command)
                          false timestamp None None])%list, s''))
  /\ (forall agent custom_steps ps_commands s0, exists r s1,
        run_verification W settings agent custom_steps ps_commands s0 = (Ok r, s1)).
Proof.
  intros Hnf Hd He. split; [reflexivity|]. split;
    [|intros agent custom_steps ps_commands s0; apply nr_run_verification].
  destruct (Hd 0 ltac:(lia)) as [Hv0 Hl0]. pose proof (He 0 ltac:(lia)) as He0.
  destruct (Hd 1 ltac:(lia)) as [Hv1 Hl1]. pose proof (He 1 ltac:(lia)) as He1.
  cbn [Nat.mul Nat.add] in Hv0, Hl0, He0, Hv1, Hl1, He1.
  set (cfg := vm_config settings).
  set (o := "10_powershell_interactive_output_attempt").
  set (f := "10_interactive_powershell_failed_attempt").
  set (d1 := command_done W cfg o command 1 s).
  set (d2 := command_done W cfg o command 2 d1).
  assert (R1 : runs (powershell_attempt W cfg o f command 1) s Continue d1).
  { exact (attempt_with_error W cfg Hnf eq_refl o f command 1 s Hv0 Hl0 He0). }
  assert (R2 : runs (powershell_attempt W cfg o f command 2) d1 (Return false) d2).
  { apply (attempt_with_error W cfg Hnf eq_refl o f command 2 d1);
      unfold d1; rewrite (vision_count_command_done W cfg); assumption. }
  assert (R : runs (run_powershell_interactive_attempts W cfg command) s (false, [1; 2]) d2).
  { unfold run_powershell_interactive_attempts.
    change (max_retries cfg) with 2. cbn [for_attempts].
    eapply runs_bind; [exact R1 | cbv beta iota].
    eapply runs_bind;
      [eapply runs_bind; [exact R2 | apply runs_ret] | cbv beta iota; apply runs_ret]. }
  do 10 eexists. exists d2.
  split; [exact R|].
  split; [exact (runs_fst _ _ _ _ _ R)|].
  split.
  { unfold d2, d1, command_done, dialog_checked, command_keys. read_page_calls.
    rewrite <- !app_assoc. reflexivity. }
  split.
  { unfold d2, d1, command_done, dialog_checked. read_screenshots.
    rewrite <- !app_assoc. reflexivity. }
  split;
    [exact (contains_shot_path cfg _ "10_powershell_interactive_output_attempt1" "")|].
  split;
    [exact (contains_shot_path cfg _ "10_powershell_interactive_output_attempt2" "")|].
  split.
  { unfold d2, d1. now rewrite !(vision_count_command_done W cfg). }
  split.
  { unfold d2, d1, command_done, dialog_checked. read_action_log.
    rewrite !map_app. cbn [map action]. rewrite <- !app_assoc. reflexivity. }
  split; [exact (run_ps_commands_step W settings steps i command rest _ _ _ _ R)|].
  eexists _, _.
  rewrite (run_ps_commands_step W settings steps i command [] _ _ _ _ R).
  reflexivity.
Qed.

Lemma always_failing_command_two_attempts_witness :
  exists s',
    run_powershell_interactive_attempts
      (scripted_world (fun _ => Some always_error_reply))
      (vm_config (example_settings 120)) "dir" initial_state
    = (Ok (false, [1; 2]), s')
    /\ vision_count s' = 6
    /\ length (screenshots s') = 10.
Proof.
  destruct (always_failing_command_two_attempts
              (scripted_world (fun _ => Some always_error_reply))
              (example_settings 120) "dir" [] 1 [] initial_state)
    as (_ & (p1 & p2 & p3 & p4 & p5 & q1 & q2 & q3 & q4 & q5 & s'
             & H & _ & _ & Hs & _ & _ & Hv & _) & _).
  - intros n. reflexivity.
  - intros k _. split; vm_compute; reflexivity.
  - intros k _. vm_compute. reflexivity.
  - exists s'. split; [exact H|]. split; [exact Hv|]. rewrite Hs. reflexivity.
Defined.

(** X16.  A shell command succeeds on its first attempt whenever the run
    dialog is confirmed and the description of the output shows no error
    indicator, whether or not the oracle verifies the prompt or the
    output: three oracle answers are consumed, the second is not looked
    at, and the page receives exactly the keystrokes of one attempt. *)
Theorem command_without_error_succeeds (W : World) (cfg : Config) (command : string)
    (s : State) :
  no_page_faults W -> llm_client cfg = true -> 1 <= max_retries cfg ->
  verified (verify_ui_state (vision W (vision_count s))) = true ->
  screen_locked (upper (description (verify_ui_state (vision W (vision_count s))))) = false ->
  command_has_error (Some (verify_ui_state (vision W (2 + vision_count s)))) = false ->
  exists p1 p2 p3 p4 p5 s',
    run_powershell_command_attempts W cfg command s = (Ok (true, [1]), s')
    /\ page_calls s' = (page_calls s ++ command_keys command p1 p2 p3 p4 p5)%list
    /\ vision_count s' = 3 + vision_count s.
Proof.
  intros Hnf Hllm Hr Hv Hlock Herr.
  do 5 eexists.
  exists (command_done W cfg "10_powershell_command_executed_attempt" command 1 s).
  split; [|split].
  - unfold run_powershell_command_attempts.
    destruct (max_retries cfg) as [|n]; [lia|]. cbn [for_attempts].
    eapply runs_bind; [apply attempt_without_error; assumption | apply runs_ret].
  - unfold command_done, dialog_checked, command_keys. read_page_calls.
    rewrite <- !app_assoc. reflexivity.
  - unfold command_done. read_vision_count.
    rewrite (vision_count_dialog_checked W cfg). reflexivity.
Qed.

(** The oracle confirms the run dialog and then verifies nothing. *)
Definition unverified_output (n : nat) : option string :=
  match n with
  | 0 => Some (lines ["VERIFIED: yes"; "CONFIDENCE: high"; "DESCRIPTION: Run dialog"])
  | _ => Some (lines ["VERIFIED: no"; "CONFIDENCE: high"; "DESCRIPTION: plain output"])
  end.

Lemma command_without_error_succeeds_witness :
  exists s',
    run_powershell_command_attempts (scripted_world unverified_output)
      (mkConfig "screenshots" true 2) "hostname" initial_state = (Ok (true, [1]), s')
    /\ vision_count s' = 3
    /\ verified (verify_ui_state (unverified_output 2)) = false.
Proof.
  destruct (command_without_error_succeeds (scripted_world unverified_output)
              (mkConfig "screenshots" true 2) "hostname" initial_state)
    as (p1 & p2 & p3 & p4 & p5 & s' & E & _ & Hv).
  - intros n. reflexivity.
  - reflexivity.
  - repeat constructor.
  - reflexivity.
  - reflexivity.
  - reflexivity.
  - exists s'. split; [exact E|]. split; [exact Hv | reflexivity].
Defined.

(** ** The Server Manager check without a verdict *)

(** X17.  [open_server_manager] reports success on its first attempt whenever
    its screenshot brings no verdict: without a model client, and also
    when the screenshot call itself fails. *)
Theorem server_manager_without_verdict_passes (W : World) (cfg : Config) (s : State) :
  1 <= max_retries cfg ->
  llm_client cfg = false \/ page_fault W (S (page_count s)) <> None ->
  exists s',
    open_server_manager_attempts W cfg s = (Ok (true, [1]), s')
    /\ vision_count s' = vision_count s.
Proof.
  intros Hr H. unfold open_server_manager_attempts.
  destruct (max_retries cfg) as [|n]; [lia|]. cbn [for_attempts].
  unfold server_manager_attempt.
  generalize ("08_server_manager_visible_attempt" ++ of_nat 1). intros name.
  generalize ("08_server_manager_check_failed_attempt" ++ of_nat 1). intros failed_name.
  unfold bind at 1, try_except.
  unfold bind at 1. unfold _log_action at 1, bind at 1, now at 1, add_log at 1.
  cbv beta iota.
  match goal with |- context [bind (_click_vnc_canvas W) _ ?s0] => set (s1 := s0) end.
  assert (H1 : exists s2, _click_vnc_canvas W s1 = (Ok tt, s2)
                 /\ page_count s2 = S (page_count s) /\ vision_count s2 = vision_count s).
  { unfold _click_vnc_canvas, try_except, page, ret. subst s1. cbn [page_count].
    destruct (page_fault W (page_count s)); eexists; repeat split. }
  destruct H1 as (s2 & E2 & Hp2 & Hv2).
  unfold bind at 1. rewrite E2.
  rewrite <- Hp2 in H.
  destruct (capture_without_verdict W cfg name (Some server_manager_state) s2 H)
    as (path & s3 & E3 & _ & Hv3).
  unfold bind at 1. rewrite E3. cbv beta iota.
  exists s3. split; [reflexivity | congruence].
Qed.

Lemma server_manager_without_verdict_passes_witness :
  exists s',
    open_server_manager_attempts
      (mkWorld (fun _ => Some "Target closed")
         (fun _ => None) (fun _ => Answer "summary") (fun n => "T" ++ of_nat n)
         (Answer None) (Answer "host") (Answer None) (Answer true) (Answer "running")
         (Answer "") (Answer true) (Answer ("report.html", "report.json")))
      (mkConfig "screenshots" true 2) initial_state = (Ok (true, [1]), s')
    /\ vision_count s' = 0.
Proof.
  destruct (server_manager_without_verdict_passes
              (mkWorld (fun _ => Some "Target closed")
                 (fun _ => None) (fun _ => Answer "summary") (fun n => "T" ++ of_nat n)
                 (Answer None) (Answer "host") (Answer None) (Answer true) (Answer "running")
                 (Answer "") (Answer true) (Answer ("report.html", "report.json")))
              (mkConfig "screenshots" true 2) initial_state)
    as (s' & E & Hv).
  - repeat constructor.
  - right. discriminate.
  - exists s'. split; [exact E | exact Hv].
Defined.

(** ** The parsed answers *)

(** No lower-case ASCII letter occurs in [x]. *)
Definition no_lower (x : string) : Prop :=
  forallb (fun c => negb (is_lower_ascii c)) (chars x) = true.

Section Uppercase.

Lemma upper_char_no_lower (c : ascii) : is_lower_ascii (upper_char c) = false.
Proof.
  destruct c as [b0 b1 b2 b3 b4 b5 b6 b7].
  destruct b0, b1, b2, b3, b4, b5, b6, b7; reflexivity.
Qed.

Lemma no_lower_upper (x : string) : no_lower (upper x).
Proof.
  unfold no_lower. induction x as [|c x IH]; [reflexivity|].
  cbn [upper map_str chars list_ascii_of_string forallb].
  rewrite upper_char_no_lower. exact IH.
Qed.

Lemma no_lower_cons (c : ascii) (x : string) :
  no_lower (String c x) <-> is_lower_ascii c = false /\ no_lower x.
Proof.
  unfold no_lower. cbn [chars list_ascii_of_string forallb].
  rewrite andb_true_iff, negb_true_iff. reflexivity.
Qed.

Lemma no_lower_app (a b : string) : no_lower (a ++ b) <-> no_lower a /\ no_lower b.
Proof.
  induction a as [|c a IH]; cbn [append].
  - split; [intros H; split; [reflexivity | exact H] | intros [_ H]; exact H].
  - rewrite !no_lower_cons, IH. tauto.
Qed.

Lemma no_lower_rev (x : string) : no_lower x -> no_lower (rev_str x).
Proof.
  induction x as [|c x IH]; [trivial|].
  rewrite no_lower_cons. intros [Hc Hx]. cbn [rev_str].
  apply no_lower_app. split; [now apply IH | now apply no_lower_cons].
Qed.

Lemma no_lower_lstrip (x : string) : no_lower x -> no_lower (lstrip x).
Proof.
  induction x as [|c x IH]; [trivial|].
  intros H. cbn [lstrip]. destruct (is_space c); [|exact H].
  apply IH. now apply no_lower_cons in H.
Qed.

Lemma no_lower_strip (x : string) : no_lower x -> no_lower (strip x).
Proof.
  intros H. unfold strip, rstrip.
  now apply no_lower_rev, no_lower_lstrip, no_lower_rev, no_lower_lstrip.
Qed.

Lemma no_lower_split1_tail (sep : ascii) (x t : string) :
  no_lower x -> split1_tail sep x = Some t -> no_lower t.
Proof.
  induction x as [|c x IH]; [discriminate|].
  rewrite no_lower_cons. intros [_ Hx]. cbn [split1_tail].
  destruct (Ascii.eqb c sep); [now intros [= <-] | now apply IH].
Qed.

Lemma no_lower_split (sep : ascii) (x : string) :
  no_lower x -> Forall no_lower (split sep x).
Proof.
  induction x as [|c x IH]; [now repeat constructor|].
  rewrite no_lower_cons. intros [Hc Hx]. specialize (IH Hx). cbn [split].
  destruct (Ascii.eqb c sep); [constructor; [reflexivity | exact IH]|].
  destruct (split sep x) as [|h r].
  - repeat constructor. now apply no_lower_cons.
  - inversion IH; subst. constructor; [now apply no_lower_cons | assumption].
Qed.

End Uppercase.

(** What the loop of [verify_ui_state] maintains, for the reply [resp]. *)
Definition well_formed_verdict (resp : string) (r : Verdict) : Prop :=
  raw_response r = resp
  /\ In (confidence r) ["high"; "medium"; "low"]
  /\ (description r = resp \/ no_lower (description r)).

Section VerdictInvariant.

Lemma eqb_one_of (conf : string) :
  String.eqb conf "high" || String.eqb conf "medium" || String.eqb conf "low" = true ->
  In conf ["high"; "medium"; "low"].
Proof.
  intros H. apply orb_true_iff in H as [H|H]; [apply orb_true_iff in H as [H|H]|];
    apply String.eqb_eq in H; subst; cbn; auto.
Qed.

Lemma verify_line_well_formed (resp line : string) (r r' : Verdict) :
  no_lower line -> well_formed_verdict resp r -> verify_line r line = Some r' ->
  well_formed_verdict resp r'.
Proof.
  intros Hline (Hraw & Hconf & Hdesc). unfold verify_line.
  destruct (contains "VERIFIED:" line).
  { intros [= <-]. repeat split; assumption. }
  destruct (contains "CONFIDENCE:" line).
  { destruct (split1_tail colon line) as [t|]; [|discriminate].
    destruct (_ || _) eqn:E; intros [= <-]; repeat split; try assumption.
    now apply eqb_one_of. }
  destruct (contains "DESCRIPTION:" line).
  { destruct (split1_tail colon line) as [t|] eqn:Et; [|discriminate].
    intros [= <-]. repeat split; try assumption. right. cbn [description].
    apply no_lower_strip. eapply no_lower_split1_tail; eassumption. }
  intros [= <-]. repeat split; assumption.
Qed.

Lemma verify_lines_well_formed (resp : string) (lines : list string) :
  Forall no_lower lines ->
  forall r r', well_formed_verdict resp r -> verify_lines r lines = Some r' ->
  well_formed_verdict resp r'.
Proof.
  induction 1 as [|line lines Hl _ IH]; intros r r' Hr; cbn [verify_lines].
  - now intros [= <-].
  - destruct (verify_line r line) as [r1|] eqn:E; [|discriminate].
    apply IH. eapply verify_line_well_formed; eassumption.
Qed.

End VerdictInvariant.

(** X18.  Whatever the model replies, [verify_ui_state] parses it without an
    exception: the verdict keeps the reply as [raw_response], its
    confidence is high, medium or low, and its description is the whole
    reply or a text without lower-case letters (the labelled lines are
    read from the upper-cased reply).  The error verdict is left to a
    missing reply. *)
Theorem verdict_of_any_reply (reply : string) :
  well_formed_verdict reply (verify_ui_state (Some reply))
  /\ confidence (verify_ui_state None) = "error"
  /\ verified (verify_ui_state None) = false.
Proof.
  split; [|split; reflexivity].
  unfold verify_ui_state.
  destruct (verify_lines_total (split newline (upper reply))
              (mkVerdict false "low" reply reply)) as [r E].
  rewrite E.
  eapply verify_lines_well_formed; [| |exact E].
  - apply no_lower_split, no_lower_upper.
  - repeat split; cbn; auto.
Qed.

(** What the loop of [detect_login_fields] maintains. *)
Definition well_formed_detection (resp : string) (r : FieldDetection) : Prop :=
  fd_raw_response r = resp
  /\ match displayed_username r with
     | Some u => String.eqb (lower u) "none" = false
     | None => True
     end.

Section DetectionInvariant.

Lemma detect_line_well_formed (resp line : string) (r : FieldDetection) :
  well_formed_detection resp r -> well_formed_detection resp (detect_line r line).
Proof.
  intros [Hraw Hd]. unfold detect_line.
  destruct (_ || _); [split; assumption|].
  destruct (_ || _); [split; assumption|].
  destruct (_ || _).
  { split; [assumption|]. cbn [displayed_username].
    match goal with |- context [if ?b then None else _] => destruct b eqn:E end;
      [trivial | exact E]. }
  destruct (contains "DESCRIPTION:" (upper line)); split; assumption.
Qed.

Lemma detect_lines_well_formed (resp : string) (lines : list string) :
  forall r, well_formed_detection resp r ->
  well_formed_detection resp (fold_left detect_line lines r).
Proof.
  induction lines as [|line lines IH]; intros r Hr; cbn [fold_left]; [exact Hr|].
  apply IH. now apply detect_line_well_formed.
Qed.

Lemma nonempty_take (n : nat) (x : string) :
  nonempty (take (S n) x) = nonempty x.
Proof. destruct x; reflexivity. Qed.

End DetectionInvariant.

(** X19.  Whatever the model replies, [detect_login_fields] keeps the reply as
    [raw_response], never reports a displayed username that spells
    "none" in any letter case, and gives a description that is empty
    only for the empty reply; and after the fall-back of [login_windows]
    at least one field is always taken to be present, also when there
    was no reply at all. *)
Theorem detection_of_any_reply (reply : string) (response : option string) :
  well_formed_detection reply (detect_login_fields (Some reply))
  /\ nonempty (fd_description (detect_login_fields (Some reply))) = nonempty reply
  /\ has_username (fallback_fields (detect_login_fields response))
     || has_password (fallback_fields (detect_login_fields response)) = true.
Proof.
  split; [|split].
  - unfold detect_login_fields.
    pose proof (detect_lines_well_formed reply (split newline reply)
                  (mkFields false false None "" reply) (conj eq_refl I)) as [Hraw Hd].
    destruct (nonempty _); split; assumption.
  - unfold detect_login_fields.
    set (r := fold_left detect_line (split newline reply)
                (mkFields false false None "" reply)).
    destruct (nonempty (fd_description r)) eqn:E.
    + rewrite E. destruct reply as [|c reply]; [|reflexivity].
      exfalso. vm_compute in E. discriminate E.
    + cbn [fd_description]. apply (nonempty_take 199).
  - unfold fallback_fields.
    destruct (negb (nonempty _) || _) eqn:E; [reflexivity|].
    apply orb_false_iff in E as [_ E].
    destruct (has_username _), (has_password _); try reflexivity; discriminate E.
Qed.

(** ** Matching the displayed user *)

(** [x] holds no backslash. *)
Definition no_backslash (x : string) : Prop :=
  forallb (fun c => negb (Ascii.eqb c backslash)) (chars x) = true.

Section DomainPrefix.

Lemma split_never_empty (sep : ascii) (x : string) : split sep x <> [].
Proof.
  destruct x as [|c x]; cbn [split]; [discriminate|].
  destruct (Ascii.eqb c sep); [discriminate|]. destruct (split sep x); discriminate.
Qed.

Lemma split_app (sep : ascii) (a b : string) :
  split sep (a ++ String sep b) = (split sep a ++ split sep b)%list.
Proof.
  induction a as [|c a IH]; cbn [append split].
  - now rewrite Ascii.eqb_refl.
  - rewrite IH. destruct (Ascii.eqb c sep); [reflexivity|].
    destruct (split sep a) as [|h r] eqn:E; [|reflexivity].
    now elim (split_never_empty sep a).
Qed.

Lemma split_no_separator (x : string) : no_backslash x -> split backslash x = [x].
Proof.
  unfold no_backslash. induction x as [|c x IH];
    cbn [chars list_ascii_of_string forallb split]; [reflexivity|].
  intros H. apply andb_prop in H as [Hc Hx].
  destruct (Ascii.eqb c backslash); [discriminate|]. now rewrite (IH Hx).
Qed.

Lemma contains_no_separator (x : string) :
  no_backslash x -> contains (String backslash "") x = false.
Proof.
  unfold no_backslash. induction x as [|c x IH];
    cbn [chars list_ascii_of_string forallb]; [reflexivity|].
  intros H. apply andb_prop in H as [Hc Hx]. rewrite contains_unfold.
  cbn [prefix]. destruct (ascii_dec backslash c) as [<-|_].
  - rewrite Ascii.eqb_refl in Hc. discriminate.
  - now apply IH.
Qed.

Lemma contains_separator (a b : string) :
  contains (String backslash "") (a ++ String backslash b) = true.
Proof.
  change (String backslash b) with (String backslash "" ++ b).
  apply contains_app.
Qed.

Lemma strip_domain_prefixed (domain user : string) :
  no_backslash user -> strip_domain (domain ++ String backslash user) = user.
Proof.
  intros H. unfold strip_domain, last_item.
  rewrite contains_separator, split_app, (split_no_separator user H).
  apply last_last.
Qed.

Lemma strip_domain_plain (user : string) : no_backslash user -> strip_domain user = user.
Proof. intros H. unfold strip_domain. now rewrite contains_no_separator. Qed.

Lemma lower_upper_char (c : ascii) : lower_char (upper_char c) = lower_char c.
Proof.
  destruct c as [b0 b1 b2 b3 b4 b5 b6 b7].
  destruct b0, b1, b2, b3, b4, b5, b6, b7; reflexivity.
Qed.

Lemma lower_upper (x : string) : lower (upper x) = lower x.
Proof.
  induction x as [|c x IH]; [reflexivity|].
  cbn [lower upper map_str]. rewrite lower_upper_char. f_equal. exact IH.
Qed.

Lemma upper_char_backslash (c : ascii) :
  Ascii.eqb (upper_char c) backslash = Ascii.eqb c backslash.
Proof.
  destruct c as [b0 b1 b2 b3 b4 b5 b6 b7].
  destruct b0, b1, b2, b3, b4, b5, b6, b7; reflexivity.
Qed.

Lemma no_backslash_upper (x : string) : no_backslash x -> no_backslash (upper x).
Proof.
  unfold no_backslash, chars, upper. induction x as [|c x IH]; [trivial|].
  cbn [map_str list_ascii_of_string forallb]. rewrite upper_char_backslash.
  intros H. apply andb_prop in H as [Hc Hx]. now rewrite Hc, (IH Hx).
Qed.

End DomainPrefix.

(** X20.  For names of ASCII characters: a displayed user with any
    domain prefix, itself with any number of backslashes, matches the
    expected user exactly when the names after the last backslash agree
    up to letter case; in particular a name shown in capitals matches. *)
Theorem domain_prefix_and_case_ignored (domain displayed username : string) :
  ascii_only domain -> ascii_only displayed -> ascii_only username ->
  no_backslash displayed -> no_backslash username ->
  username_matches (domain ++ String backslash displayed) username
  = String.eqb (lower displayed) (lower username)
  /\ username_matches (domain ++ String backslash (upper username)) username = true.
Proof.
  intros _ _ _ Hd Hu. unfold username_matches. split.
  - now rewrite (strip_domain_prefixed domain displayed Hd), (strip_domain_plain username Hu).
  - pose proof (no_backslash_upper username Hu) as Hup.
    rewrite (strip_domain_prefixed domain _ Hup), (strip_domain_plain username Hu).
    rewrite lower_upper. apply String.eqb_refl.
Qed.

Lemma domain_prefix_and_case_ignored_witness :
  username_matches "EU\CORP\ADMINISTRATOR" "Administrator" = true.
Proof.
  exact (proj2 (domain_prefix_and_case_ignored "EU\CORP" "x" "Administrator"
                  eq_refl eq_refl eq_refl eq_refl eq_refl)).
Defined.

(** ** The device of the restore *)

Lemma find_first {A} (p : A -> bool) (l : list A) (x : A) :
  find p l = Some x ->
  exists before after,
    l = (before ++ x :: after)%list
    /\ Forall (fun y => p y = false) before /\ p x = true.
Proof.
  induction l as [|y l IH]; cbn [find]; [discriminate|].
  destruct (p y) eqn:Ey.
  - intros [= <-]. exists [], l. repeat split; [constructor | exact Ey].
  - intros H. destruct (IH H) as (before & after & -> & Hb & Hx).
    exists (y :: before), after. repeat split; [now constructor | exact Hx].
Qed.

(** X21.  The device [_get_device_id_from_snapshot] returns is that of a
    location of the snapshot: of the first cloud location when there is
    one, of the first location otherwise; the state is not touched. *)
Theorem cloud_device_preferred (snap : Snapshot) (s s' : State) (device : option string) :
  _get_device_id_from_snapshot snap s = (Ok device, s') ->
  s' = s
  /\ exists before loc after,
       locations snap = (before ++ loc :: after)%list
       /\ loc_device_id loc = device
       /\ Forall (fun l => String.eqb (loc_type l) "cloud" = false) before
       /\ (String.eqb (loc_type loc) "cloud" = true
           \/ before = []
              /\ Forall (fun l => String.eqb (loc_type l) "cloud" = false) (loc :: after)).
Proof.
  unfold _get_device_id_from_snapshot.
  destruct (locations snap) as [|first rest] eqn:El; [discriminate|].
  destruct (find _ (first :: rest)) as [loc|] eqn:Ef; intros [= <- <-];
    (split; [reflexivity|]).
  - destruct (find_first _ _ _ Ef) as (before & after & E & Hb & Hc).
    exists before, loc, after. repeat split; [exact E | exact Hb | now left].
  - exists [], first, rest. repeat split; [constructor|]. right. split; [reflexivity|].
    apply Forall_forall. intros l Hl. exact (find_none _ _ Ef l Hl).
Qed.

Lemma cloud_device_preferred_witness :
  exists s',
    _get_device_id_from_snapshot
      (mkSnapshot "snap1" (Some "agent1")
         [mkLocation "local" (Some "dev1"); mkLocation "cloud" (Some "dev2");
          mkLocation "cloud" (Some "dev3")])
      initial_state = (Ok (Some "dev2"), s')
    /\ s' = initial_state.
Proof.
  exists initial_state. split; [reflexivity|].
  exact (proj1 (cloud_device_preferred
                  (mkSnapshot "snap1" (Some "agent1")
                     [mkLocation "local" (Some "dev1"); mkLocation "cloud" (Some "dev2");
                      mkLocation "cloud" (Some "dev3")])
                  initial_state initial_state (Some "dev2") eq_refl)).
Defined.

(** ** A machine that does not get ready *)

(** The provider calls of the agent look-up of [run_verification]. *)
Definition agent_calls (snap : Snapshot) : list ApiCall :=
  if truthy (agent_id snap)
  then [GetAgentDetails (match agent_id snap with Some a => a | None => "" end)]
  else [].

Definition not_ready_message : string :=
  "VM failed to become ready within timeout period".

Section NotReady.
Variable W : World.
Variable settings : Settings.

Lemma api_calls_after_agent_details (snap : Snapshot) (s : State) :
  api_calls (after_agent_details snap s) = (api_calls s ++ agent_calls snap)%list.
Proof.
  unfold after_agent_details, agent_calls.
  destruct (truthy (agent_id snap)); [reflexivity | now rewrite app_nil_r].
Qed.

Lemma fields_after_agent_details (snap : Snapshot) (s : State) :
  page_calls (after_agent_details snap s) = page_calls s
  /\ page_count (after_agent_details snap s) = page_count s
  /\ clock_count (after_agent_details snap s) = clock_count s.
Proof.
  unfold after_agent_details. destruct (truthy (agent_id snap)); repeat split.
Qed.

(** Where a run ends whose machine was created and did not get ready. *)
Definition gave_up_waiting (agent : option string) (snap : Snapshot)
    (device : option string) (id : string) (s : State) : State :=
  called (DestroyVM id)
    (called (WaitForVMReady (Some id) (vm_boot_timeout settings))
       (with_vm_id (Some id)
          (called (CreateVM (snapshot_id snap) device "network-none")
             (ticked
                (after_agent_details snap
                   (called (GetLatestSnapshot agent) (ticked s))))))).

Lemma runs_not_ready (agent : option string) (custom_steps ps_commands : list string)
    (snap : Snapshot) (id : string) (s : State) :
  latest_snapshot W = Answer (Some snap) ->
  locations snap <> [] ->
  created_vm W = Answer (Some id) -> nonempty id = true ->
  vm_ready W = Answer false ->
  exists device,
    runs (run_verification W settings agent custom_steps ps_commands) s
      (mkRun false None None None None None (Some not_ready_message))
      (gave_up_waiting agent snap device id s).
Proof.
  intros Hsnap Hloc Hvm Hid Hready.
  destruct (runs_agent_details W snap (called (GetLatestSnapshot agent) (ticked s)))
    as (info & Hinfo).
  destruct (runs_device_id snap
              (after_agent_details snap (called (GetLatestSnapshot agent) (ticked s))) Hloc)
    as (device & Hdev).
  exists device. unfold run_verification, gave_up_waiting.
  eapply runs_bind; [apply runs_now|].
  eapply runs_finally.
  { eapply runs_handler.
    { eapply failed_after.
      { unfold _get_latest_snapshot.
        eapply runs_bind; [apply runs_api; exact Hsnap | apply runs_ret]. }
      eapply failed_after; [exact Hinfo|].
      apply failed_bind. unfold _create_and_start_vm.
      eapply failed_after; [exact Hdev|].
      eapply failed_after; [apply runs_now|].
      eapply failed_after; [apply runs_api; exact Hvm|].
      eapply failed_after; [reflexivity|].
      eapply failed_after; [apply runs_api; exact Hready|].
      reflexivity. }
    reflexivity. }
  apply runs_cleanup; [reflexivity | exact Hid].
Qed.

End NotReady.

(** X22.  When the machine is created and does not get ready in time, the run
    fails with that message and no results, the browser is never
    started, and the machine is destroyed: the provider sees the
    snapshot look-up, the agent look-up if the snapshot names an agent,
    the creation, the wait and the teardown, in this order. *)
Theorem machine_not_ready_is_destroyed (W : World) (settings : Settings)
    (agent : option string) (custom_steps ps_commands : list string)
    (snap : Snapshot) (id : string) (s : State) :
  latest_snapshot W = Answer (Some snap) ->
  locations snap <> [] ->
  created_vm W = Answer (Some id) -> nonempty id = true ->
  vm_ready W = Answer false ->
  exists device s',
    run_verification W settings agent custom_steps ps_commands s
    = (Ok (mkRun false None None None None None (Some not_ready_message)), s')
    /\ api_calls s'
       = (api_calls s ++ [GetLatestSnapshot agent] ++ agent_calls snap
          ++ [CreateVM (snapshot_id snap) device "network-none";
              WaitForVMReady (Some id) (vm_boot_timeout settings);
              DestroyVM id])%list
    /\ page_calls s' = page_calls s /\ page_count s' = page_count s
    /\ vm_id s' = Some id.
Proof.
  intros Hsnap Hloc Hvm Hid Hready.
  destruct (runs_not_ready W settings agent custom_steps ps_commands snap id s
              Hsnap Hloc Hvm Hid Hready) as (device & H).
  exists device, (gave_up_waiting settings agent snap device id s).
  split; [exact H|]. unfold gave_up_waiting.
  cbn [called with_vm_id ticked api_calls page_calls page_count vm_id].
  rewrite api_calls_after_agent_details.
  destruct (fields_after_agent_details snap (called (GetLatestSnapshot agent) (ticked s)))
    as (Hp & Hc & _).
  rewrite Hp, Hc. cbn [called ticked api_calls page_calls page_count].
  repeat split. rewrite <- !app_assoc. reflexivity.
Qed.

Lemma machine_not_ready_is_destroyed_witness :
  exists s',
    run_verification
      (mkWorld (fun _ => None) (fun _ => None) (fun _ => Answer "summary")
         (fun n => "T" ++ of_nat n)
         (Answer (Some (mkSnapshot "snap1" (Some "agent1")
                          [mkLocation "cloud" (Some "dev1")])))
         (Answer "host") (Answer (Some "vm1")) (Answer false) (Answer "running")
         (Answer "https://display") (Answer true) (Answer ("report.html", "report.json")))
      (example_settings 60) None [] [] initial_state
    = (Ok (mkRun false None None None None None (Some not_ready_message)), s')
    /\ api_calls s'
       = [GetLatestSnapshot None; GetAgentDetails "agent1";
          CreateVM "snap1" (Some "dev1") "network-none";
          WaitForVMReady (Some "vm1") 300; DestroyVM "vm1"]
    /\ page_count s' = 0.
Proof.
  destruct (machine_not_ready_is_destroyed
              (mkWorld (fun _ => None) (fun _ => None) (fun _ => Answer "summary")
                 (fun n => "T" ++ of_nat n)
                 (Answer (Some (mkSnapshot "snap1" (Some "agent1")
                                  [mkLocation "cloud" (Some "dev1")])))
                 (Answer "host") (Answer (Some "vm1")) (Answer false) (Answer "running")
                 (Answer "https://display") (Answer true)
                 (Answer ("report.html", "report.json")))
              (example_settings 60) None [] []
              (mkSnapshot "snap1" (Some "agent1") [mkLocation "cloud" (Some "dev1")])
              "vm1" initial_state eq_refl)
    as (device & s' & E & _ & _ & Hc & _).
  - discriminate.
  - reflexivity.
  - reflexivity.
  - reflexivity.
  - exists s'. split; [exact E|]. split; [|exact Hc].
    vm_compute in E. injection E as <-. reflexivity.
Defined.

(** ** One run for every agent *)

Section AllAgents.
Variable during : nat -> World.
Variable settings : Settings.

Lemma torn_down_at_most_once (s s' : State) :
  torn_down_once s s' ->
  teardown_count (api_calls s') <= S (teardown_count (api_calls s)).
Proof.
  unfold torn_down_once. destruct (vm_id s') as [id|]; [destruct (nonempty id)|].
  - intros (calls & -> & <-). unfold teardown_count.
    rewrite filter_app, length_app. cbn. lia.
  - intros ->. lia.
  - intros ->. lia.
Qed.

Lemma verify_agents_results (custom_steps : list string)
    (snapshots_by_agent : list (string * Snapshot)) :
  forall results k s,
  exists more s',
    verify_agents during settings results k snapshots_by_agent custom_steps s
    = (Ok (results ++ more)%list, s')
    /\ map fst more = map fst snapshots_by_agent
    /\ Forall (fun r => well_shaped (snd r)) more
    /\ teardown_count (api_calls s')
       <= teardown_count (api_calls s) + length snapshots_by_agent.
Proof.
  induction snapshots_by_agent as [|[agent_id snapshot] rest IH]; intros results k s;
    cbn [verify_agents].
  - exists [], s. rewrite app_nil_r. repeat split; [constructor | cbn; lia].
  - destruct (nr_run_verification (during k) settings (Some agent_id) custom_steps [] s)
      as (r & s1 & E).
    pose proof (run_verification_well_shaped (during k) settings _ _ _ _ _ _ E) as Hr.
    pose proof (run_torn_down_once (during k) settings (Some agent_id) custom_steps [] s)
      as Ht.
    rewrite E in Ht. cbn [snd] in Ht. apply torn_down_at_most_once in Ht.
    unfold bind. rewrite E.
    destruct (IH (results ++ [(agent_id, r)])%list (S k) s1)
      as (more & s2 & E2 & Hm & Hw & Hc).
    exists ((agent_id, r) :: more), s2. rewrite E2, <- app_assoc.
    split; [reflexivity|]. split; [cbn [map fst]; now rewrite Hm|].
    split; [now constructor|]. cbn [length]. lia.
Qed.

End AllAgents.

(** X23.  The run over all agents, whatever the provider, the page and the
    models do in each of its runs: when the look-up of the snapshots
    raises, that exception leaves [run_verification_for_all_agents] and
    nothing else has been done; when it returns the dictionary, the
    function returns one result for each agent, in the order of the
    agents and tagged with the agent, each of one of the three shapes of
    a run result, and it asks the provider to destroy a machine at most
    once for each agent. *)
Theorem one_result_for_each_agent (during : nat -> World) (settings : Settings)
    (custom_steps : list string) (s : State) :
  (forall e,
     run_verification_for_all_agents during settings (Raise e) custom_steps s
     = (Raise e, s))
  /\ (forall snapshots_by_agent, exists results s',
        run_verification_for_all_agents during settings (Ok snapshots_by_agent)
          custom_steps s
        = (Ok results, s')
        /\ map fst results = map fst snapshots_by_agent
        /\ Forall (fun r => well_shaped (snd r)) results
        /\ teardown_count (api_calls s')
           <= teardown_count (api_calls s) + length snapshots_by_agent).
Proof.
  split; [reflexivity|]. intros snapshots_by_agent.
  unfold run_verification_for_all_agents.
  destruct snapshots_by_agent as [|item rest].
  - exists [], s. repeat split; [constructor | cbn; lia].
  - exact (verify_agents_results during settings custom_steps (item :: rest) [] 0 s).
Qed.

(** ** The step and decision parsers *)

(** A parsed step: not empty, and not beginning with a character of the
    numbering. *)
Definition bare_step (step : string) : Prop :=
  match step with
  | EmptyString => False
  | String c _ => existsb (Ascii.eqb c) numbering = false
  end.

Section StepParser.

Lemma lstrip_chars_bare (set : list ascii) (s : string) :
  match lstrip_chars set s with
  | EmptyString => True
  | String c _ => existsb (Ascii.eqb c) set = false
  end.
Proof.
  induction s as [|c s IH]; cbn [lstrip_chars]; [trivial|].
  destruct (existsb (Ascii.eqb c) set) eqn:E; [exact IH | exact E].
Qed.

Lemma parse_step_bare (steps : list string) (line : string) :
  Forall bare_step steps -> Forall bare_step (parse_step steps line).
Proof.
  intros H. unfold parse_step.
  destruct (nonempty (strip line) && _); [|exact H].
  pose proof (lstrip_chars_bare numbering (strip line)) as Hb.
  destruct (lstrip_chars numbering (strip line)) as [|c step]; [exact H|].
  cbn [nonempty]. apply Forall_app. split; [exact H | repeat constructor; exact Hb].
Qed.

Lemma parse_step_length (steps : list string) (line : string) :
  length (parse_step steps line) <= S (length steps).
Proof.
  unfold parse_step. destruct (nonempty (strip line) && _); [|lia].
  destruct (nonempty _); [|lia]. rewrite length_app. cbn. lia.
Qed.

Lemma parse_steps_from (lines : list string) :
  forall steps,
  Forall bare_step steps ->
  Forall bare_step (fold_left parse_step lines steps)
  /\ length (fold_left parse_step lines steps) <= length steps + length lines.
Proof.
  induction lines as [|line lines IH]; intros steps H; cbn [fold_left length].
  - split; [exact H | lia].
  - destruct (IH _ (parse_step_bare steps line H)) as [Hb Hl]. split; [exact Hb|].
    pose proof (parse_step_length steps line). lia.
Qed.

End StepParser.

(** X24.  Every step [_parse_steps] returns is non-empty and begins with no
    digit, dot, dash, star, closing bracket, blank or tab, so a number
    at the start of a step's own text is stripped with the numbering;
    and there are at most as many steps as lines in the stripped
    reply. *)
Theorem parsed_steps_are_bare (response : string) :
  Forall bare_step (_parse_steps response)
  /\ length (_parse_steps response) <= length (split newline (strip response)).
Proof.
  exact (parse_steps_from (split newline (strip response)) [] (Forall_nil _)).
Qed.

Section DecisionParser.

Lemma prefix_after_first (sep s : string) :
  prefix sep s = true -> after_first sep s <> None.
Proof. intros H. destruct s; cbn [after_first]; rewrite H; discriminate. Qed.

Lemma contains_after_first (sep s : string) :
  contains sep s = true -> after_first sep s <> None.
Proof.
  induction s as [|c s IH]; rewrite contains_unfold.
  - destruct (prefix sep "") eqn:E; [|discriminate].
    intros _. now apply prefix_after_first.
  - destruct (prefix sep (String c s)) eqn:E.
    + intros _. now apply prefix_after_first.
    + intros H. cbn [after_first]. rewrite E. now apply IH.
Qed.

Lemma decision_line_total (d : Decision) (line : string) :
  exists d',
    decision_line d line = Some d'
    /\ (In (decision_action d) ["continue"; "retry"; "abort"] ->
        In (decision_action d') ["continue"; "retry"; "abort"]).
Proof.
  unfold decision_line.
  destruct (contains "SUCCESS:" line); [eexists; split; [reflexivity | trivial]|].
  destruct (contains "REASON:" line) eqn:Er.
  { destruct (after_first "REASON:" line) eqn:Ea.
    - eexists; split; [reflexivity | trivial].
    - now elim (contains_after_first _ _ Er). }
  destruct (contains "NEXT_ACTION:" line || contains "NEXT ACTION:" line) eqn:En;
    [|eexists; split; [reflexivity | trivial]].
  destruct (split1_tail colon line) as [t|] eqn:Et.
  - cbv zeta. set (action := lower (strip t)).
    destruct (String.eqb action "continue" || String.eqb action "retry"
              || String.eqb action "abort") eqn:E;
      eexists; (split; [reflexivity|]); [|trivial].
    intros _. cbn [decision_action].
    apply orb_true_iff in E as [E|E]; [apply orb_true_iff in E as [E|E]|];
      apply String.eqb_eq in E; rewrite E; cbn; auto.
  - exfalso. apply orb_true_iff in En as [En|En]; revert Et.
    + apply contains_split1 with (p := "NEXT_ACTION:"); [discriminate | exact En].
    + apply contains_split1 with (p := "NEXT ACTION:"); [discriminate | exact En].
Qed.

Lemma decision_lines_total (lines : list string) :
  forall d,
  In (decision_action d) ["continue"; "retry"; "abort"] ->
  exists d',
    decision_lines d lines = Some d'
    /\ In (decision_action d') ["continue"; "retry"; "abort"].
Proof.
  induction lines as [|line lines IH]; intros d Hd; cbn [decision_lines].
  - now exists d.
  - destruct (decision_line_total d line) as (d1 & -> & H1). apply IH. now apply H1.
Qed.

End DecisionParser.

(** X25.  Whatever the reply, [_parse_decision] returns without an exception
    (every split it indexes is behind a test for its separator), and the
    action it returns is continue, retry or abort. *)
Theorem decision_of_any_reply (response : string) :
  exists d,
    _parse_decision response = Some d
    /\ In (decision_action d) ["continue"; "retry"; "abort"].
Proof.
  apply decision_lines_total. cbn. auto.
Qed.

(** ** The address of the remote display *)

Section SlideClient.
Variable quote : string -> string.

Lemma get_vnc_url_outcome (virt_id : string) (vm_details : reply VMDetails) :
  match get_vnc_url quote virt_id vm_details with
  | Ok url =>
      nonempty url = true
      /\ exists details before vnc_entry after ws,
           vm_details = Answer details
           /\ vnc details = (before ++ vnc_entry :: after)%list
           /\ Forall (fun e => String.eqb (vnc_type e) "cloud" = false) before
           /\ String.eqb (vnc_type vnc_entry) "cloud" = true
           /\ websocket_uri vnc_entry = Some ws
           /\ url = viewer ++ "id=" ++ virt_id ++ "&ws=" ++ quote ws
                    ++ "&password=" ++ vnc_password details ++ "="
  | Raise e => exists msg, e = SlideAPIError msg
  end.
Proof.
  unfold get_vnc_url. destruct vm_details as [details|msg]; [|eauto].
  destruct (vnc details) as [|e0 rest] eqn:Ev; [eauto|].
  destruct (find _ (e0 :: rest)) as [vnc_entry|] eqn:Ef; [|eauto].
  destruct (websocket_uri vnc_entry) as [ws|] eqn:Ew; [|eauto].
  destruct (nonempty ws); [|eauto].
  split; [reflexivity|].
  destruct (find_first _ _ _ Ef) as (before & after & E & Hb & Hc).
  exists details, before, vnc_entry, after, ws. rewrite Ev.
  repeat split; first [assumption | reflexivity].
Qed.

End SlideClient.

(** X26.  With [get_vnc_url] as the provider of the display address,
    [_get_novnc_url] either returns the viewer address built from the
    first cloud entry of the machine's [vnc] list, whatever the entries
    after it hold, or raises a [SlideAPIError]; the address is never
    empty, so the orchestrator's own empty-address error is not raised. *)
Theorem display_address_from_first_cloud_entry (W : World) (quote : string -> string)
    (virt_id : string) (vm_details : reply VMDetails) (s : State) :
  vnc_url W = client_answer (get_vnc_url quote virt_id vm_details) ->
  match fst (_get_novnc_url W s) with
  | Ok url =>
      exists details before vnc_entry after ws,
        vm_details = Answer details
        /\ vnc details = (before ++ vnc_entry :: after)%list
        /\ Forall (fun e => String.eqb (vnc_type e) "cloud" = false) before
        /\ String.eqb (vnc_type vnc_entry) "cloud" = true
        /\ websocket_uri vnc_entry = Some ws
        /\ url = viewer ++ "id=" ++ virt_id ++ "&ws=" ++ quote ws
                 ++ "&password=" ++ vnc_password details ++ "="
  | Raise e => exists msg, e = SlideAPIError msg
  end.
Proof.
  intros Hw. unfold _get_novnc_url, bind, get_vm_id, api, external. rewrite Hw.
  pose proof (get_vnc_url_outcome quote virt_id vm_details) as H.
  destruct (get_vnc_url quote virt_id vm_details) as [url|e]; cbn [client_answer fst].
  - destruct H as [Hne H]. rewrite Hne. exact H.
  - eauto.
Qed.

Lemma display_address_from_first_cloud_entry_witness :
  exists s',
    _get_novnc_url
      (mkWorld (fun _ => None) (fun _ => None) (fun _ => Answer "summary")
         (fun n => "T" ++ of_nat n) (Answer None) (Answer "host") (Answer None)
         (Answer true) (Answer "running")
         (client_answer
            (get_vnc_url (fun x => x) "vm1"
               (Answer (mkDetails [mkVnc "local" (Some "ws://lan"); mkVnc "cloud" (Some "wss");
                                   mkVnc "cloud" None] "pw"))))
         (Answer true) (Answer ("report.html", "report.json")))
      initial_state
    = (Ok "https://slide.recipes/mcpTools/vncViewer.php?id=vm1&ws=wss&password=pw=", s').
Proof.
  pose proof (display_address_from_first_cloud_entry
                (mkWorld (fun _ => None) (fun _ => None) (fun _ => Answer "summary")
                   (fun n => "T" ++ of_nat n) (Answer None) (Answer "host") (Answer None)
                   (Answer true) (Answer "running")
                   (client_answer
                      (get_vnc_url (fun x => x) "vm1"
                         (Answer (mkDetails [mkVnc "local" (Some "ws://lan");
                                             mkVnc "cloud" (Some "wss");
                                             mkVnc "cloud" None] "pw"))))
                   (Answer true) (Answer ("report.html", "report.json")))
                (fun x => x) "vm1"
                (Answer (mkDetails [mkVnc "local" (Some "ws://lan"); mkVnc "cloud" (Some "wss");
                                    mkVnc "cloud" None] "pw"))
                initial_state eq_refl) as H.
  destruct (_get_novnc_url _ initial_state) as [[url|e] s'] eqn:E; cbn [fst] in H.
  - exists s'. vm_compute in E. injection E as <- <-. reflexivity.
  - vm_compute in E. discriminate E.
Defined.

(** ** The browser session of a verification *)

(** Page calls are only added between [s] and [s']. *)
Definition extends_pages (s s' : State) : Prop :=
  exists more, page_calls s' = (page_calls s ++ more)%list.

Lemma frame_extends_pages : Frame extends_pages.
Proof.
  split; unfold extends_pages.
  - intros s. exists []. now rewrite app_nil_r.
  - intros s1 s2 s3 [a Ha] [b Hb]. exists (a ++ b)%list. now rewrite Hb, Ha, app_assoc.
  - intros W c s. unfold page.
    destruct (page_fault W (page_count s)); [exists [] | exists [c]]; cbn;
      now rewrite ?app_nil_r.
  - intros W s. exists []. cbn. now rewrite app_nil_r.
  - intros W s. exists []. cbn. now rewrite app_nil_r.
  - intros W s. exists []. unfold llm_chat.
    destruct (chat W (chat_count s)); cbn; now rewrite app_nil_r.
  - intros p s. exists []. cbn. now rewrite app_nil_r.
  - intros e s. exists []. cbn. now rewrite app_nil_r.
  - intros r s. exists []. cbn. now rewrite app_nil_r.
Qed.

(** X27.  When no page call fails, [_perform_verification] brackets whatever
    it does on the page, for every answer of the oracle and of the text
    model: the first page call is the start of the browser and the last
    one is its close. *)
Theorem browser_is_started_and_closed (W : World) (settings : Settings) (url : string)
    (custom_steps ps_commands : list string) (s : State) :
  no_page_faults W ->
  exists between,
    page_calls (snd (_perform_verification W settings url custom_steps ps_commands s))
    = (page_calls s ++ Launch :: between ++ [Close])%list.
Proof.
  intros Hnf.
  assert (E : _perform_verification W settings url custom_steps ps_commands s
              = try_finally (verification_steps W settings url custom_steps ps_commands)
                  (close W) (paged [Launch] (fresh_vm_automation s))).
  { unfold _perform_verification, with_vm_automation, bind.
    change (new_vm_automation s) with (Ok tt, fresh_vm_automation s). cbv beta iota.
    unfold start. now rewrite (runs_page W Hnf Launch). }
  rewrite E. unfold try_finally.
  destruct (keeps_verification_steps _ frame_extends_pages W settings url
              custom_steps ps_commands (paged [Launch] (fresh_vm_automation s)))
    as [between Hb].
  destruct (verification_steps W settings url custom_steps ps_commands
              (paged [Launch] (fresh_vm_automation s))) as [r s2].
  cbn [snd] in Hb. unfold close. rewrite (runs_page W Hnf Close).
  exists between. destruct r; cbn [snd]; rewrite page_calls_paged, Hb;
    cbn [paged fresh_vm_automation page_calls]; rewrite <- !app_assoc; reflexivity.
Qed.

Lemma browser_is_started_and_closed_witness :
  exists between,
    page_calls (snd (_perform_verification (scripted_world (fun _ => None))
                       (example_settings 5) "https://display" [] [] initial_state))
    = (Launch :: between ++ [Close])%list.
Proof.
  exact (browser_is_started_and_closed (scripted_world (fun _ => None))
           (example_settings 5) "https://display" [] [] initial_state
           (fun _ => eq_refl)).
Defined.

(** X28.  In every world the verification records the engine keeps only grow
    while the steps of a verification run: no step removes or rewrites
    a record of an earlier oracle answer. *)
Theorem verification_records_only_grow (W : World) (settings : Settings) (url : string)
    (custom_steps ps_commands : list string) (s : State) :
  exists more,
    verification_results
      (snd (verification_steps W settings url custom_steps ps_commands s))
    = (verification_results s ++ more)%list.
Proof.
  exact (keeps_verification_steps _ frame_extends_verifications W settings url
           custom_steps ps_commands s).
Qed.
